(** * Inline consensus reconciler: [build_inline_payload]

    A shallow embedding of [tests/inline_consensus_test.py].  The Python
    function receives ad hoc dict records, so the embedding works over a
    universe of Python values (the JSON fragment: None, booleans, integers,
    strings, lists, dicts with string keys; floating-point numbers are
    outside the model), an explicit store of finding objects (the function
    writes into the records it is given) and an exception outcome.

    The library calls whose exact behaviour the development does not depend
    on ([str.strip], [str.lower], [int] on text, [json.loads], [str] on a
    non-string value) are the fields of the class [PyLib]; the theorems hold
    for every instance, and an ASCII instance is used by every closed
    example.

    The later parts embed the other scripts over the same values: the
    pattern and the filter of [tests/provider_validation_test.py], the
    settings scripts [scripts/config_merge.py] and
    [scripts/config_loader.py], and [scripts/prompt_builder.py].  What these
    read from the file system (the YAML and JSON readers, [os.path.isfile],
    the text of a file, [str.splitlines]) is a parameter of the model, and
    the documents they read are values of the universe above. *)

From Stdlib Require Import ZArith Ascii String List Bool Lia.
From stdpp Require Import base decidable option list sets gmap strings pretty.

Local Open Scope string_scope.
Local Open Scope list_scope.
Local Open Scope Z_scope.

(** ** Python values and exceptions *)

Set Warnings "-register-all".

Inductive pyval : Type :=
| VNone
| VBool (b : bool)
| VInt (z : Z)
| VStr (s : string)
| VList (l : list pyval)
| VDict (d : list (string * pyval)).

Inductive exn : Type := AttributeError | TypeError | ValueError.

Inductive result (A : Type) : Type :=
| Ok (a : A)
| Raise (e : exn).
Arguments Ok {A} a.
Arguments Raise {A} e.

Definition rbind {A B} (r : result A) (k : A → result B) : result B :=
  match r with Ok a => k a | Raise e => Raise e end.

(** [bool(v)] *)
Definition truthy (v : pyval) : bool :=
  match v with
  | VNone => false
  | VBool b => b
  | VInt z => negb (z =? 0)
  | VStr s => negb (bool_decide (s = ""))
  | VList l => match l with [] => false | _ => true end
  | VDict d => match d with [] => false | _ => true end
  end.

(** [a or b] *)
Definition py_or (a b : pyval) : pyval := if truthy a then a else b.

(** Dicts are association lists with first-match lookup; assignment to an
    existing key keeps its position, a new key goes last. *)
Abbreviation pydict := (list (string * pyval)).

Fixpoint dict_lookup (k : string) (d : pydict) : option pyval :=
  match d with
  | [] => None
  | (k', v) :: d' => if decide (k' = k) then Some v else dict_lookup k d'
  end.

(** [d.get(k)] and [d.get(k, dflt)] *)
Definition dict_get (k : string) (d : pydict) : pyval :=
  default VNone (dict_lookup k d).
Definition dict_get_or (k : string) (dflt : pyval) (d : pydict) : pyval :=
  default dflt (dict_lookup k d).

(** [d[k] = v] *)
Fixpoint dict_set (k : string) (v : pyval) (d : pydict) : pydict :=
  match d with
  | [] => [(k, v)]
  | (k', v') :: d' =>
      if decide (k' = k) then (k, v) :: d' else (k', v') :: dict_set k v d'
  end.

(** [f.get] exists on dicts only. *)
Definition as_dict (f : pyval) : result pydict :=
  match f with VDict d => Ok d | _ => Raise AttributeError end.

(** [for x in v] *)
Fixpoint chars (s : string) : list pyval :=
  match s with
  | EmptyString => []
  | String c s' => VStr (String c EmptyString) :: chars s'
  end.

Definition py_iter (v : pyval) : result (list pyval) :=
  match v with
  | VList l => Ok l
  | VDict d => Ok (map (λ kv, VStr kv.1) d)
  | VStr s => Ok (chars s)
  | _ => Raise TypeError
  end.

(** Hashable values as set members: [True == 1] and [False == 0]. *)
Inductive hkey : Type := HNone | HInt (z : Z) | HStr (s : string).

Global Instance hkey_eq_dec : EqDecision hkey.
Proof. solve_decision. Defined.

Global Instance hkey_countable : Countable hkey :=
  inj_countable'
    (λ h, match h with
          | HNone => inl ()
          | HInt z => inr (inl z)
          | HStr s => inr (inr s)
          end)
    (λ x, match x with
          | inl _ => HNone
          | inr (inl z) => HInt z
          | inr (inr s) => HStr s
          end)
    (λ h, match h with HNone | HInt _ | HStr _ => eq_refl end).

Definition py_hash (v : pyval) : result hkey :=
  match v with
  | VNone => Ok HNone
  | VBool b => Ok (HInt (if b then 1 else 0))
  | VInt z => Ok (HInt z)
  | VStr s => Ok (HStr s)
  | VList _ | VDict _ => Raise TypeError
  end.

(** [l[:n]] *)
Definition slice_to {A} (n : Z) (l : list A) : list A :=
  if 0 <=? n then take (Z.to_nat n) l
  else take (length l - Z.to_nat (- n))%nat l.

Definition nl : string := String (ascii_of_nat 10) EmptyString.

(** ["\n".join(lines)]: every item must be a string. *)
Fixpoint str_items (lines : list pyval) : result (list string) :=
  match lines with
  | [] => Ok []
  | VStr s :: rest => rbind (str_items rest) (λ ss, Ok (s :: ss))
  | _ :: _ => Raise TypeError
  end.

Definition join_lines (lines : list pyval) : result string :=
  rbind (str_items lines) (λ ss, Ok (String.concat nl ss)).

(** ** The store and the computation monad

    Finding records are objects in a store; a list of findings is a list of
    references, so the same record may occur at several positions. *)

Abbreviation loc := nat.
Abbreviation heap := (list pyval).

(** The object behind a reference; a reference outside the store, which no
    caller-built list holds, reads as [None]. *)
Definition deref (h : heap) (l : loc) : pyval := default VNone (h !! l).

Definition M (A : Type) : Type := heap → heap * result A.

Definition ret {A} (a : A) : M A := λ h, (h, Ok a).
Definition bind {A B} (m : M A) (k : A → M B) : M B :=
  λ h, match m h with
       | (h', Ok a) => k a h'
       | (h', Raise e) => (h', Raise e)
       end.
Definition lift {A} (r : result A) : M A := λ h, (h, r).
Definition read (l : loc) : M pyval := λ h, (h, Ok (deref h l)).

(** [heap[l][k] = v] *)
Definition set_item (l : loc) (k : string) (v : pyval) : M unit :=
  λ h, match h !! l with
       | Some (VDict d) => (<[l := VDict (dict_set k v d)]> h, Ok tt)
       | _ => (h, Raise TypeError)
       end.

(** Fresh objects, as [json.loads] creates them. *)
Definition alloc_all (vs : list pyval) : M (list loc) :=
  λ h, (h ++ vs, Ok (seq (length h) (length vs))).

Declare Scope py_scope.
Delimit Scope py_scope with py.
Notation "'let*' x ':=' m 'in' k" := (bind m (λ x, k))
  (at level 10, x name, m at level 200, k at level 200) : py_scope.
Notation "'let*' ' p ':=' m 'in' k" := (bind m (λ x, let 'p := x in k))
  (at level 10, p pattern, m at level 200, k at level 200) : py_scope.
Notation "'let?' x ':=' r 'in' k" := (rbind r (λ x, k))
  (at level 10, x name, r at level 200, k at level 200) : py_scope.
Notation "'let?' ' p ':=' r 'in' k" := (rbind r (λ x, let 'p := x in k))
  (at level 10, p pattern, r at level 200, k at level 200) : py_scope.
Local Open Scope py_scope.

Fixpoint foldM {A S} (f : S → A → M S) (l : list A) (s : S) : M S :=
  match l with
  | [] => ret s
  | a :: l' => bind (f s a) (foldM f l')
  end.

Fixpoint forM {A} (f : A → M unit) (l : list A) : M unit :=
  match l with
  | [] => ret tt
  | a :: l' => bind (f a) (λ _, forM f l')
  end.

(** ** Data of the reconciler *)

Definition key : Type := string * Z * string.

Record entry : Type := Entry {
  providers : gset hkey;
  finding : loc;
  max_sev : string
}.

Record comment : Type := Comment {
  path : string;
  line : Z;
  side : string;
  body : string
}.

Abbreviation by_key_t := (list (key * entry)).

Fixpoint bk_lookup (k : key) (bk : by_key_t) : option entry :=
  match bk with
  | [] => None
  | (k', e) :: bk' => if decide (k' = k) then Some e else bk_lookup k bk'
  end.

(** [by_key[k] = e] for a key already present: the entry object is updated
    where it is. *)
Fixpoint bk_put (k : key) (e : entry) (bk : by_key_t) : by_key_t :=
  match bk with
  | [] => [(k, e)]
  | (k', e') :: bk' =>
      if decide (k' = k) then (k, e) :: bk' else (k', e') :: bk_put k e bk'
  end.

(** [by_key.setdefault(k, dflt)]: the dict afterwards and the entry. *)
Definition setdefault (k : key) (dflt : entry) (bk : by_key_t)
  : by_key_t * entry :=
  match bk_lookup k bk with
  | Some e => (bk, e)
  | None => (bk ++ [(k, dflt)], dflt)
  end.

Definition severity_order (s : string) : option Z :=
  if decide (s = "critical") then Some 3
  else if decide (s = "major") then Some 2
  else if decide (s = "minor") then Some 1
  else None.

(** [severity_order.get(s, 0)] *)
Definition rank (s : string) : Z := default 0 (severity_order s).

Definition placeholder : string :=
  "No specific suggestion provided; please adjust accordingly.".

(** ** Library behaviour taken as given *)

Class PyLib : Type := {
  str_strip : string → string;          (* s.strip() *)
  str_lower : string → string;          (* s.lower() *)
  int_of_str : string → option Z;       (* int(s); None: ValueError *)
  json_loads : string → option pyval;   (* None: any exception *)
  py_str : pyval → string               (* str(v), v not a string *)
}.

(** ** The reconciler *)

Section Reconciler.

Context {lib : PyLib}.

(** [v.strip()] and [v.lower()]: string methods. *)
Definition py_strip (v : pyval) : result string :=
  match v with VStr s => Ok (str_strip s) | _ => Raise AttributeError end.
Definition py_lower (v : pyval) : result string :=
  match v with VStr s => Ok (str_lower s) | _ => Raise AttributeError end.

(** [int(v)] *)
Definition py_int (v : pyval) : result Z :=
  match v with
  | VInt z => Ok z
  | VBool b => Ok (if b then 1 else 0)
  | VStr s =>
      match int_of_str s with Some z => Ok z | None => Raise ValueError end
  | VNone | VList _ | VDict _ => Raise TypeError
  end.

(** Interpolation of a value in an f-string. *)
Definition fmt (v : pyval) : string :=
  match v with VStr s => s | _ => py_str v end.

(** [detail != msg], [msg] a string. *)
Definition differs (v : pyval) (msg : string) : bool :=
  match v with VStr s => negb (bool_decide (s = msg)) | _ => true end.

Definition load_struct_findings (struct_line : string) : pyval :=
  if bool_decide (struct_line = "") then VList []
  else
    match json_loads struct_line with
    | Some (VDict data) => py_or (dict_get "findings" data) (VList [])
    | Some _ => VList []          (* data.get: AttributeError, caught *)
    | None => VList []
    end.

Definition key_for (f : pyval) : result key :=
  let? d := as_dict f in
  let? file := py_strip (py_or (dict_get "file" d) (VStr "")) in
  let line :=
    match py_int (dict_get_or "line" (VInt 0) d) with
    | Ok z => z
    | Raise _ => 0
    end in
  let? msg := py_strip (py_or (py_or (dict_get "title" d)
                                     (dict_get "message" d)) (VStr "")) in
  Ok (file, line, str_lower msg).

(** [suggestion = f.get("suggestion") or ""], replaced by the placeholder
    when blank. *)
Definition normal_suggestion (d : pydict) : result pyval :=
  let suggestion := py_or (dict_get "suggestion" d) (VStr "") in
  let? stripped := py_strip suggestion in
  Ok (if bool_decide (stripped = "") then VStr placeholder else suggestion).

(** Line 40: [not file or line <= 0 or not msg]. *)
Definition no_key (k : key) : bool :=
  let '(file, line, msg) := k in
  bool_decide (file = "") || (line <=? 0) || bool_decide (msg = "").

(** Line 10: [severity_order.get(min_sev.lower(), 1)]. *)
Definition min_rank_of (min_sev : string) : Z :=
  default 1 (severity_order (str_lower min_sev)).

Section Loop.

Variable min_rank : Z.
Variable min_agree : Z.
Variable changed_files : gset string.

(** Lines 39-46: the key and the lower-cased severity of a finding that
    passes the filters, [None] for [continue]. *)
Definition screen (f : pyval) : result (option (key * string)) :=
  let? '(file, line, msg) := key_for f in
  if no_key (file, line, msg) then Ok None
  else if negb (bool_decide (changed_files = ∅))
          && negb (bool_decide (file ∈ changed_files))
  then Ok None
  else
    let? d := as_dict f in
    let? severity := py_lower (py_or (dict_get "severity" d) (VStr "")) in
    if rank severity <? min_rank then Ok None
    else Ok (Some ((file, line, msg), severity)).

(** Lines 47-57. *)
Definition merge (bk : by_key_t) (f : loc) (k : key) (severity : string)
  : M by_key_t :=
  let* fv := read f in
  let* d := lift (as_dict fv) in
  let* suggestion := lift (normal_suggestion d) in
  let '(bk1, e) :=
    setdefault k {| providers := ∅; finding := f; max_sev := severity |}
               bk in
  let* e1 :=
    if rank (max_sev e) <? rank severity
    then let* _ := set_item f "suggestion" suggestion in
         ret {| providers := providers e; finding := f;
                max_sev := severity |}
    else ret e in
  let* fv' := read f in
  let* d' := lift (as_dict fv') in
  let provider := dict_get "provider" d' in
  if truthy provider
  then let* p := lift (py_hash provider) in
       ret (bk_put k {| providers := {[p]} ∪ providers e1;
                        finding := finding e1;
                        max_sev := max_sev e1 |} bk1)
  else ret (bk_put k e1 bk1).

(** One iteration of [for f in all_findings]. *)
Definition visit (bk : by_key_t) (f : loc) : M by_key_t :=
  let* fv := read f in
  let* r := lift (screen fv) in
  match r with
  | None => ret bk
  | Some (k, severity) => merge bk f k severity
  end.

(** Lines 63-82: the comment of a surviving entry. *)
Definition render (h : heap) (k : key) (e : entry) : result comment :=
  let '(file, line, msg) := k in
  let? f := as_dict (deref h (finding e)) in
  let severity :=
    py_or (py_or (VStr (max_sev e)) (dict_get "severity" f))
          (VStr "issue") in
  let head :=
    py_or (py_or (dict_get "title" f) (dict_get "message" f)) (VStr msg) in
  let first := "**" +:+ fmt severity +:+ "**: " +:+ fmt head in
  let detail := py_or (dict_get "message" f) (VStr "") in
  let body_lines :=
    if truthy detail && differs detail msg
    then [VStr first; detail] else [VStr first] in
  let? suggestion := normal_suggestion f in
  let? text := join_lines (body_lines ++
                 [VStr "```suggestion"; suggestion; VStr "```"]) in
  Ok {| path := file; line := line; side := "RIGHT"; body := text |}.

(** Lines 59-82: [for (file, line, msg), entry in by_key.items()]. *)
Fixpoint render_all (h : heap) (bk : by_key_t) : result (list comment) :=
  match bk with
  | [] => Ok []
  | (k, e) :: bk' =>
      if Z.of_nat (size (providers e)) <? min_agree
      then render_all h bk'
      else let? c := render h k e in
           let? cs := render_all h bk' in
           Ok (c :: cs)
  end.

End Loop.

(** Lines 33-34: [f["provider"] = f.get("provider") or "synthesis"]. *)
Definition tag (f : loc) : M unit :=
  let* fv := read f in
  let* d := lift (as_dict fv) in
  set_item f "provider" (py_or (dict_get "provider" d) (VStr "synthesis")).

(** [provider_findings + struct_findings]: the right operand must be a
    list. *)
Definition concat_findings (provider_findings : list loc)
    (struct_findings : pyval) (struct_locs : list loc) : result (list loc) :=
  match struct_findings with
  | VList _ => Ok (provider_findings ++ struct_locs)
  | _ => Raise TypeError
  end.

(** Lines 32-36: the working list. *)
Definition gather (provider_findings : list loc) (struct_line : string)
  : M (list loc) :=
  let struct_findings := load_struct_findings struct_line in
  let* items := lift (py_iter struct_findings) in
  let* struct_locs := alloc_all items in
  let* _ := forM tag struct_locs in
  lift (concat_findings provider_findings struct_findings struct_locs).

Definition build_inline_payload (provider_findings : list loc)
    (struct_line : string) (max_comments : pyval) (min_sev : string)
    (min_agree : pyval) (providers : list string)
    (changed_files : gset string) : M (list comment) :=
  let min_rank := min_rank_of min_sev in
  let* max_comments := lift (py_int max_comments) in
  let* min_agree := lift (py_int min_agree) in
  let min_agree := Z.max 1 min_agree in
  let* all_findings := gather provider_findings struct_line in
  let* by_key := foldM (visit min_rank changed_files) all_findings [] in
  let* comments := (λ h, (h, render_all min_agree h by_key)) in
  ret (slice_to max_comments comments).

End Reconciler.

(** ** An ASCII instance of the library *)

(** [str.isspace] on ASCII characters. *)
Definition is_space (c : ascii) : bool :=
  let n := nat_of_ascii c in
  ((9 <=? n) && (n <=? 13) || (28 <=? n) && (n <=? 32))%nat.

Fixpoint lstrip (s : string) : string :=
  match s with
  | EmptyString => EmptyString
  | String c s' => if is_space c then lstrip s' else s
  end.

Definition ascii_strip (s : string) : string :=
  String.rev (lstrip (String.rev (lstrip s))).

Definition lower_char (c : ascii) : ascii :=
  let n := nat_of_ascii c in
  if ((65 <=? n) && (n <=? 90))%nat then ascii_of_nat (n + 32) else c.

Fixpoint ascii_lower (s : string) : string :=
  match s with
  | EmptyString => EmptyString
  | String c s' => String (lower_char c) (ascii_lower s')
  end.

(** Decimal digits, single underscores allowed between digits. *)
Fixpoint digits (s : string) (acc : Z) (after_digit : bool) : option Z :=
  match s with
  | EmptyString => if after_digit then Some acc else None
  | String c s' =>
      let n := nat_of_ascii c in
      if ((48 <=? n) && (n <=? 57))%nat
      then digits s' (10 * acc + Z.of_nat (n - 48)) true
      else if ((n =? 95)%nat && after_digit) then digits s' acc false
      else None
  end.

Definition dec_int (s : string) : option Z :=
  match ascii_strip s with
  | String c s' =>
      if (nat_of_ascii c =? 45)%nat then Z.opp <$> digits s' 0 false
      else if (nat_of_ascii c =? 43)%nat then digits s' 0 false
      else digits (String c s') 0 false
  | EmptyString => None
  end.

Definition dq : string := String (ascii_of_nat 34) EmptyString.

(** The JSON texts the examples use. *)
Definition no_findings_text : string :=
  "{" +:+ dq +:+ "findings" +:+ dq +:+ ": []}".
Definition number_findings_text : string :=
  "{" +:+ dq +:+ "findings" +:+ dq +:+ ": 5}".
Definition scalar_record_text : string :=
  "{" +:+ dq +:+ "findings" +:+ dq +:+ ": [7]}".
Definition one_finding_text : string :=
  "{" +:+ dq +:+ "findings" +:+ dq +:+ ": [{"
  +:+ dq +:+ "file" +:+ dq +:+ ": " +:+ dq +:+ "a.py" +:+ dq +:+ ", "
  +:+ dq +:+ "line" +:+ dq +:+ ": 10, "
  +:+ dq +:+ "severity" +:+ dq +:+ ": " +:+ dq +:+ "Major" +:+ dq +:+ ", "
  +:+ dq +:+ "title" +:+ dq +:+ ": " +:+ dq +:+ "Bug A" +:+ dq +:+ "}]}".
Definition bare_list_text : string := "[1, 2]".

(** The record in [one_finding_text]. *)
Definition parsed_finding : pyval :=
  VDict [("file", VStr "a.py"); ("line", VInt 10);
         ("severity", VStr "Major"); ("title", VStr "Bug A")].

(** [json.loads] on those texts; any other text is taken as malformed. *)
Definition json_table (s : string) : option pyval :=
  if bool_decide (s = no_findings_text)
  then Some (VDict [("findings", VList [])])
  else if bool_decide (s = number_findings_text)
  then Some (VDict [("findings", VInt 5)])
  else if bool_decide (s = scalar_record_text)
  then Some (VDict [("findings", VList [VInt 7])])
  else if bool_decide (s = one_finding_text)
  then Some (VDict [("findings", VList [parsed_finding])])
  else if bool_decide (s = bare_list_text)
  then Some (VList [VInt 1; VInt 2])
  else None.

(** [str] of the scalars; the examples never format a container. *)
Definition scalar_str (v : pyval) : string :=
  match v with
  | VNone => "None"
  | VBool true => "True"
  | VBool false => "False"
  | VInt z => pretty z
  | VStr s => s
  | VList _ | VDict _ => ""
  end.

Definition ascii_lib : PyLib := {|
  str_strip := ascii_strip;
  str_lower := ascii_lower;
  int_of_str := dec_int;
  json_loads := json_table;
  py_str := scalar_str
|}.

(** Records as the tests of the source write them. *)
Definition record (file : string) (line : Z) (severity title message
    suggestion provider : string) : pyval :=
  VDict [("file", VStr file); ("line", VInt line);
         ("severity", VStr severity); ("title", VStr title);
         ("message", VStr message); ("suggestion", VStr suggestion);
         ("provider", VStr provider)].

Definition run (h : heap) (provider_findings : list loc) (struct_line : string)
    (max_comments : Z) (min_sev : string) (min_agree : Z)
    (changed_files : gset string) : heap * result (list comment) :=
  @build_inline_payload ascii_lib provider_findings struct_line
    (VInt max_comments) min_sev (VInt min_agree) [] changed_files h.


(** ** Data of the examples *)

(** Three providers on one issue, a solitary report, an unranked one. *)
Definition reports : heap :=
  [ record "a.py" 10 "minor" "Bug A" "msg" "" "p1";
    record " a.py " 10 "MAJOR" "bug a" "msg" "  " "p2";
    record "a.py" 10 "major" "Bug A" "other" "fix" "p2";
    record "a.py" 20 "major" "Solo" "msg" "fix3" "p3";
    record "a.py" 30 "note" "Info" "msg" "fix" "p1" ].

(** The store after the call: the second report has its suggestion filled,
    the structured finding is tagged. *)
Definition reports_after : heap :=
  [ record "a.py" 10 "minor" "Bug A" "msg" "" "p1";
    record " a.py " 10 "MAJOR" "bug a" "msg" placeholder "p2";
    record "a.py" 10 "major" "Bug A" "other" "fix" "p2";
    record "a.py" 20 "major" "Solo" "msg" "fix3" "p3";
    record "a.py" 30 "note" "Info" "msg" "fix" "p1";
    VDict [("file", VStr "a.py"); ("line", VInt 10);
           ("severity", VStr "Major"); ("title", VStr "Bug A");
           ("provider", VStr "synthesis")] ].

Definition reports_gathered : heap :=
  reports ++
  [ VDict [("file", VStr "a.py"); ("line", VInt 10);
           ("severity", VStr "Major"); ("title", VStr "Bug A");
           ("provider", VStr "synthesis")] ].

Definition bug_a : key := ("a.py", 10, "bug a").
Definition solo : key := ("a.py", 20, "solo").

Definition reports_by_key : by_key_t :=
  [ (bug_a, {| providers := {[HStr "p1"; HStr "p2"; HStr "synthesis"]};
               finding := 1%nat; max_sev := "major" |});
    (solo, {| providers := {[HStr "p3"]};
              finding := 3%nat; max_sev := "major" |}) ].

Definition reports_comments : list comment :=
  [ {| path := "a.py"; line := 10; side := "RIGHT";
       body := "**major**: bug a" +:+ nl +:+ "msg" +:+ nl
               +:+ "```suggestion" +:+ nl +:+ placeholder +:+ nl +:+ "```" |} ].

(** The call of the examples: findings in [a.py], at least two providers. *)
Definition reports_call : heap * result (list comment) :=
  run reports [0; 1; 2; 3; 4]%nat one_finding_text 5 "minor" 2 {["a.py"]}.

(** The same reports alone, one provider enough, a cap of one given as
    text. *)
Definition capped_call : heap * result (list comment) :=
  build_inline_payload (lib := ascii_lib) [0; 1; 2; 3; 4]%nat ""
    (VStr " 1 ") "minor" (VInt 1) [] ∅ reports.



(** A record with a number where the title goes. *)
Definition numeric_title : pyval :=
  VDict [("file", VStr "a.py"); ("line", VInt 1); ("severity", VStr "major");
         ("title", VInt 404); ("provider", VStr "p1")].


(** The reports alone, one provider enough, no scope: both issues are
    reported; the structured text being empty, nothing joins the store. *)
Definition solo_comment : comment :=
  {| path := "a.py"; line := 20; side := "RIGHT";
     body := "**major**: Solo" +:+ nl +:+ "msg" +:+ nl
             +:+ "```suggestion" +:+ nl +:+ "fix3" +:+ nl +:+ "```" |}.

Definition open_after : heap := take 5 reports_after.

Definition open_comments : list comment := reports_comments ++ [solo_comment].

Definition open_call : heap * result (list comment) :=
  run reports [0; 1; 2; 3; 4]%nat "" 5 "minor" 1 ∅.

(** The same with two providers required. *)
Definition agreed_call : heap * result (list comment) :=
  run reports [0; 1; 2; 3; 4]%nat "" 5 "minor" 2 ∅.

(** A valid name with the newline the pattern lets through. *)
Definition newline_name : string := "opencode/x" +:+ nl.

(** The warning of [settings]. *)
Definition settings_warning : string :=
  "Warning: failed to cast inline_max_comments value 'many' to int".

(** A settings document: a blank entry among the providers, a number given
    as text, one that is no number, a null. *)
Definition settings : pydict :=
  [ ("providers", VList [VStr "opencode/big-pickle"; VStr ""]);
    ("inline_max_comments", VStr "many");
    ("diff_max_bytes", VStr "4096");
    ("synthesis_model", VNone);
    ("skip_labels", VList [VStr "wip"; VStr "draft"]) ].

Definition settings_exports : pydict :=
  [ ("REVIEW_PROVIDERS", VStr "opencode/big-pickle");
    ("DIFF_MAX_BYTES", VInt 4096);
    ("SKIP_LABELS", VStr "wip,draft") ].

(** The object of [settings_exports] as [json.dumps] writes it. *)
Definition settings_text : string :=
  "{" +:+ dq +:+ "REVIEW_PROVIDERS" +:+ dq +:+ ": "
  +:+ dq +:+ "opencode/big-pickle" +:+ dq +:+ ", "
  +:+ dq +:+ "DIFF_MAX_BYTES" +:+ dq +:+ ": 4096, "
  +:+ dq +:+ "SKIP_LABELS" +:+ dq +:+ ": " +:+ dq +:+ "wip,draft" +:+ dq
  +:+ "}".

(** Overrides with a null. *)
Definition null_override_text : string :=
  "{" +:+ dq +:+ "SYNTHESIS_MODEL" +:+ dq +:+ ": null, "
  +:+ dq +:+ "INLINE_MAX_COMMENTS" +:+ dq +:+ ": 7}".

Definition null_override : pydict :=
  [("SYNTHESIS_MODEL", VNone); ("INLINE_MAX_COMMENTS", VInt 7)].

(** A document whose providers are all blank, and what the loader prints
    for it. *)
Definition no_providers : pydict := [("providers", VList [VStr ""])].

Definition no_providers_exports : pydict := [("REVIEW_PROVIDERS", VStr "")].

Definition no_providers_text : string :=
  "{" +:+ dq +:+ "REVIEW_PROVIDERS" +:+ dq +:+ ": " +:+ dq +:+ dq +:+ "}".

Definition settings_table (s : string) : option pyval :=
  if bool_decide (s = settings_text) then Some (VDict settings_exports)
  else if bool_decide (s = null_override_text) then Some (VDict null_override)
  else if bool_decide (s = no_providers_text)
  then Some (VDict no_providers_exports)
  else json_table s.

Definition settings_lib : PyLib := {|
  str_strip := ascii_strip;
  str_lower := ascii_lower;
  int_of_str := dec_int;
  json_loads := settings_table;
  py_str := scalar_str
|}.

(** A file system with one YAML file. *)
Definition one_yaml (path : string) : pyval :=
  if bool_decide (path = "review.yml") then VDict settings else VNone.

(** The same document with the null left out, read as JSON. *)
Definition one_json (path : string) : pyval :=
  if bool_decide (path = "review.yml")
  then VDict (filter (λ kv, kv.1 ≠ "synthesis_model") settings)
  else VNone.

Definition no_file (path : string) : pyval := VNone.

Definition blank_yaml (path : string) : pyval :=
  if bool_decide (path = "review.yml") then VDict no_providers else VNone.

(** Twelve defaults, as they follow the script name and the
    overrides on the command line. *)
Definition default_args : list string :=
  [ "opencode/big-pickle"; "opencode/big-pickle"; "5"; "major"; "1"; "120000";
    "600"; "0"; "0"; "-"; "-"; "-" ].

(** ** Vocabulary of the properties *)

(** A field that holds text or nothing: a string, or any falsy value. *)
Definition text_like (v : pyval) : bool :=
  match v with VStr _ => true | _ => negb (truthy v) end.

(** A provider that can enter a set: falsy, or a hashable value. *)
Definition hashable_like (v : pyval) : bool :=
  match v with VList (_ :: _) | VDict (_ :: _) => false | _ => true end.

(** A record of the documented shape: a dict whose text fields are strings
    or empty and whose provider is hashable; [line] may hold anything. *)
Definition well_typed (f : pyval) : bool :=
  match f with
  | VDict d =>
      text_like (dict_get "file" d) && text_like (dict_get "title" d)
      && text_like (dict_get "message" d)
      && text_like (dict_get "severity" d)
      && text_like (dict_get "suggestion" d)
      && hashable_like (dict_get "provider" d)
  | _ => false
  end.

(** Insertion order of a dict fed the keys [ks], starting from the keys
    [acc]. *)
Fixpoint first_seen (ks acc : list key) : list key :=
  match ks with
  | [] => acc
  | k :: ks' =>
      first_seen ks' (if bool_decide (k ∈ acc) then acc else acc ++ [k])
  end.

(** [l[:n]] keeps the first [keep n (len l)] items. *)
Definition keep (n : Z) (len : nat) : nat :=
  if 0 <=? n then Nat.min (Z.to_nat n) len else (len - Z.to_nat (- n))%nat.

(** The fenced block at the end of a body holds exactly [text]. *)
Definition fenced (text : string) (c : comment) : Prop :=
  ∃ before, body c = before +:+ nl +:+ "```suggestion" +:+ nl +:+ text
                     +:+ nl +:+ "```".

(** The entries that pass line 61. *)
Definition surviving (min_agree : Z) (bk : by_key_t) : by_key_t :=
  filter (λ ke, min_agree ≤ Z.of_nat (size (providers ke.2))) bk.

Section Vocabulary.

Context {lib : PyLib}.

(** [out] lists the comments of the entries [sel], one by one. *)
Definition emitted (h : heap) (sel : by_key_t) (out : list comment) : Prop :=
  Forall2 (λ ke c, render h ke.1 ke.2 = Ok c) sel out.

(** A suggestion field that line 48 finds blank. *)
Definition blank (v : pyval) : Prop :=
  py_strip (py_or v (VStr "")) = Ok "".

(** The record [v'] is the record [v], up to its suggestion replaced by
    the normalized one. *)
Definition same_record (v v' : pyval) : Prop :=
  v' = v ∨
  ∃ d d' s, v = VDict d ∧ v' = VDict d'
    ∧ (∀ k, k ≠ "suggestion" → dict_lookup k d' = dict_lookup k d)
    ∧ normal_suggestion d = Ok s
    ∧ dict_lookup "suggestion" d' = Some s.

Definition same_heap (h h' : heap) : Prop :=
  length h' = length h ∧ ∀ l, same_record (deref h l) (deref h' l).

(** What a completed iteration on an accepted finding did. *)
Definition merged (bk : by_key_t) (f : loc) (k : key) (severity : string)
    (h h' : heap) (bk' : by_key_t) : Prop :=
  ∃ d s bk1 e e1,
    deref h f = VDict d ∧ normal_suggestion d = Ok s
    ∧ setdefault k {| providers := ∅; finding := f; max_sev := severity |} bk
      = (bk1, e)
    ∧ ((rank (max_sev e) < rank severity
        ∧ h' = <[f := VDict (dict_set "suggestion" s d)]> h
        ∧ e1 = {| providers := providers e; finding := f;
                  max_sev := severity |})
       ∨ (rank severity ≤ rank (max_sev e) ∧ h' = h ∧ e1 = e))
    ∧ ((truthy (dict_get "provider" d) = true
        ∧ ∃ p, py_hash (dict_get "provider" d) = Ok p
            ∧ bk' = bk_put k {| providers := {[p]} ∪ providers e1;
                                finding := finding e1;
                                max_sev := max_sev e1 |} bk1)
       ∨ (truthy (dict_get "provider" d) = false ∧ bk' = bk_put k e1 bk1)).

(** The entry the iteration starts from: the one in [by_key], or the fresh
    one of [setdefault]. *)
Definition entry_before (bk : by_key_t) (f : loc) (k : key)
    (severity : string) : entry :=
  default {| providers := ∅; finding := f; max_sev := severity |}
          (bk_lookup k bk).

(** The object at [f] passes the filters under key [k] and contributes the
    provider [p] to the key's set. *)
Definition backs (min_rank : Z) (changed_files : gset string) (h : heap)
    (f : loc) (k : key) (p : hkey) : Prop :=
  ∃ severity d,
    screen min_rank changed_files (deref h f) = Ok (Some (k, severity))
    ∧ deref h f = VDict d
    ∧ truthy (dict_get "provider" d) = true
    ∧ py_hash (dict_get "provider" d) = Ok p.

(** The keys of the findings of [fs] that pass the filters, in order. *)
Fixpoint accepted_keys (min_rank : Z) (changed_files : gset string)
    (h : heap) (fs : list loc) : list key :=
  match fs with
  | [] => []
  | f :: fs' =>
      match screen min_rank changed_files (deref h f) with
      | Ok (Some (k, _)) => k :: accepted_keys min_rank changed_files h fs'
      | _ => accepted_keys min_rank changed_files h fs'
      end
  end.

(** Texts of [struct_line] that line 14-21 reads as a list of records. *)
Inductive tolerated (struct_line : string) : list pyval → Prop :=
| tolerated_empty :
    struct_line = "" → tolerated struct_line []
| tolerated_malformed :
    json_loads struct_line = None → tolerated struct_line []
| tolerated_not_dict v :
    json_loads struct_line = Some v → (∀ d, v ≠ VDict d) →
    tolerated struct_line []
| tolerated_no_findings d :
    json_loads struct_line = Some (VDict d) →
    truthy (dict_get "findings" d) = false →
    tolerated struct_line []
| tolerated_findings d items :
    json_loads struct_line = Some (VDict d) →
    dict_get "findings" d = VList items →
    tolerated struct_line items.

(** The text of a field that holds text or nothing. *)
Definition text_of (v : pyval) : string :=
  match v with VStr s => s | _ => "" end.

(** Line 29 before trimming: the title unless it is absent or empty, else
    the message. *)
Definition key_message (d : pydict) : string :=
  if truthy (dict_get "title" d) then text_of (dict_get "title" d)
  else text_of (dict_get "message" d).

(** Lines 25-28: [int(line)], or 0 when that raises. *)
Definition line_or_zero (d : pydict) : Z :=
  match py_int (dict_get_or "line" (VInt 0) d) with
  | Ok z => z
  | Raise _ => 0
  end.

(** The stored object [v'] is the object [v], or the same record with a
    blank suggestion replaced by the placeholder. *)
Definition suggestion_filled (v v' : pyval) : Prop :=
  v' = v ∨
  ∃ d d', v = VDict d ∧ v' = VDict d'
    ∧ (∀ k, k ≠ "suggestion" → dict_lookup k d' = dict_lookup k d)
    ∧ (dict_lookup "suggestion" d' = dict_lookup "suggestion" d
       ∨ (blank (dict_get "suggestion" d)
          ∧ dict_lookup "suggestion" d' = Some (VStr placeholder))).


End Vocabulary.

(** ** Provider names: [tests/provider_validation_test.py]

    The pattern of [VALID_RE] is kept as a regular expression and matched
    by derivatives, so that it can be read against the source. *)

Inductive regex : Type :=
| RNone                               (* matches nothing *)
| REps                                (* the empty string *)
| RSet (p : ascii → bool)             (* one character of a class *)
| RCat (r1 r2 : regex)
| RAlt (r1 r2 : regex)
| RStar (r : regex).

Fixpoint nullable (r : regex) : bool :=
  match r with
  | RNone => false
  | REps => true
  | RSet _ => false
  | RCat r1 r2 => nullable r1 && nullable r2
  | RAlt r1 r2 => nullable r1 || nullable r2
  | RStar _ => true
  end.

Fixpoint deriv (c : ascii) (r : regex) : regex :=
  match r with
  | RNone => RNone
  | REps => RNone
  | RSet p => if p c then REps else RNone
  | RCat r1 r2 =>
      if nullable r1 then RAlt (RCat (deriv c r1) r2) (deriv c r2)
      else RCat (deriv c r1) r2
  | RAlt r1 r2 => RAlt (deriv c r1) (deriv c r2)
  | RStar r1 => RCat (deriv c r1) (RStar r1)
  end.

(** The whole of [s] matches [r]. *)
Fixpoint rmatch (r : regex) (s : string) : bool :=
  match s with
  | EmptyString => nullable r
  | String c s' => rmatch (deriv c r) s'
  end.

(** A literal text, [r?] and [r+]. *)
Fixpoint RLit (s : string) : regex :=
  match s with
  | EmptyString => REps
  | String c s' => RCat (RSet (Ascii.eqb c)) (RLit s')
  end.
Definition ROpt (r : regex) : regex := RAlt REps r.
Definition RPlus (r : regex) : regex := RCat r (RStar r).

(** [re.compile("^" r "$").match(s)]: [r] from the start of [s] up to its
    end, or up to a newline that ends it. *)
Definition match_anchored (r : regex) (s : string) : bool :=
  rmatch (RCat r (ROpt (RLit nl))) s.

(** The class [[A-Za-z0-9._-]]. *)
Definition name_char (c : ascii) : bool :=
  let n := nat_of_ascii c in
  ((65 <=? n) && (n <=? 90) || (97 <=? n) && (n <=? 122)
   || (48 <=? n) && (n <=? 57)
   || (n =? 46) || (n =? 95) || (n =? 45))%nat.

(** [(opencode|openrouter)/[A-Za-z0-9._-]+(:free)?] *)
Definition VALID_RE : regex :=
  RCat (RAlt (RLit "opencode") (RLit "openrouter"))
       (RCat (RLit "/")
             (RCat (RPlus (RSet name_char)) (ROpt (RLit ":free")))).

Definition validate_provider_name (name : string) : bool :=
  match_anchored VALID_RE name.

(** [{p.strip() for p in (names or []) if p.strip()}]; [None] is the
    default of the parameter. *)
Definition strip_set {lib : PyLib} (names : option (list string))
  : gset string :=
  list_to_set (filter (λ s, s ≠ "") (str_strip <$> default [] names)).

(** Lines 18-26 of [filter_providers]: the loop over [raw], [out] being
    the list built so far. *)
Fixpoint filter_loop (allowset blockset : gset string)
    (raw out : list string) : list string :=
  match raw with
  | [] => out
  | p :: raw' =>
      if negb (validate_provider_name p) then
        filter_loop allowset blockset raw' out
      else if negb (bool_decide (allowset = ∅))
              && negb (bool_decide (p ∈ allowset)) then
        filter_loop allowset blockset raw' out
      else if negb (bool_decide (blockset = ∅))
              && bool_decide (p ∈ blockset) then
        filter_loop allowset blockset raw' out
      else if negb (bool_decide (p ∈ out)) then
        filter_loop allowset blockset raw' (out ++ [p])
      else filter_loop allowset blockset raw' out
  end.

Definition filter_providers {lib : PyLib} (raw : list string)
    (allowlist blocklist : option (list string)) : list string :=
  filter_loop (strip_set allowlist) (strip_set blocklist) raw [].

(** What the pattern means. *)
Inductive lang : regex → string → Prop :=
| lang_eps : lang REps ""
| lang_set p c : p c = true → lang (RSet p) (String c "")
| lang_cat r1 r2 s1 s2 :
    lang r1 s1 → lang r2 s2 → lang (RCat r1 r2) (s1 +:+ s2)
| lang_alt_l r1 r2 s : lang r1 s → lang (RAlt r1 r2) s
| lang_alt_r r1 r2 s : lang r2 s → lang (RAlt r1 r2) s
| lang_star_nil r : lang (RStar r) ""
| lang_star_cons r s1 s2 :
    lang r s1 → lang (RStar r) s2 → lang (RStar r) (s1 +:+ s2).

Fixpoint string_all (p : ascii → bool) (s : string) : bool :=
  match s with
  | EmptyString => true
  | String c s' => p c && string_all p s'
  end.

(** How often [c] occurs in [s]. *)
Fixpoint occurrences (c : ascii) (s : string) : nat :=
  match s with
  | EmptyString => 0
  | String c' s' => (if Ascii.eqb c' c then 1 else 0) + occurrences c s'
  end.

(** The three tests of the loop of [filter_providers] on one name. *)
Definition passes (allowset blockset : gset string) (p : string) : bool :=
  validate_provider_name p
  && (bool_decide (allowset = ∅) || bool_decide (p ∈ allowset))
  && negb (bool_decide (p ∈ blockset)).

(** * Settings: [scripts/config_merge.py] and [scripts/config_loader.py] *)

(** What a run of a script leaves behind. *)
Inductive outcome : Type :=
| Printed (line : string)            (* standard output, normal end *)
| Exited (code : Z) (err : string)   (* [sys.exit(code)] after a message *)
| Uncaught (e : exn).                (* an exception nobody catches *)

Module config_merge.
Section Script.

Context {lib : PyLib}.

Definition FIELDS : list string :=
  [ "REVIEW_PROVIDERS"; "SYNTHESIS_MODEL"; "INLINE_MAX_COMMENTS";
    "INLINE_MIN_SEVERITY"; "INLINE_MIN_AGREEMENT"; "DIFF_MAX_BYTES";
    "RUN_TIMEOUT_SECONDS"; "MIN_CHANGED_LINES"; "MAX_CHANGED_FILES";
    "PROVIDER_ALLOWLIST"; "PROVIDER_BLOCKLIST"; "SKIP_LABELS" ].

(** Lines 34-37: the parsed overrides, [{}] for an empty or unreadable
    text. *)
Definition load_config (config_raw : string) : pyval :=
  if bool_decide (config_raw = "") then VDict []
  else match json_loads config_raw with
       | Some config => config
       | None => VDict []
       end.

(** Lines 41-43: one turn of the loop. *)
Definition field (config : pyval) (defaults : list string) (idx : nat)
    (key : string) : result string :=
  let dflt := match defaults !! idx with Some d => d | None => "" end in
  let? d := as_dict config in
  let val := dict_get_or key (VStr dflt) d in
  Ok (match val with VNone => "" | _ => fmt val end).

(** [for idx, key in enumerate(keys, idx)] *)
Fixpoint fields (config : pyval) (defaults : list string) (idx : nat)
    (keys : list string) : result (list string) :=
  match keys with
  | [] => Ok []
  | key :: keys' =>
      let? s := field config defaults idx key in
      let? out := fields config defaults (S idx) keys' in
      Ok (s :: out)
  end.

Definition main (argv : list string) : outcome :=
  if (length argv <? length FIELDS + 2)%nat then
    Exited 1 "Error: insufficient arguments to config_merge"
  else
    let config_raw := match argv !! 1%nat with Some s => s | None => "" end in
    let defaults := drop 2 argv in
    match fields (load_config config_raw) defaults 0 FIELDS with
    | Ok out => Printed (String.concat " " out)
    | Raise e => Uncaught e
    end.

End Script.
End config_merge.

Module config_loader.
Section Script.

Context {lib : PyLib}.

(** The two readers of lines 15-32 return the parsed document, [None] on
    any failure; what they read is the file system's. *)
Variables load_yaml load_json : string → pyval.

(** The casts [set_if] is called with. *)
Inductive cast : Type := to_str | to_int.

Definition cast_name (c : cast) : string :=
  match c with to_str => "str" | to_int => "int" end.

Definition apply_cast (c : cast) (val : pyval) : result pyval :=
  match c with
  | to_str => Ok (VStr (fmt val))
  | to_int => let? z := py_int val in Ok (VInt z)
  end.

(** The [exports] dict and what went to standard error. *)
Record state : Type := { exports : pydict; stderr : list string }.

Definition export (env_key : string) (val : pyval) (st : state) : state :=
  {| exports := dict_set env_key val (exports st); stderr := stderr st |}.

Definition warn (msg : string) (st : state) : state :=
  {| exports := exports st; stderr := stderr st ++ [msg] |}.

Definition warning (key : string) (val : pyval) (c : cast) : string :=
  "Warning: failed to cast " +:+ key +:+ " value '" +:+ fmt val
  +:+ "' to " +:+ cast_name c.

(** Lines 47-57. *)
Definition set_if (data : pydict) (key env_key : string) (c : cast)
    (st : state) : state :=
  match dict_lookup key data with
  | None | Some VNone => st
  | Some val =>
      match apply_cast c val with
      | Ok val' => export env_key val' st
      | Raise _ => warn (warning key val c) st
      end
  end.

(** [",".join(str(x) for x in l)] *)
Definition join_commas (l : list pyval) : string :=
  String.concat "," (fmt <$> l).

(** Lines 59-63. *)
Definition set_providers (data : pydict) (st : state) : state :=
  match dict_get "providers" data with
  | VList providers =>
      export "REVIEW_PROVIDERS"
        (VStr (join_commas (filter (λ p, truthy p) providers))) st
  | VStr providers =>
      if bool_decide (str_strip providers = "") then st
      else export "REVIEW_PROVIDERS" (VStr providers) st
  | _ => st
  end.

(** Lines 79-85: one turn of the loop over the list settings. *)
Definition set_list (data : pydict) (key env_key : string) (st : state)
  : state :=
  match dict_lookup key data with
  | None | Some VNone => st
  | Some (VList val) => export env_key (VStr (join_commas val)) st
  | Some (VStr val) => export env_key (VStr val) st
  | Some _ => st
  end.

(** Lines 45-85, [data] a dict. *)
Definition collect (data : pydict) : state :=
  let st := {| exports := []; stderr := [] |} in
  let st := set_providers data st in
  let st := set_if data "synthesis_model" "SYNTHESIS_MODEL" to_str st in
  let st := set_if data "inline_max_comments" "INLINE_MAX_COMMENTS" to_int st in
  let st := set_if data "inline_min_severity" "INLINE_MIN_SEVERITY" to_str st in
  let st :=
    set_if data "inline_min_agreement" "INLINE_MIN_AGREEMENT" to_int st in
  let st := set_if data "diff_max_bytes" "DIFF_MAX_BYTES" to_int st in
  let st := set_if data "run_timeout_seconds" "RUN_TIMEOUT_SECONDS" to_int st in
  let st := set_if data "min_changed_lines" "MIN_CHANGED_LINES" to_int st in
  let st := set_if data "max_changed_files" "MAX_CHANGED_FILES" to_int st in
  let st := set_list data "provider_allowlist" "PROVIDER_ALLOWLIST" st in
  let st := set_list data "provider_blocklist" "PROVIDER_BLOCKLIST" st in
  set_list data "skip_labels" "SKIP_LABELS" st.

(** The object handed to [json.dumps] and printed, if any, and the lines on
    standard error. *)
Definition main (argv : list string) : option pydict * list string :=
  match argv !! 1%nat with
  | None => (None, [])
  | Some path =>
      let data := load_yaml path in
      let data := match data with VNone => load_json path | _ => data end in
      match data with
      | VDict d => let st := collect d in (Some (exports st), stderr st)
      | _ => (None, [])
      end
  end.

End Script.
End config_loader.

(** The settings read with [int], in the order of the calls. *)
Definition int_settings : list string :=
  [ "inline_max_comments"; "inline_min_agreement"; "diff_max_bytes";
    "run_timeout_seconds"; "min_changed_lines"; "max_changed_files" ].

Definition int_fields : list string :=
  [ "INLINE_MAX_COMMENTS"; "INLINE_MIN_AGREEMENT"; "DIFF_MAX_BYTES";
    "RUN_TIMEOUT_SECONDS"; "MIN_CHANGED_LINES"; "MAX_CHANGED_FILES" ].

(** The warning of a setting whose [int] fails, if it does. *)
Definition cast_warning {lib : PyLib} (data : pydict) (key : string)
  : list string :=
  match dict_get key data with
  | VNone => []
  | val =>
      match py_int val with
      | Ok _ => []
      | Raise _ => [config_loader.warning key val config_loader.to_int]
      end
  end.

(** An exported value has the type its field is cast to. *)
Definition export_typed (kv : string * pyval) : Prop :=
  if bool_decide (kv.1 ∈ int_fields) then ∃ z, kv.2 = VInt z
  else ∃ s, kv.2 = VStr s.

(** The field of the merged line for [key]: the override if there is one,
    no text for an override of [None]. *)
Definition merged_field {lib : PyLib} (overrides : pydict) (key dflt : string)
  : string :=
  match dict_lookup key overrides with
  | None => dflt
  | Some VNone => ""
  | Some val => fmt val
  end.

(** The settings read with [int] and the fields they are exported as. *)
Definition int_pairs : list (string * string) := zip int_settings int_fields.

(** What [main] of the loader has exported lies within the fields [fs], in
    their order, every value of its field's type. *)
Definition exports_within (fs : list string) (st : config_loader.state)
  : Prop :=
  (config_loader.exports st).*1 `sublist_of` fs
  ∧ Forall export_typed (config_loader.exports st).

(** A statement of the loader that leaves the exports alone or sets
    [env_key] to a value of its type. *)
Definition sets (env_key : string) (st st' : config_loader.state) : Prop :=
  config_loader.exports st' = config_loader.exports st
  ∨ ∃ v, export_typed (env_key, v)
      ∧ config_loader.exports st'
        = dict_set env_key v (config_loader.exports st).

(** The document [main] of the loader works on: the YAML reading, the JSON
    reading if that gave [None]. *)
Definition document (load_yaml load_json : string → pyval) (path : string)
  : pyval :=
  match load_yaml path with VNone => load_json path | data => data end.

(** What an [int] setting becomes at the end of the line: [str(int(v))], or
    the default if the setting is absent, null or not a number. *)
Definition int_field {lib : PyLib} (data : pydict) (key dflt : string)
  : string :=
  match dict_get key data with
  | VNone => dflt
  | val => match py_int val with Ok z => py_str (VInt z) | Raise _ => dflt end
  end.

(** * The prompt: [scripts/prompt_builder.py] *)

Module prompt_builder.
Section Script.

Context {lib : PyLib}.

(** The file system, which the script only reads before its one write:
    [os.path.isfile], the text of a file ([None]: opening or reading
    raises), and [str.splitlines]. *)
Variable isfile : string → bool.
Variable read_text : string → option string.
Variable splitlines : string → list string.

(** How a run ends. *)
Inductive run : Type :=
| Wrote (path text : string)   (* the prompt written to [path] *)
| Quit (code : Z)              (* [SystemExit(code)] *)
| Failed (e : exn).            (* an exception nobody catches *)

(** Lines 13-18. *)
Definition load_json (path : string) : pyval :=
  match read_text path with
  | Some text =>
      match json_loads text with Some v => v | None => VNone end
  | None => VNone
  end.

(** Lines 28-33: one turn of the loop. *)
Definition changed_file (lines : list string) (f : pyval) : list string :=
  match f with
  | VDict d =>
      let name := py_or (dict_get "filename" d) (VStr "unknown") in
      let adds := dict_get_or "additions" (VInt 0) d in
      let dels := dict_get_or "deletions" (VInt 0) d in
      lines ++ ["- " +:+ fmt name +:+ " (+" +:+ fmt adds +:+ "/-" +:+ fmt dels
                +:+ ")"]
  | _ => lines
  end.

Definition append_changed_files (lines : list string) (pr_files_path : string)
  : list string :=
  match load_json pr_files_path with
  | VList (f :: files) =>
      foldl changed_file (lines ++ [""; "## Changed Files"]) (f :: files)
  | _ => lines
  end.

Definition append_diff (lines : list string) (diff_path : string)
  : list string :=
  if bool_decide (diff_path = "") || negb (isfile diff_path) then lines
  else
    let lines := lines ++ [""; "## Diff"] in
    match read_text diff_path with
    | Some text => lines ++ [text]
    | None => lines
    end.

Definition append_missing_tests (lines : list string)
    (missing_tests_path : string) : list string :=
  if bool_decide (missing_tests_path = "") || negb (isfile missing_tests_path)
  then lines
  else
    let entries :=
      match read_text missing_tests_path with
      | Some text =>
          str_strip <$> filter (λ ln, str_strip ln ≠ "") (splitlines text)
      | None => []
      end in
    match entries with
    | [] => lines
    | _ =>
        foldl (λ lines e, lines ++ ["- " +:+ e])
          (lines ++ [""; "## Possible missing tests"]) entries
    end.

Definition append_test_hint (lines : list string) (test_hint : string)
  : list string :=
  if bool_decide (test_hint = "") then lines else lines ++ [test_hint].

Definition quoted (s : string) : string := dq +:+ s +:+ dq.

(** Lines 90-119. *)
Definition review_focus : list string :=
  [ "Please review this pull request and provide a comprehensive code review"
    +:+ " focusing on:";
    "";
    "## Code Quality & Best Practices";
    "- Clean code principles and readability";
    "- Proper error handling and edge cases";
    "- TypeScript/JavaScript best practices";
    "- Consistent naming conventions";
    "";
    "## Bug Detection";
    "- Logic errors and edge cases";
    "- Unhandled error scenarios";
    "- Race conditions and concurrency issues";
    "- Input validation and sanitization";
    "";
    "## Performance";
    "- Inefficient algorithms or operations";
    "- Memory leaks and unnecessary allocations";
    "- Large file handling";
    "";
    "## Security";
    "- SQL injection, XSS, CSRF vulnerabilities";
    "- Authentication/authorization issues";
    "- Sensitive data exposure";
    "";
    "## Testing";
    "- Test coverage gaps";
    "- Missing edge case handling" ].

(** Lines 126-155. *)
Definition output_format : list string :=
  [ "";
    "## AI-Generated Code Likelihood";
    "- Estimate the likelihood (0-100%) that the changed code was"
    +:+ " AI-generated. Give a brief rationale.";
    "";
    "## Output Format";
    "- Provide specific file and line numbers when possible";
    "- Include code suggestions in fenced code blocks using the GitHub"
    +:+ " suggestion format when appropriate:";
    "  ```suggestion";
    "  // code change";
    "  ```";
    "- Return a structured JSON block at the end, on its own line,"
    +:+ " containing findings. Use this shape exactly:";
    "  ```json";
    "  {";
    "    " +:+ quoted "findings" +:+ ": [";
    "      {";
    "        " +:+ quoted "file" +:+ ": " +:+ quoted "path/to/file.ext" +:+ ",";
    "        " +:+ quoted "line" +:+ ": 123,";
    "        " +:+ quoted "severity" +:+ ": " +:+ quoted "critical|major|minor"
    +:+ ",";
    "        " +:+ quoted "title" +:+ ": " +:+ quoted "short title" +:+ ",";
    "        " +:+ quoted "message" +:+ ": " +:+ quoted "concise description"
    +:+ ",";
    "        " +:+ quoted "suggestion" +:+ ": "
    +:+ quoted "optional code snippet or empty string";
    "      }";
    "    ]";
    "  }";
    "  ```";
    "- Summarize key findings and risks at the end";
    "";
    "IMPORTANT: Only flag actual issues. If everything looks good, respond"
    +:+ " with 'lgtm'." ].

(** Lines 83-156: the lines that depend on the arguments alone. *)
Definition instructions (repo pr_number pr_title pr_body agents_section
    : string) : list string :=
  [ "REPO: " +:+ repo; "PR NUMBER: " +:+ pr_number; "PR TITLE: " +:+ pr_title;
    "PR DESCRIPTION:"; pr_body; "" ]
  ++ review_focus
  ++ (if bool_decide (agents_section = "") then [] else [agents_section])
  ++ output_format.

Definition main (argv : list string) : run :=
  if (length argv <? 9)%nat then Quit 0
  else
    match take 10 (drop 1 argv) with
    | [ out_path; repo; pr_number; pr_title; pr_body; agents_section;
        pr_files_path; diff_path; test_hint; missing_tests_path ] =>
        let lines :=
          instructions repo pr_number pr_title pr_body agents_section in
        let lines := append_changed_files lines pr_files_path in
        let lines := append_diff lines diff_path in
        let lines := append_test_hint lines test_hint in
        let lines := append_missing_tests lines missing_tests_path in
        Wrote out_path (String.concat nl lines)
    | _ => Failed ValueError
    end.

End Script.
End prompt_builder.

(** [isinstance(v, dict)] *)
Definition is_object (v : pyval) : bool :=
  match v with VDict _ => true | _ => false end.

(** The files of the prompt examples: the changed files as [json.dump]
    writes them, a diff, the missing tests. *)
Definition files_text : string :=
  "[{" +:+ dq +:+ "filename" +:+ dq +:+ ": " +:+ dq +:+ "a.txt" +:+ dq +:+ ", "
  +:+ dq +:+ "additions" +:+ dq +:+ ": 2, "
  +:+ dq +:+ "deletions" +:+ dq +:+ ": 1}, {"
  +:+ dq +:+ "filename" +:+ dq +:+ ": " +:+ dq +:+ "b.txt" +:+ dq +:+ ", "
  +:+ dq +:+ "additions" +:+ dq +:+ ": 0, "
  +:+ dq +:+ "deletions" +:+ dq +:+ ": 0}]".

Definition files_json : pyval :=
  VList [ VDict [("filename", VStr "a.txt"); ("additions", VInt 2);
                 ("deletions", VInt 1)];
          VDict [("filename", VStr "b.txt"); ("additions", VInt 0);
                 ("deletions", VInt 0)] ].

Definition prompt_table (s : string) : option pyval :=
  if bool_decide (s = files_text) then Some files_json else json_table s.

Definition prompt_lib : PyLib := {|
  str_strip := ascii_strip;
  str_lower := ascii_lower;
  int_of_str := dec_int;
  json_loads := prompt_table;
  py_str := scalar_str
|}.

Definition disk (path : string) : option string :=
  if bool_decide (path = "tmp_files.json") then Some files_text
  else if bool_decide (path = "missing.txt")
  then Some ("foo" +:+ nl +:+ "bar" +:+ nl)
  else if bool_decide (path = "diff.patch")
  then Some ("diff --git a/b" +:+ nl)
  else None.

Definition on_disk (path : string) : bool :=
  match disk path with Some _ => true | None => false end.

(** [splitlines] of a text whose only line ends are newlines. *)
Fixpoint lines_from (s cur : string) : list string :=
  match s with
  | EmptyString => if bool_decide (cur = "") then [] else [cur]
  | String c s' =>
      if (nat_of_ascii c =? 10)%nat then cur :: lines_from s' ""
      else lines_from s' (cur +:+ String c EmptyString)
  end.

Definition newline_lines (s : string) : list string := lines_from s "".

Definition prompt_args : list string :=
  [ "prompt_builder.py"; "prompt.txt"; "octo/repo"; "7"; "Fix it"; "Body"; "";
    "tmp_files.json"; "diff.patch"; "Run the tests."; "missing.txt" ].

Definition prompt_text : string :=
  String.concat nl
    (prompt_builder.instructions "octo/repo" "7" "Fix it" "Body" ""
     ++ [""; "## Changed Files"; "- a.txt (+2/-1)"; "- b.txt (+0/-0)"]
     ++ [""; "## Diff"; "diff --git a/b" +:+ nl]
     ++ ["Run the tests."]
     ++ [""; "## Possible missing tests"; "- foo"; "- bar"]).

(** * Properties *)

Section Properties.

Context {lib : PyLib}.

(** ** Dicts *)

Lemma dict_lookup_set_eq k v d : dict_lookup k (dict_set k v d) = Some v.
Proof.
  induction d as [|[k' v'] d IH]; simpl.
  - by rewrite decide_True.
  - destruct (decide (k' = k)) as [->|Hne]; simpl.
    + by rewrite decide_True.
    + by rewrite decide_False.
Qed.

Lemma dict_lookup_set_ne k k' v d :
  k' ≠ k → dict_lookup k' (dict_set k v d) = dict_lookup k' d.
Proof.
  intros Hne. induction d as [|[k0 v0] d IH]; simpl.
  - by rewrite decide_False.
  - destruct (decide (k0 = k)) as [->|Hk0]; simpl.
    + by rewrite !decide_False.
    + destruct (decide (k0 = k')); [done | apply IH].
Qed.

Lemma dict_get_set_ne k k' v d :
  k' ≠ k → dict_get k' (dict_set k v d) = dict_get k' d.
Proof. intros. unfold dict_get. by rewrite dict_lookup_set_ne. Qed.

Lemma dict_get_set_eq k v d : dict_get k (dict_set k v d) = v.
Proof. unfold dict_get. by rewrite dict_lookup_set_eq. Qed.

(** ** The comment dict [by_key] *)

Lemma bk_lookup_None k bk : bk_lookup k bk = None ↔ k ∉ bk.*1.
Proof.
  induction bk as [|[k' e'] bk IH]; simpl.
  - split; [intros _; apply not_elem_of_nil | done].
  - rewrite not_elem_of_cons. destruct (decide (k' = k)) as [->|Hne].
    + split; [done | intros [? _]; done].
    + rewrite IH. split; [intros; split; [congruence | done] | tauto].
Qed.

Lemma bk_lookup_Some_keys k e bk : bk_lookup k bk = Some e → k ∈ bk.*1.
Proof.
  intros Hl. destruct (decide (k ∈ bk.*1)) as [|Hn]; [done|].
  apply bk_lookup_None in Hn. congruence.
Qed.

Lemma bk_put_keys k e bk : k ∈ bk.*1 → (bk_put k e bk).*1 = bk.*1.
Proof.
  induction bk as [|[k' e'] bk IH]; simpl.
  - intros H. by apply elem_of_nil in H.
  - intros Hin. destruct (decide (k' = k)) as [->|Hne]; simpl; [done|].
    f_equal. apply IH. apply elem_of_cons in Hin as [->|]; done.
Qed.

Lemma bk_lookup_put_eq k e bk : bk_lookup k (bk_put k e bk) = Some e.
Proof.
  induction bk as [|[k' e'] bk IH]; simpl.
  - by rewrite decide_True.
  - destruct (decide (k' = k)) as [->|Hne]; simpl.
    + by rewrite decide_True.
    + by rewrite decide_False.
Qed.

Lemma bk_lookup_put_ne k k' e bk :
  k' ≠ k → bk_lookup k' (bk_put k e bk) = bk_lookup k' bk.
Proof.
  intros Hne. induction bk as [|[k0 e0] bk IH]; simpl.
  - by rewrite decide_False.
  - destruct (decide (k0 = k)) as [->|Hk0]; simpl.
    + by rewrite !decide_False.
    + destruct (decide (k0 = k')); [done | apply IH].
Qed.

Lemma bk_lookup_app k bk bk' :
  bk_lookup k (bk ++ bk') =
  match bk_lookup k bk with Some e => Some e | None => bk_lookup k bk' end.
Proof.
  induction bk as [|[k0 e0] bk IH]; simpl; [done|].
  destruct (decide (k0 = k)); [done | apply IH].
Qed.

Lemma setdefault_spec k dflt bk bk1 e :
  setdefault k dflt bk = (bk1, e) →
  bk_lookup k bk1 = Some e
  ∧ ((bk_lookup k bk = Some e ∧ bk1 = bk)
     ∨ (bk_lookup k bk = None ∧ bk1 = bk ++ [(k, dflt)] ∧ e = dflt)).
Proof.
  unfold setdefault. destruct (bk_lookup k bk) as [e0|] eqn:Hl;
    intros [= <- <-].
  - split; [done | by left].
  - split; [| by right].
    rewrite bk_lookup_app, Hl. simpl. by rewrite decide_True.
Qed.

(** ** Inversion of the monad *)

Lemma bind_inv {A B} (m : M A) (k : A → M B) h h' r :
  bind m k h = (h', r) →
  (∃ e, m h = (h', Raise e) ∧ r = Raise e)
  ∨ (∃ h1 a, m h = (h1, Ok a) ∧ k a h1 = (h', r)).
Proof.
  unfold bind. destruct (m h) as [h1 [a|e]]; intros Heq.
  - right. eauto.
  - left. injection Heq as <- <-. eauto.
Qed.

Lemma bind_ok_inv {A B} (m : M A) (k : A → M B) h h' b :
  bind m k h = (h', Ok b) →
  ∃ h1 a, m h = (h1, Ok a) ∧ k a h1 = (h', Ok b).
Proof.
  intros Hb. apply bind_inv in Hb as [(e & _ & [=])|Hb]. exact Hb.
Qed.

Lemma rbind_ok_inv {A B} (r : result A) (k : A → result B) b :
  rbind r k = Ok b → ∃ a, r = Ok a ∧ k a = Ok b.
Proof. destruct r; simpl; [eauto | done]. Qed.

Lemma lift_inv {A} (r : result A) h h' r' :
  lift r h = (h', r') → h' = h ∧ r = r'.
Proof. by intros [= <- <-]. Qed.

Lemma read_inv l h h' r :
  read l h = (h', r) → h' = h ∧ r = Ok (deref h l).
Proof. by intros [= <- <-]. Qed.

Lemma ret_inv {A} (a : A) h h' r : ret a h = (h', r) → h' = h ∧ r = Ok a.
Proof. by intros [= <- <-]. Qed.

(** ** Records up to a normalized suggestion *)

Lemma placeholder_truthy : truthy (VStr placeholder) = true.
Proof. reflexivity. Qed.

Lemma py_strip_ok v s : py_strip v = Ok s → ∃ t, v = VStr t ∧ s = str_strip t.
Proof. destruct v; simpl; intros [=]. eauto. Qed.

Lemma normal_suggestion_str d s :
  normal_suggestion d = Ok s → ∃ t, s = VStr t.
Proof.
  unfold normal_suggestion. intros Hn.
  apply rbind_ok_inv in Hn as (st & Hst & [= <-]).
  apply py_strip_ok in Hst as (t & Ht & _). case_bool_decide; eauto.
Qed.

Lemma normal_suggestion_idem d d' s :
  normal_suggestion d = Ok s → dict_lookup "suggestion" d' = Some s →
  normal_suggestion d' = Ok s.
Proof.
  unfold normal_suggestion, dict_get. intros Hn ->. simpl.
  apply rbind_ok_inv in Hn as (st & Hst & [= <-]).
  apply py_strip_ok in Hst as (t & Ht & ->). rewrite Ht.
  case_bool_decide as Hb.
  - unfold py_or. rewrite placeholder_truthy. simpl. by case_bool_decide.
  - unfold py_or at 1 2. destruct (truthy (VStr t)) eqn:Htr; simpl.
    + by rewrite bool_decide_false.
    + unfold truthy in Htr. apply negb_false_iff, bool_decide_eq_true in Htr.
      subst t. by rewrite bool_decide_false.
Qed.

Lemma same_record_refl v : same_record v v.
Proof. by left. Qed.

Lemma same_record_trans v1 v2 v3 :
  same_record v1 v2 → same_record v2 v3 → same_record v1 v3.
Proof.
  intros [->|(d & d' & s & -> & -> & Hk & Hn & Hs)]; [done|].
  intros [->|(d0 & d'' & s' & [= <-] & -> & Hk' & Hn' & Hs')].
  - right. exists d, d', s. eauto.
  - right. exists d, d'', s. split_and!; try done.
    + intros k Hne. by rewrite Hk', Hk.
    + rewrite (normal_suggestion_idem _ _ _ Hn Hs) in Hn'. congruence.
Qed.

Lemma same_heap_refl h : same_heap h h.
Proof. split; [done | intros; apply same_record_refl]. Qed.

Lemma same_heap_trans h1 h2 h3 :
  same_heap h1 h2 → same_heap h2 h3 → same_heap h1 h3.
Proof.
  intros [Hl1 H1] [Hl2 H2]. split; [congruence|].
  intros l. eapply same_record_trans; eauto.
Qed.

Lemma deref_dict h l d : deref h l = VDict d → h !! l = Some (VDict d).
Proof. unfold deref. destruct (h !! l); simpl; [congruence | done]. Qed.

Lemma deref_insert_eq h l v : h !! l ≠ None → deref (<[l := v]> h) l = v.
Proof.
  intros Hl. unfold deref. rewrite list_lookup_insert_eq; [done|].
  apply lookup_lt_is_Some. by destruct (h !! l).
Qed.

Lemma deref_insert_ne h l l' v : l ≠ l' → deref (<[l := v]> h) l' = deref h l'.
Proof. intros. unfold deref. by rewrite list_lookup_insert_ne. Qed.

Lemma same_heap_normalize h f d s :
  deref h f = VDict d → normal_suggestion d = Ok s →
  same_heap h (<[f := VDict (dict_set "suggestion" s d)]> h).
Proof.
  intros Hd Hn. split; [apply length_insert|]. intros l.
  destruct (decide (f = l)) as [<-|Hne].
  - rewrite deref_insert_eq by (apply deref_dict in Hd; congruence).
    right. exists d, (dict_set "suggestion" s d), s. rewrite Hd.
    split_and!; try done.
    + intros k Hk. by apply dict_lookup_set_ne.
    + apply dict_lookup_set_eq.
  - rewrite deref_insert_ne by done. apply same_record_refl.
Qed.

Lemma same_record_get v v' d d' k :
  same_record v v' → v = VDict d → v' = VDict d' → k ≠ "suggestion" →
  dict_lookup k d' = dict_lookup k d.
Proof.
  intros [->|(d0 & d0' & s & -> & -> & Hk & _)] E1 E2 Hne.
  - congruence.
  - injection E1 as <-. injection E2 as <-. by apply Hk.
Qed.

Lemma same_record_dict v v' d :
  same_record v v' → v = VDict d → ∃ d', v' = VDict d'.
Proof.
  intros [->|(d0 & d0' & s & -> & -> & _)] E; eauto.
Qed.

Lemma same_record_not_dict v v' :
  same_record v v' → (∀ d, v ≠ VDict d) → v' = v.
Proof.
  intros [->|(d0 & d0' & s & -> & -> & _)] E; [done|]. by destruct (E d0).
Qed.

(** The filters read no suggestion. *)
Lemma key_for_same v v' : same_record v v' → key_for v' = key_for v.
Proof.
  intros Hs. destruct v as [| | | | |d];
    try (rewrite (same_record_not_dict _ _ Hs); done).
  destruct (same_record_dict _ _ _ Hs eq_refl) as [d' ->].
  unfold key_for, dict_get, dict_get_or; simpl.
  by rewrite !(same_record_get _ _ d d' _ Hs eq_refl eq_refl).
Qed.

Lemma screen_same mr cf v v' :
  same_record v v' → screen mr cf v' = screen mr cf v.
Proof.
  intros Hs. unfold screen. rewrite (key_for_same _ _ Hs).
  destruct v as [| | | | |d];
    try (rewrite (same_record_not_dict _ _ Hs); done).
  destruct (same_record_dict _ _ _ Hs eq_refl) as [d' ->].
  unfold dict_get; simpl.
  by rewrite !(same_record_get _ _ d d' _ Hs eq_refl eq_refl).
Qed.

(** ** One iteration of the loop *)

Lemma set_item_inv l k v h h' r :
  set_item l k v h = (h', r) →
  (h' = h ∧ r = Raise TypeError ∧ ∀ d, h !! l ≠ Some (VDict d))
  ∨ (∃ d, h !! l = Some (VDict d)
        ∧ h' = <[l := VDict (dict_set k v d)]> h ∧ r = Ok tt).
Proof.
  unfold set_item. destruct (h !! l) as [[| | | | |d]|];
    intros [= <- <-]; try (left; split_and!; [done..|congruence]).
  right. eauto.
Qed.

Section Step.

Variable min_rank : Z.
Variable changed_files : gset string.

Lemma merge_tail (bk1 : by_key_t) f k (e1 : entry) d h h' bk' :
  deref h f = VDict d →
  (let* fv' := read f in
   let* d' := lift (as_dict fv') in
   let provider := dict_get "provider" d' in
   if truthy provider
   then let* p := lift (py_hash provider) in
        ret (bk_put k {| providers := {[p]} ∪ providers e1;
                         finding := finding e1;
                         max_sev := max_sev e1 |} bk1)
   else ret (bk_put k e1 bk1)) h = (h', Ok bk') →
  h' = h
  ∧ ((truthy (dict_get "provider" d) = true
      ∧ ∃ p, py_hash (dict_get "provider" d) = Ok p
          ∧ bk' = bk_put k {| providers := {[p]} ∪ providers e1;
                              finding := finding e1;
                              max_sev := max_sev e1 |} bk1)
     ∨ (truthy (dict_get "provider" d) = false ∧ bk' = bk_put k e1 bk1)).
Proof.
  intros Hd Hm.
  apply bind_ok_inv in Hm as (h1 & fv' & Hr & Hm).
  apply read_inv in Hr as [-> [= ->]]. rewrite Hd in Hm.
  apply bind_ok_inv in Hm as (h2 & d' & Hl & Hm).
  apply lift_inv in Hl as [-> [= <-]]. cbv zeta in Hm.
  destruct (truthy (dict_get "provider" d)) eqn:Htr.
  - apply bind_ok_inv in Hm as (h3 & p & Hl & Hm).
    apply lift_inv in Hl as [-> Hp]. apply ret_inv in Hm as [-> [= ->]].
    split; [done|]. left. eauto.
  - apply ret_inv in Hm as [-> [= ->]]. split; [done|]. by right.
Qed.

Lemma merge_inv bk f k severity h h' bk' :
  merge bk f k severity h = (h', Ok bk') → merged bk f k severity h h' bk'.
Proof.
  unfold merge. intros Hm.
  apply bind_ok_inv in Hm as (h1 & fv & Hr & Hm).
  apply read_inv in Hr as [-> [= ->]].
  apply bind_ok_inv in Hm as (h1 & d & Hl & Hm).
  apply lift_inv in Hl as [-> Hd].
  assert (deref h f = VDict d) as Hfd.
  { destruct (deref h f); simpl in Hd; congruence. }
  apply bind_ok_inv in Hm as (h1 & s & Hl & Hm).
  apply lift_inv in Hl as [-> Hs].
  destruct (setdefault k _ bk) as [bk1 e] eqn:Hsd.
  apply bind_ok_inv in Hm as (h1 & e1 & He1 & Hm).
  exists d, s, bk1, e, e1.
  destruct (rank (max_sev e) <? rank severity) eqn:Hlt.
  - apply bind_ok_inv in He1 as (h2 & [] & Hset & He1).
    apply ret_inv in He1 as [-> [= <-]].
    apply set_item_inv in Hset as [(_ & [=] & _)|(d0 & Hd0 & -> & _)].
    rewrite (deref_dict _ _ _ Hfd) in Hd0. injection Hd0 as <-.
    eapply merge_tail in Hm as [-> Hm].
    2:{ apply deref_insert_eq. apply deref_dict in Hfd. congruence. }
    rewrite dict_get_set_ne in Hm by done.
    split_and!; try done. left. split_and!; try done. by apply Z.ltb_lt.
  - apply ret_inv in He1 as [-> [= <-]].
    eapply merge_tail in Hm as [-> Hm]; [|done].
    split_and!; try done. right. split_and!; try done. by apply Z.ltb_ge.
Qed.

Lemma visit_inv bk f h h' bk' :
  visit min_rank changed_files bk f h = (h', Ok bk') →
  (screen min_rank changed_files (deref h f) = Ok None ∧ h' = h ∧ bk' = bk)
  ∨ (∃ k severity,
       screen min_rank changed_files (deref h f) = Ok (Some (k, severity))
       ∧ merged bk f k severity h h' bk').
Proof.
  unfold visit. intros Hv.
  apply bind_ok_inv in Hv as (h1 & fv & Hr & Hv).
  apply read_inv in Hr as [-> [= ->]].
  apply bind_ok_inv in Hv as (h1 & r & Hl & Hv).
  apply lift_inv in Hl as [-> Hsc]. destruct r as [[k severity]|].
  - right. exists k, severity. split; [done|]. by apply merge_inv.
  - apply ret_inv in Hv as [-> [= ->]]. by left.
Qed.

(** Whatever the outcome, an iteration only normalizes a suggestion. *)
Lemma provider_step_frame f (k1 : hkey → by_key_t) (k2 : by_key_t) h h' r :
  (let* fv' := read f in
   let* d' := lift (as_dict fv') in
   let provider := dict_get "provider" d' in
   if truthy provider
   then let* p := lift (py_hash provider) in ret (k1 p)
   else ret k2) h = (h', r) → h' = h.
Proof.
  intros Hm.
  apply bind_inv in Hm as [(e0 & [=] & _)|(h2 & fv' & Hr & Hm)].
  apply read_inv in Hr as [-> [= ->]].
  apply bind_inv in Hm as [(e0 & [= <- _] & _)|(h2 & d' & Hl & Hm)]; [done|].
  apply lift_inv in Hl as [-> _]. cbv zeta in Hm. destruct (truthy _).
  - apply bind_inv in Hm as [(e0 & [= <- _] & _)|(h2 & p & Hl & Hm)]; [done|].
    apply lift_inv in Hl as [-> _]. by apply ret_inv in Hm as [-> _].
  - by apply ret_inv in Hm as [-> _].
Qed.

Lemma merge_frame bk f k severity h h' r :
  merge bk f k severity h = (h', r) → same_heap h h'.
Proof.
  unfold merge. intros Hm.
  apply bind_inv in Hm as [(e & [=] & _)|(h1 & fv & Hr & Hm)].
  apply read_inv in Hr as [-> [= ->]].
  apply bind_inv in Hm as [(e & [= <- _] & _)|(h1 & d & Hl & Hm)];
    [apply same_heap_refl|].
  apply lift_inv in Hl as [-> Hd].
  assert (deref h f = VDict d) as Hfd.
  { destruct (deref h f); simpl in Hd; congruence. }
  apply bind_inv in Hm as [(e & [= <- _] & _)|(h1 & s & Hl & Hm)];
    [apply same_heap_refl|].
  apply lift_inv in Hl as [-> Hs].
  destruct (setdefault k _ bk) as [bk1 e] eqn:Hsd.
  apply bind_inv in Hm as [(e0 & He1 & _)|(h2 & e1 & He1 & Hm)].
  - destruct (rank (max_sev e) <? rank severity).
    + apply bind_inv in He1 as [(e2 & Hset & _)|(h2 & [] & Hset & He1)].
      * apply set_item_inv in Hset as [(-> & _)|(d0 & _ & _ & [=])].
        apply same_heap_refl.
      * by apply ret_inv in He1 as [_ [=]].
    + by apply ret_inv in He1 as [_ [=]].
  - apply provider_step_frame in Hm as ->.
    destruct (rank (max_sev e) <? rank severity).
    + apply bind_inv in He1 as [(e2 & _ & [=])|(h3 & [] & Hset & He1)].
      apply ret_inv in He1 as [-> _].
      apply set_item_inv in Hset as [(-> & _)|(d0 & Hd0 & -> & _)];
        [apply same_heap_refl|].
      rewrite (deref_dict _ _ _ Hfd) in Hd0. injection Hd0 as <-.
      by apply same_heap_normalize.
    + apply ret_inv in He1 as [-> _]. apply same_heap_refl.
Qed.

Lemma visit_frame bk f h h' r :
  visit min_rank changed_files bk f h = (h', r) → same_heap h h'.
Proof.
  unfold visit. intros Hv.
  apply bind_inv in Hv as [(e & [=] & _)|(h1 & fv & Hr & Hv)].
  apply read_inv in Hr as [-> [= ->]].
  apply bind_inv in Hv as [(e & [= <- _] & _)|(h1 & r0 & Hl & Hv)];
    [apply same_heap_refl|].
  apply lift_inv in Hl as [-> Hsc]. destruct r0 as [[k severity]|].
  - by eapply merge_frame.
  - apply ret_inv in Hv as [-> _]. apply same_heap_refl.
Qed.

Lemma fold_frame fs bk h h' r :
  foldM (visit min_rank changed_files) fs bk h = (h', r) → same_heap h h'.
Proof.
  revert bk h. induction fs as [|f fs IH]; intros bk h; simpl.
  - intros Hr. apply ret_inv in Hr as [-> _]. apply same_heap_refl.
  - intros Hb. apply bind_inv in Hb as [(e & Hv & _)|(h1 & bk1 & Hv & Hf)].
    + by eapply visit_frame.
    + eapply same_heap_trans; [by eapply visit_frame | by eapply IH].
Qed.

(** *** What an accepted finding does to [by_key] *)

Lemma merged_keys bk f k severity h h' bk' :
  merged bk f k severity h h' bk' →
  bk'.*1 = if bool_decide (k ∈ bk.*1) then bk.*1 else bk.*1 ++ [k].
Proof.
  intros (d & s & bk1 & e & e1 & _ & _ & Hsd & _ & Hp).
  apply setdefault_spec in Hsd as [Hl1 Hsd].
  assert (bk'.*1 = bk1.*1) as ->.
  { destruct Hp as [(_ & p & _ & ->)|(_ & ->)];
      by apply bk_put_keys, (bk_lookup_Some_keys _ e). }
  destruct Hsd as [(Hl & ->)|(Hl & -> & _)].
  - rewrite bool_decide_true; [done|]. by eapply bk_lookup_Some_keys.
  - rewrite bool_decide_false by (by apply bk_lookup_None).
    by rewrite fmap_app.
Qed.

Lemma merged_lookup_ne bk f k severity h h' bk' k' :
  merged bk f k severity h h' bk' → k' ≠ k →
  bk_lookup k' bk' = bk_lookup k' bk.
Proof.
  intros (d & s & bk1 & e & e1 & _ & _ & Hsd & _ & Hp) Hne.
  apply setdefault_spec in Hsd as [Hl1 Hsd].
  assert (bk_lookup k' bk' = bk_lookup k' bk1) as ->.
  { destruct Hp as [(_ & p & _ & ->)|(_ & ->)]; by apply bk_lookup_put_ne. }
  destruct Hsd as [(Hl & ->)|(Hl & -> & _)]; [done|].
  rewrite bk_lookup_app. destruct (bk_lookup k' bk); [done|].
  simpl. by rewrite decide_False.
Qed.

Lemma merged_lookup_eq bk f k severity h h' bk' :
  merged bk f k severity h h' bk' →
  ∃ d e', deref h f = VDict d ∧ bk_lookup k bk' = Some e'
    ∧ providers e' =
        (if truthy (dict_get "provider" d)
         then match py_hash (dict_get "provider" d) with
              | Ok p => {[p]}
              | Raise _ => ∅
              end
         else ∅) ∪ providers (entry_before bk f k severity)
    ∧ (rank (max_sev (entry_before bk f k severity)) < rank severity →
       finding e' = f ∧ max_sev e' = severity)
    ∧ (rank severity ≤ rank (max_sev (entry_before bk f k severity)) →
       finding e' = finding (entry_before bk f k severity)
       ∧ max_sev e' = max_sev (entry_before bk f k severity)).
Proof.
  intros (d & s & bk1 & e & e1 & Hd & _ & Hsd & He1 & Hp).
  apply setdefault_spec in Hsd as [Hl1 Hsd].
  assert (entry_before bk f k severity = e) as ->.
  { unfold entry_before.
    destruct Hsd as [(-> & _)|(-> & _ & ->)]; done. }
  exists d. destruct Hp as [(Htr & p & Hh & ->)|(Htr & ->)];
    rewrite bk_lookup_put_eq, Htr; eexists; (split; [done|]);
    (split; [done|]); try rewrite Hh; simpl.
  - destruct He1 as [(Hlt & _ & ->)|(Hle & _ & ->)]; simpl;
      split_and!; try done; lia.
  - destruct He1 as [(Hlt & _ & ->)|(Hle & _ & ->)]; simpl;
      split_and!; try done; try lia. all: by rewrite (left_id_L ∅ (∪)).
Qed.

(** ** The whole loop *)

Lemma screen_rank v k severity :
  screen min_rank changed_files v = Ok (Some (k, severity)) →
  min_rank ≤ rank severity.
Proof.
  unfold screen. intros Hs.
  apply rbind_ok_inv in Hs as ([[file line] msg] & _ & Hs).
  destruct (no_key _); [done|]. destruct (_ && _); [done|].
  apply rbind_ok_inv in Hs as (d & _ & Hs).
  apply rbind_ok_inv in Hs as (sev & _ & Hs).
  destruct (rank sev <? min_rank) eqn:Hlt; [done|].
  injection Hs as _ <-. by apply Z.ltb_ge.
Qed.

Lemma accepted_keys_same h h' fs :
  same_heap h h' →
  accepted_keys min_rank changed_files h' fs
  = accepted_keys min_rank changed_files h fs.
Proof.
  intros [_ Hs]. induction fs as [|f fs IH]; simpl; [done|].
  by rewrite (screen_same _ _ _ _ (Hs f)), IH.
Qed.

Lemma backs_same h h' f k p :
  same_heap h h' →
  backs min_rank changed_files h' f k p ↔ backs min_rank changed_files h f k p.
Proof.
  intros [_ Hs]. specialize (Hs f). unfold backs.
  rewrite (screen_same _ _ _ _ Hs). split.
  - intros (sev & d' & Hsc & Hd' & Htr & Hp). exists sev.
    destruct Hs as [Heq|(d & d0 & s & Hd & Hd0 & Hk & _)].
    + exists d'. rewrite Heq in Hd'. done.
    + exists d. rewrite Hd' in Hd0. injection Hd0 as <-.
      unfold dict_get in *. rewrite Hk in Htr, Hp by done. done.
  - intros (sev & d & Hsc & Hd & Htr & Hp). exists sev.
    destruct (same_record_dict _ _ _ Hs Hd) as [d' Hd'].
    exists d'. unfold dict_get in *.
    rewrite (same_record_get _ _ d d' "provider" Hs Hd Hd') by done. done.
Qed.

Lemma fold_keys fs bk h h' bk' :
  foldM (visit min_rank changed_files) fs bk h = (h', Ok bk') →
  bk'.*1 = first_seen (accepted_keys min_rank changed_files h fs) bk.*1.
Proof.
  revert bk h. induction fs as [|f fs IH]; intros bk h; simpl.
  - intros Hr. by apply ret_inv in Hr as [_ [= ->]].
  - intros Hb. apply bind_ok_inv in Hb as (h1 & bk1 & Hv & Hf).
    apply IH in Hf. rewrite Hf.
    rewrite (accepted_keys_same h h1) by (by eapply visit_frame).
    apply visit_inv in Hv as [(-> & _ & ->)|(k & sev & -> & Hm)]; [done|].
    simpl. by rewrite (merged_keys _ _ _ _ _ _ _ Hm).
Qed.

Lemma first_seen_elem ks acc k :
  k ∈ first_seen ks acc → k ∈ acc ∨ k ∈ ks.
Proof.
  revert acc. induction ks as [|k0 ks IH]; intros acc; simpl; [by left|].
  intros [Hin|Hin]%IH.
  - case_bool_decide; [by left|].
    apply elem_of_app in Hin as [? | ->%list_elem_of_singleton]; [by left|].
    right. apply list_elem_of_here.
  - right. by apply list_elem_of_further.
Qed.

Lemma first_seen_subseteq ks : first_seen ks [] ⊆ ks.
Proof.
  intros k [Hin|Hin]%first_seen_elem; [|done]. by apply elem_of_nil in Hin.
Qed.

Lemma first_seen_NoDup ks acc : NoDup acc → NoDup (first_seen ks acc).
Proof.
  revert acc. induction ks as [|k ks IH]; intros acc Hnd; simpl; [done|].
  apply IH. case_bool_decide; [done|].
  apply NoDup_app. split_and!; [done | | apply NoDup_singleton].
  intros x Hx ->%list_elem_of_singleton. done.
Qed.

(** The providers of an entry are exactly those of the findings that back
    its key. *)
Lemma fold_providers fs bk h h' bk' k e' p :
  foldM (visit min_rank changed_files) fs bk h = (h', Ok bk') →
  bk_lookup k bk' = Some e' →
  p ∈ providers e' ↔
    (∃ e, bk_lookup k bk = Some e ∧ p ∈ providers e)
    ∨ (∃ f, f ∈ fs ∧ backs min_rank changed_files h f k p).
Proof.
  revert bk h. induction fs as [|f fs IH]; intros bk h; simpl.
  - intros Hr Hl. apply ret_inv in Hr as [_ [= ->]]. split.
    + intros Hp. left. eauto.
    + intros [(e & He & Hp)|(f & Hf & _)]; [congruence|].
      by apply elem_of_nil in Hf.
  - intros Hb Hl. apply bind_ok_inv in Hb as (h1 & bk1 & Hv & Hf).
    rewrite (IH _ _ Hf Hl). clear IH.
    assert (same_heap h h1) as Hsh by (by eapply visit_frame).
    setoid_rewrite (backs_same h h1 _ _ _ Hsh).
    setoid_rewrite elem_of_cons.
    apply visit_inv in Hv as [(Hsc & _ & ->)|(k0 & sev & Hsc & Hm)].
    { split; [intros [?|(f0 & ? & ?)]; eauto|].
      intros [?|(f0 & [->|?] & Hb)]; [eauto | | eauto].
      destruct Hb as (? & ? & Hsc' & _). congruence. }
    destruct (decide (k = k0)) as [->|Hne].
    + destruct (merged_lookup_eq _ _ _ _ _ _ _ Hm)
        as (d & e1 & Hd & Hl1 & Hp1 & _).
      assert (∀ q, q ∈ providers e1 ↔
                (∃ e, bk_lookup k0 bk = Some e ∧ q ∈ providers e)
                ∨ backs min_rank changed_files h f k0 q) as Hchar.
      { intros q. rewrite Hp1, elem_of_union. unfold entry_before, backs.
        rewrite Hsc, Hd. split.
        - intros [Hq|Hq].
          + right. destruct (truthy _) eqn:Htr;
              [|by destruct (not_elem_of_empty (C:=gset hkey) q)].
            destruct (py_hash _) eqn:Hh;
              [|by destruct (not_elem_of_empty (C:=gset hkey) q)].
            apply elem_of_singleton in Hq as ->. eauto 10.
          + left. destruct (bk_lookup k0 bk); [eauto|].
            by destruct (not_elem_of_empty (C:=gset hkey) q).
        - intros [(e & -> & Hq)|(sev' & d' & _ & [= <-] & Htr & Hh)].
          + by right.
          + left. rewrite Htr, Hh. by apply elem_of_singleton. }
      split.
      * intros [(e & He & Hp)|(f0 & Hf0 & Hb)]; [|eauto].
        rewrite Hl1 in He. injection He as <-.
        apply Hchar in Hp as [?|?]; eauto.
      * intros [(e & He & Hp)|(f0 & [->|Hf0] & Hb)]; [| |eauto].
        -- left. exists e1. split; [done|]. apply Hchar. eauto.
        -- left. exists e1. split; [done|]. apply Hchar. eauto.
    + rewrite (merged_lookup_ne _ _ _ _ _ _ _ _ Hm Hne). split.
      * intros [?|(f0 & ? & ?)]; eauto.
      * intros [?|(f0 & [->|?] & Hb)]; [eauto | | eauto].
        destruct Hb as (? & ? & Hsc' & _). congruence.
Qed.

(** Every entry was created and last replaced by a finding that passed the
    severity floor. *)
Lemma fold_ranks fs bk h h' bk' :
  foldM (visit min_rank changed_files) fs bk h = (h', Ok bk') →
  (∀ k e, bk_lookup k bk = Some e → min_rank ≤ rank (max_sev e)) →
  ∀ k e, bk_lookup k bk' = Some e → min_rank ≤ rank (max_sev e).
Proof.
  revert bk h. induction fs as [|f fs IH]; intros bk h; simpl.
  - intros Hr. by apply ret_inv in Hr as [_ [= ->]].
  - intros Hb Hbk. apply bind_ok_inv in Hb as (h1 & bk1 & Hv & Hf).
    apply (IH _ _ Hf). clear IH Hf. intros k e Hl.
    apply visit_inv in Hv as [(_ & _ & ->)|(k0 & sev & Hsc & Hm)]; [eauto|].
    apply screen_rank in Hsc.
    destruct (decide (k = k0)) as [->|Hne].
    + destruct (merged_lookup_eq _ _ _ _ _ _ _ Hm)
        as (d & e1 & _ & Hl1 & _ & Hgt & Hle).
      rewrite Hl in Hl1. injection Hl1 as <-.
      destruct (Z.lt_ge_cases (rank (max_sev (entry_before bk f k0 sev)))
                              (rank sev)) as [Hc|Hc].
      * destruct (Hgt Hc) as [_ ->]. done.
      * destruct (Hle Hc) as [_ ->]. lia.
    + rewrite (merged_lookup_ne _ _ _ _ _ _ _ _ Hm Hne) in Hl. eauto.
Qed.

End Step.

(** ** Rendering and truncation *)

Lemma render_all_emitted m h bk full :
  render_all m h bk = Ok full → emitted h (surviving m bk) full.
Proof.
  unfold emitted, surviving. revert full.
  induction bk as [|[k e] bk IH]; intros full; simpl.
  - intros [= <-]. constructor.
  - rewrite filter_cons. simpl. destruct (_ <? m) eqn:Hlt.
    + apply Z.ltb_lt in Hlt. rewrite decide_False by lia. apply IH.
    + apply Z.ltb_ge in Hlt. rewrite decide_True by lia. intros Hr.
      apply rbind_ok_inv in Hr as (c & Hc & Hr).
      apply rbind_ok_inv in Hr as (cs & Hcs & [= <-]).
      constructor; [done | by apply IH].
Qed.

Lemma render_path h k e c :
  render h k e = Ok c → path c = k.1.1 ∧ line c = k.1.2 ∧ side c = "RIGHT".
Proof.
  destruct k as [[file ln] msg]. unfold render. intros Hr.
  apply rbind_ok_inv in Hr as (d & _ & Hr).
  apply rbind_ok_inv in Hr as (sg & _ & Hr).
  apply rbind_ok_inv in Hr as (text & _ & [= <-]). done.
Qed.

Lemma slice_to_take {A} n (l : list A) :
  slice_to n l = take (keep n (length l)) l.
Proof.
  unfold slice_to, keep. destruct (0 <=? n); [|done].
  destruct (Nat.min_spec (Z.to_nat n) (length l)) as [[Hlt ->]|[Hle ->]];
    [done|].
  by rewrite !take_ge by lia.
Qed.

Lemma slice_to_length {A} n (l : list A) :
  0 ≤ n → Z.of_nat (length (slice_to n l)) ≤ n.
Proof.
  intros Hn. unfold slice_to. rewrite (proj2 (Z.leb_le 0 n) Hn).
  rewrite length_take. lia.
Qed.

(** ** The stages of a call *)

Lemma forM_tag_length ls h h' r : forM tag ls h = (h', r) → length h' = length h.
Proof.
  revert h. induction ls as [|l ls IH]; intros h; simpl.
  - intros Hr. by apply ret_inv in Hr as [-> _].
  - intros Hb.
    assert (∀ h0 h1 r0, tag l h0 = (h1, r0) → length h1 = length h0) as Ht.
    { unfold tag. intros h0 h1 r0 Ht.
      apply bind_inv in Ht as [(e & [=] & _)|(h2 & fv & Hr & Ht)].
      apply read_inv in Hr as [-> _].
      apply bind_inv in Ht as [(e & [= <- _] & _)|(h2 & d & Hl & Ht)]; [done|].
      apply lift_inv in Hl as [-> _].
      apply set_item_inv in Ht as [(-> & _)|(d0 & _ & -> & _)]; [done|].
      apply length_insert. }
    apply bind_inv in Hb as [(e & Hb & _)|(h1 & [] & Hb & Hf)]; [eauto|].
    rewrite (IH _ Hf). eauto.
Qed.

(** The working list is the provider findings followed by the fresh
    objects of the structured block. *)
Lemma gather_inv pf sl h h1 fs :
  gather pf sl h = (h1, Ok fs) →
  ∃ items, load_struct_findings sl = VList items
    ∧ fs = pf ++ seq (length h) (length items)
    ∧ length h1 = (length h + length items)%nat.
Proof.
  unfold gather. intros Hg.
  apply bind_ok_inv in Hg as (h2 & items & Hl & Hg).
  apply lift_inv in Hl as [-> Hit].
  apply bind_ok_inv in Hg as (h2 & slocs & Ha & Hg).
  injection Ha as <- <-.
  apply bind_ok_inv in Hg as (h3 & [] & Ht & Hg).
  apply lift_inv in Hg as [-> Hc].
  apply forM_tag_length in Ht. rewrite length_app in Ht.
  destruct (load_struct_findings sl) as [| | | |l|]; try done.
  injection Hit as <-. injection Hc as <-. eauto.
Qed.

Lemma build_inv pf sl mc ms ma ps cf h h' out :
  build_inline_payload pf sl mc ms ma ps cf h = (h', Ok out) →
  ∃ n m h1 fs bk full,
    py_int mc = Ok n ∧ py_int ma = Ok m
    ∧ gather pf sl h = (h1, Ok fs)
    ∧ foldM (visit (min_rank_of ms) cf) fs [] h1 = (h', Ok bk)
    ∧ render_all (Z.max 1 m) h' bk = Ok full
    ∧ out = slice_to n full.
Proof.
  unfold build_inline_payload. intros Hb.
  apply bind_ok_inv in Hb as (h0 & n & Hl & Hb).
  apply lift_inv in Hl as [-> Hn].
  apply bind_ok_inv in Hb as (h0 & m & Hl & Hb).
  apply lift_inv in Hl as [-> Hm].
  apply bind_ok_inv in Hb as (h1 & fs & Hg & Hb).
  apply bind_ok_inv in Hb as (h2 & bk & Hf & Hb).
  apply bind_ok_inv in Hb as (h3 & full & Hr & Hb).
  injection Hr as <- Hr. apply ret_inv in Hb as [-> [= ->]].
  exists n, m, h1, fs, bk, full. done.
Qed.

Lemma append_assoc (s1 s2 s3 : string) :
  (s1 +:+ s2) +:+ s3 = s1 +:+ s2 +:+ s3.
Proof.
  induction s1 as [|c s1 IH]; [done|].
  change (String c ((s1 +:+ s2) +:+ s3) = String c (s1 +:+ s2 +:+ s3)).
  by rewrite IH.
Qed.

Lemma str_items_app ls1 ls2 ss :
  str_items (ls1 ++ ls2) = Ok ss →
  ∃ ss1 ss2, str_items ls1 = Ok ss1 ∧ str_items ls2 = Ok ss2
    ∧ ss = ss1 ++ ss2.
Proof.
  revert ss. induction ls1 as [|v ls1 IH]; intros ss; simpl.
  - intros Hs. exists [], ss. done.
  - destruct v; try done. intros Hs.
    apply rbind_ok_inv in Hs as (ss' & Hs & [= <-]).
    destruct (IH _ Hs) as (ss1 & ss2 & -> & H2 & ->). simpl. eauto.
Qed.

Lemma blank_normal d :
  blank (dict_get "suggestion" d) → normal_suggestion d = Ok (VStr placeholder).
Proof.
  unfold blank, normal_suggestion. by intros ->.
Qed.

(** What [render] puts in a body: the label and the head on the first
    line, the normalized suggestion in the fence at the end. *)
Lemma render_inv h k e c :
  render h k e = Ok c →
  ∃ d sg rest,
    deref h (finding e) = VDict d
    ∧ normal_suggestion d = Ok (VStr sg)
    ∧ fenced sg c
    ∧ body c = "**"
        +:+ fmt (py_or (py_or (VStr (max_sev e)) (dict_get "severity" d))
                       (VStr "issue"))
        +:+ "**: " +:+ rest.
Proof.
  destruct k as [[file ln] msg]. unfold render. intros Hr.
  apply rbind_ok_inv in Hr as (d & Hd & Hr).
  assert (deref h (finding e) = VDict d) as Hfd.
  { destruct (deref h (finding e)); simpl in Hd; congruence. }
  apply rbind_ok_inv in Hr as (sg & Hsg & Hr).
  apply rbind_ok_inv in Hr as (text & Hj & [= <-]).
  destruct (normal_suggestion_str _ _ Hsg) as [t ->].
  exists d, t. unfold fenced. simpl.
  unfold join_lines in Hj. apply rbind_ok_inv in Hj as (ss & Hss & [= <-]).
  apply str_items_app in Hss as (ss1 & ss2 & Hs1 & Hs2 & ->).
  injection Hs2 as <-.
  set (label := fmt (py_or (py_or (VStr (max_sev e)) (dict_get "severity" d))
                           (VStr "issue"))).
  set (hd := fmt (py_or (py_or (dict_get "title" d) (dict_get "message" d))
                        (VStr msg))).
  set (fence := "```suggestion" +:+ nl +:+ t +:+ nl +:+ "```").
  destruct (truthy _ && differs _ _).
  - destruct (py_or (dict_get "message" d) (VStr "")) as [| | |dt| |];
      try done.
    injection Hs1 as <-.
    exists (hd +:+ nl +:+ dt +:+ nl +:+ fence). split_and!; try done.
    + exists (("**" +:+ label +:+ "**: " +:+ hd) +:+ nl +:+ dt).
      simpl. rewrite !append_assoc. reflexivity.
    + simpl. rewrite !append_assoc. reflexivity.
  - injection Hs1 as <-.
    exists (hd +:+ nl +:+ fence). split_and!; try done.
    + exists ("**" +:+ label +:+ "**: " +:+ hd).
      simpl. rewrite !append_assoc. reflexivity.
    + simpl. rewrite !append_assoc. reflexivity.
Qed.

Lemma Forall2_refine {A B} (P : A → Prop) (R Q : A → B → Prop) l k :
  Forall P l → Forall2 R l k → (∀ a b, P a → R a b → Q a b) → Forall2 Q l k.
Proof.
  intros HP HR Himp. induction HR as [|a b l k Hab HR IH]; [constructor|].
  apply Forall_cons in HP as [Ha HP]. constructor; eauto.
Qed.

Lemma rank_named s :
  1 ≤ rank s → s = "critical" ∨ s = "major" ∨ s = "minor".
Proof.
  unfold rank, severity_order. repeat case_decide; simpl; auto. lia.
Qed.

Lemma bk_lookup_NoDup (bk : by_key_t) k e :
  NoDup bk.*1 → (k, e) ∈ bk → bk_lookup k bk = Some e.
Proof.
  induction bk as [|[k' e'] bk IH]; simpl.
  - intros _ Hin. by apply elem_of_nil in Hin.
  - intros [Hni Hnd]%NoDup_cons [[= -> ->]|Hin]%elem_of_cons.
    + by rewrite decide_True.
    + rewrite decide_False; [by apply IH|].
      intros ->. apply Hni. apply list_elem_of_fmap. by exists (k, e).
Qed.

(** ** The claims *)

(** C5 (cap respected).  When [max_comments] coerces to a positive integer
    [n], a call that returns gives at most [n] comments. *)
Theorem cap_respected pf sl mc ms ma ps cf h h' out n :
  build_inline_payload pf sl mc ms ma ps cf h = (h', Ok out) →
  py_int mc = Ok n → 0 < n →
  Z.of_nat (length out) ≤ n.
Proof.
  intros Hb Hn Hpos.
  apply build_inv in Hb as (n' & m & h1 & fs & bk & full & Hn' & _ & _ & _
                            & _ & ->).
  rewrite Hn in Hn'. injection Hn' as <-. apply slice_to_length. lia.
Qed.

(** C3 (dedup).  The comments of a call that returns are those of a
    sub-sequence of the entries of [by_key], one comment per entry; the keys
    (file, line, normalized message) of [by_key], which are keys that
    [key_for] gave to accepted findings, are pairwise distinct, and so are
    the keys of the emitted comments; each comment carries the file and line
    of its key. *)
Theorem emitted_keys_distinct pf sl mc ms ma ps cf h h' out :
  build_inline_payload pf sl mc ms ma ps cf h = (h', Ok out) →
  ∃ h1 fs bk sel,
    gather pf sl h = (h1, Ok fs)
    ∧ foldM (visit (min_rank_of ms) cf) fs [] h1 = (h', Ok bk)
    ∧ bk.*1 ⊆ accepted_keys (min_rank_of ms) cf h1 fs
    ∧ NoDup bk.*1
    ∧ sel `sublist_of` bk
    ∧ NoDup sel.*1
    ∧ emitted h' sel out
    ∧ Forall2 (λ ke c, path c = ke.1.1.1 ∧ line c = ke.1.1.2) sel out.
Proof.
  intros Hb.
  apply build_inv in Hb as (n & m & h1 & fs & bk & full & _ & _ & Hg & Hf
                            & Hr & Hout).
  rewrite slice_to_take in Hout. subst out.
  assert (NoDup bk.*1) as Hnd.
  { rewrite (fold_keys _ _ _ _ _ _ _ Hf). apply first_seen_NoDup, NoDup_nil.
    done. }
  apply render_all_emitted in Hr.
  set (j := keep n (length full)).
  assert (take j (surviving (Z.max 1 m) bk) `sublist_of` bk) as Hsub.
  { etrans; [apply sublist_take | apply sublist_filter]. }
  exists h1, fs, bk, (take j (surviving (Z.max 1 m) bk)).
  split_and!; try done.
  - rewrite (fold_keys _ _ _ _ _ _ _ Hf). apply first_seen_subseteq.
  - eapply sublist_NoDup; [exact Hnd|]. by apply fmap_sublist.
  - by apply Forall2_take.
  - apply Forall2_take. eapply Forall2_impl; [exact Hr|].
    intros [k e] c Hc. apply render_path in Hc. tauto.
Qed.

(** C6 (insertion order).  The working list is the provider findings
    followed by the structured findings; the keys of [by_key] are the keys
    of the accepted findings in order of first occurrence in that list; the
    comments are those of the first entries, in that order, among the
    entries that reach the agreement threshold. *)
Theorem insertion_order pf sl mc ms ma ps cf h h' out :
  build_inline_payload pf sl mc ms ma ps cf h = (h', Ok out) →
  ∃ n m h1 fs bk,
    py_int mc = Ok n ∧ py_int ma = Ok m
    ∧ gather pf sl h = (h1, Ok fs)
    ∧ (∃ items, load_struct_findings sl = VList items
         ∧ fs = pf ++ seq (length h) (length items))
    ∧ foldM (visit (min_rank_of ms) cf) fs [] h1 = (h', Ok bk)
    ∧ bk.*1 = first_seen (accepted_keys (min_rank_of ms) cf h1 fs) []
    ∧ emitted h' (take (length out) (surviving (Z.max 1 m) bk)) out
    ∧ length out = keep n (length (surviving (Z.max 1 m) bk)).
Proof.
  intros Hb.
  apply build_inv in Hb as (n & m & h1 & fs & bk & full & Hn & Hm & Hg & Hf
                            & Hr & Hout).
  rewrite slice_to_take in Hout. subst out.
  apply render_all_emitted in Hr.
  pose proof (Forall2_length _ _ _ Hr) as Hlen.
  destruct (gather_inv _ _ _ _ _ Hg) as (items & Hit & Hfs & _).
  exists n, m, h1, fs, bk. split_and!; try done.
  - eauto.
  - by rewrite (fold_keys _ _ _ _ _ _ _ Hf).
  - rewrite length_take.
    assert (keep n (length full) ≤ length full)%nat as Hk.
    { unfold keep. destruct (0 <=? n); lia. }
    rewrite Nat.min_l by done. by apply Forall2_take.
  - rewrite length_take, Hlen.
    assert (keep n (length full) ≤ length full)%nat as Hk.
    { unfold keep. destruct (0 <=? n); lia. }
    lia.
Qed.

(** C2 (agreement floor).  Every emitted comment is the comment of an
    entry whose provider set has at least [max(1, min_agree)] members, and
    the members of that set are exactly the hashed providers of the findings
    of the working list that pass the filters under the entry's key and
    carry a truthy provider: a repeated provider is one member, a finding
    with no provider adds none. *)
Theorem agreement_floor pf sl mc ms ma ps cf h h' out :
  build_inline_payload pf sl mc ms ma ps cf h = (h', Ok out) →
  ∃ m h1 fs bk sel,
    py_int ma = Ok m
    ∧ gather pf sl h = (h1, Ok fs)
    ∧ foldM (visit (min_rank_of ms) cf) fs [] h1 = (h', Ok bk)
    ∧ sel `sublist_of` bk
    ∧ emitted h' sel out
    ∧ Forall (λ ke,
        Z.max 1 m ≤ Z.of_nat (size (providers ke.2))
        ∧ ∀ p, p ∈ providers ke.2 ↔
               ∃ f, f ∈ fs ∧ backs (min_rank_of ms) cf h1 f ke.1 p) sel.
Proof.
  intros Hb.
  apply build_inv in Hb as (n & m & h1 & fs & bk & full & _ & Hm & Hg & Hf
                            & Hr & Hout).
  rewrite slice_to_take in Hout. subst out.
  apply render_all_emitted in Hr.
  set (j := keep n (length full)).
  exists m, h1, fs, bk, (take j (surviving (Z.max 1 m) bk)).
  split_and!; try done.
  - etrans; [apply sublist_take | apply sublist_filter].
  - by apply Forall2_take.
  - apply Forall_forall. intros [k e] Hin.
    apply elem_of_take in Hin as (i & Hin & _).
    apply list_elem_of_lookup_2 in Hin.
    apply list_elem_of_filter in Hin as [Hsz Hin]. split; [done|].
    intros p. simpl.
    assert (bk_lookup k bk = Some e) as Hl.
    { apply bk_lookup_NoDup; [|done].
      rewrite (fold_keys _ _ _ _ _ _ _ Hf).
      apply first_seen_NoDup, NoDup_nil. done. }
    rewrite (fold_providers _ _ _ _ _ _ _ _ _ _ Hf Hl). simpl.
    split; [|eauto]. intros [(e0 & [=] & _)|?]. done.
Qed.


(** C8 (placeholder substitution).  For every emitted comment whose
    representative record has a blank suggestion, as gathered or as it is
    when the comment is rendered, the fenced block at the end of the body
    holds exactly the placeholder. *)
Theorem placeholder_in_fence pf sl mc ms ma ps cf h h' out :
  build_inline_payload pf sl mc ms ma ps cf h = (h', Ok out) →
  ∃ h1 fs bk sel,
    gather pf sl h = (h1, Ok fs)
    ∧ foldM (visit (min_rank_of ms) cf) fs [] h1 = (h', Ok bk)
    ∧ sel `sublist_of` bk
    ∧ emitted h' sel out
    ∧ Forall2 (λ ke c,
        ∀ d, deref h1 (finding ke.2) = VDict d
             ∨ deref h' (finding ke.2) = VDict d →
             blank (dict_get "suggestion" d) →
             fenced placeholder c) sel out.
Proof.
  intros Hb.
  apply build_inv in Hb as (n & m & h1 & fs & bk & full & _ & Hm & Hg & Hf
                            & Hr & Hout).
  rewrite slice_to_take in Hout. subst out.
  apply render_all_emitted in Hr.
  set (j := keep n (length full)).
  exists h1, fs, bk, (take j (surviving (Z.max 1 m) bk)).
  split_and!; try done.
  - etrans; [apply sublist_take | apply sublist_filter].
  - by apply Forall2_take.
  - apply Forall2_take. eapply Forall2_impl; [exact Hr|].
    intros [k e] c Hc d Hd Hbl. simpl in *.
    apply render_inv in Hc as (d' & sg & rest & Hd' & Hn & Hfen & _).
    assert (normal_suggestion d' = Ok (VStr placeholder)) as Hn'.
    { destruct Hd as [Hd|Hd].
      - apply fold_frame in Hf as [_ Hs]. specialize (Hs (finding e)).
        rewrite Hd, Hd' in Hs.
        destruct Hs as [[= ->]|(d0 & d0' & s & [= <-] & [= <-] & _ & Hn0 & Hs)].
        + by apply blank_normal.
        + rewrite (blank_normal _ Hbl) in Hn0. injection Hn0 as <-.
          eapply normal_suggestion_idem; [|exact Hs]. by apply blank_normal.
      - rewrite Hd' in Hd. injection Hd as ->. by apply blank_normal. }
    rewrite Hn in Hn'. by injection Hn' as ->.
Qed.

Lemma screen_severity mr cf d k severity :
  screen mr cf (VDict d) = Ok (Some (k, severity)) →
  py_lower (py_or (dict_get "severity" d) (VStr "")) = Ok severity.
Proof.
  unfold screen. intros Hs.
  apply rbind_ok_inv in Hs as ([[file ln] msg] & _ & Hs).
  destruct (no_key _); [done|]. destruct (_ && _); [done|].
  apply rbind_ok_inv in Hs as (d' & [= <-] & Hs).
  apply rbind_ok_inv in Hs as (sev & Hsev & Hs).
  destruct (rank sev <? mr); [done|]. by injection Hs as _ <-.
Qed.

Lemma min_rank_of_bounds ms : 1 ≤ min_rank_of ms ≤ 3.
Proof.
  unfold min_rank_of, severity_order. repeat case_decide; simpl; lia.
Qed.

(** C10 (severity floor).  For every [min_sev]: the floor rank lies between
    1 and 3; a [min_sev] that names no severity gives the call the outcome
    of [minor]; a finding whose severity has rank 0 leaves [by_key] and the
    store as they are; and the first line of every emitted comment starts
    with the label of its entry, which is critical, major or minor. *)
Theorem severity_floor ms :
  1 ≤ min_rank_of ms ≤ 3
  ∧ (severity_order (str_lower ms) = None → str_lower "minor" = "minor" →
     ∀ pf sl mc ma ps cf h,
       build_inline_payload pf sl mc ms ma ps cf h
       = build_inline_payload pf sl mc "minor" ma ps cf h)
  ∧ (∀ cf bk f h h' bk' d severity,
       deref h f = VDict d →
       py_lower (py_or (dict_get "severity" d) (VStr "")) = Ok severity →
       rank severity = 0 →
       visit (min_rank_of ms) cf bk f h = (h', Ok bk') →
       h' = h ∧ bk' = bk)
  ∧ (∀ pf sl mc ma ps cf h h' out,
       build_inline_payload pf sl mc ms ma ps cf h = (h', Ok out) →
       ∃ h1 fs bk sel,
         gather pf sl h = (h1, Ok fs)
         ∧ foldM (visit (min_rank_of ms) cf) fs [] h1 = (h', Ok bk)
         ∧ sel `sublist_of` bk
         ∧ emitted h' sel out
         ∧ Forall2 (λ ke c,
             max_sev ke.2 ∈ ["critical"; "major"; "minor"]
             ∧ ∃ rest, body c = "**" +:+ max_sev ke.2 +:+ "**: " +:+ rest)
             sel out).
Proof.
  split_and!.
  - apply min_rank_of_bounds.
  - apply min_rank_of_bounds.
  - intros Hno Hlow pf sl mc ma ps cf h. unfold build_inline_payload.
    assert (min_rank_of ms = min_rank_of "minor") as ->; [|done].
    unfold min_rank_of. by rewrite Hno, Hlow.
  - intros cf bk f h h' bk' d severity Hd Hsev Hr0 Hv.
    apply visit_inv in Hv as [(_ & -> & ->)|(k & sev & Hsc & _)]; [done|].
    pose proof (screen_rank _ _ _ _ _ Hsc) as Hfloor.
    rewrite Hd in Hsc. apply screen_severity in Hsc.
    rewrite Hsev in Hsc. injection Hsc as <-.
    pose proof (min_rank_of_bounds ms). lia.
  - intros pf sl mc ma ps cf h h' out Hb.
    apply build_inv in Hb as (n & m & h1 & fs & bk & full & _ & Hm & Hg & Hf
                              & Hr & Hout).
    rewrite slice_to_take in Hout. subst out.
    apply render_all_emitted in Hr.
    set (j := keep n (length full)).
    exists h1, fs, bk, (take j (surviving (Z.max 1 m) bk)).
    assert (take j (surviving (Z.max 1 m) bk) `sublist_of` bk) as Hsub.
    { etrans; [apply sublist_take | apply sublist_filter]. }
    split_and!; try done.
    + by apply Forall2_take.
    + assert (Forall (λ ke : key * entry, 1 ≤ rank (max_sev ke.2))
                     (take j (surviving (Z.max 1 m) bk))) as Hranks.
      { apply Forall_forall. intros [k e] Hin.
        apply (elem_of_sublist _ _ _ Hin) in Hsub as Hin'.
        assert (bk_lookup k bk = Some e) as Hl.
        { apply bk_lookup_NoDup; [|done].
          rewrite (fold_keys _ _ _ _ _ _ _ Hf).
          apply first_seen_NoDup, NoDup_nil. done. }
        pose proof (fold_ranks _ _ _ _ _ _ _ Hf) as Hfr.
        specialize (Hfr ltac:(done) _ _ Hl).
        pose proof (min_rank_of_bounds ms). simpl. lia. }
      apply Forall2_take with (n := j) in Hr.
      eapply Forall2_refine; [exact Hranks | exact Hr |].
      intros [k e] c Hrk Hc. simpl in *.
      apply rank_named in Hrk.
      apply render_inv in Hc as (d & sg & rest & _ & _ & _ & Hbody).
      split.
      * rewrite !elem_of_cons. tauto.
      * exists rest. rewrite Hbody.
        by destruct Hrk as [-> | [-> | ->]].
Qed.

Lemma text_like_or v : text_like v = true → py_or v (VStr "") = VStr (text_of v).
Proof.
  unfold py_or. destruct v as [| | |s| |]; simpl; try done;
    try (intros Ht; apply negb_true_iff in Ht; simpl in Ht; by rewrite Ht).
  intros _. case_bool_decide; simpl; congruence.
Qed.

Lemma text_like_truthy v : text_like v = true → truthy v = true → v = VStr (text_of v).
Proof.
  destruct v; simpl; try done;
    intros Ht; apply negb_true_iff in Ht; simpl in Ht; congruence.
Qed.

Lemma key_message_or d :
  text_like (dict_get "title" d) = true →
  text_like (dict_get "message" d) = true →
  py_or (py_or (dict_get "title" d) (dict_get "message" d)) (VStr "")
  = VStr (key_message d).
Proof.
  intros Ht Hm. unfold key_message, py_or at 2.
  destruct (truthy (dict_get "title" d)) eqn:Htr.
  - rewrite (text_like_truthy _ Ht Htr) at 1. unfold py_or.
    rewrite (text_like_truthy _ Ht Htr) in Htr. by rewrite Htr.
  - by apply text_like_or.
Qed.

Lemma key_for_typed d :
  text_like (dict_get "file" d) = true →
  text_like (dict_get "title" d) = true →
  text_like (dict_get "message" d) = true →
  key_for (VDict d)
  = Ok (str_strip (text_of (dict_get "file" d)), line_or_zero d,
        str_lower (str_strip (key_message d))).
Proof.
  intros Hf Ht Hm. unfold key_for. simpl.
  by rewrite (text_like_or _ Hf), (key_message_or _ Ht Hm).
Qed.


(** ** The store across a call *)

Lemma tag_frame l h h' r :
  tag l h = (h', r) →
  length h' = length h ∧ ∀ l', l' ≠ l → deref h' l' = deref h l'.
Proof.
  unfold tag. intros Ht.
  apply bind_inv in Ht as [(e & [=] & _)|(h2 & fv & Hr & Ht)].
  apply read_inv in Hr as [-> _].
  apply bind_inv in Ht as [(e & [= <- _] & _)|(h2 & d & Hl & Ht)]; [done|].
  apply lift_inv in Hl as [-> _].
  apply set_item_inv in Ht as [(-> & _)|(d0 & _ & -> & _)]; [done|].
  split; [apply length_insert|]. intros l' Hne. by apply deref_insert_ne.
Qed.

Lemma forM_tag_frame ls h h' r :
  forM tag ls h = (h', r) →
  length h' = length h ∧ ∀ l', l' ∉ ls → deref h' l' = deref h l'.
Proof.
  revert h. induction ls as [|l ls IH]; intros h; simpl.
  - intros Hr. by apply ret_inv in Hr as [-> _].
  - intros Hb.
    apply bind_inv in Hb as [(e & Hb & _)|(h1 & [] & Hb & Hf)].
    + apply tag_frame in Hb as [Hlen Hb]. split; [done|].
      intros l' [Hne _]%not_elem_of_cons. by apply Hb.
    + apply tag_frame in Hb as [Hlen Hb]. apply IH in Hf as [Hlen' Hf].
      split; [congruence|].
      intros l' [Hne Hni]%not_elem_of_cons. rewrite Hf by done. by apply Hb.
Qed.

Lemma deref_app_l h vs l : (l < length h)%nat → deref (h ++ vs) l = deref h l.
Proof. intros Hl. unfold deref. by rewrite lookup_app_l. Qed.

Lemma gather_frame pf sl h h1 r :
  gather pf sl h = (h1, r) →
  (length h ≤ length h1)%nat
  ∧ ∀ l, (l < length h)%nat → deref h1 l = deref h l.
Proof.
  unfold gather. intros Hg.
  apply bind_inv in Hg as [(e & [= <- _] & _)|(h2 & items & Hl & Hg)];
    [done|].
  apply lift_inv in Hl as [-> _].
  apply bind_inv in Hg as [(e & [=] & _)|(h2 & slocs & Ha & Hg)].
  injection Ha as <- <-.
  assert (length h1 = length (h ++ items)
          ∧ ∀ l', l' ∉ seq (length h) (length items) →
                  deref h1 l' = deref (h ++ items) l') as [Hlen Hfr].
  { apply bind_inv in Hg as [(e & Ht & _)|(h3 & [] & Ht & Hg)].
    - by apply forM_tag_frame in Ht.
    - apply lift_inv in Hg as [-> _]. by apply forM_tag_frame in Ht. }
  rewrite length_app in Hlen. split; [lia|].
  intros l Hl. rewrite Hfr; [by apply deref_app_l|].
  rewrite list_elem_of_In, in_seq. lia.
Qed.

Lemma build_frame pf sl mc ms ma ps cf h h' r :
  build_inline_payload pf sl mc ms ma ps cf h = (h', r) →
  ∃ h1, (length h ≤ length h1)%nat
    ∧ (∀ l, (l < length h)%nat → deref h1 l = deref h l)
    ∧ same_heap h1 h'.
Proof.
  unfold build_inline_payload. intros Hb.
  assert (∃ h1, (length h ≤ length h1)%nat
            ∧ (∀ l, (l < length h)%nat → deref h1 l = deref h l)
            ∧ same_heap h1 h) as Hrefl.
  { exists h. split_and!; [done | done | apply same_heap_refl]. }
  apply bind_inv in Hb as [(e & [= <- _] & _)|(h0 & n & Hl & Hb)]; [done|].
  apply lift_inv in Hl as [-> _].
  apply bind_inv in Hb as [(e & [= <- _] & _)|(h0 & m & Hl & Hb)]; [done|].
  apply lift_inv in Hl as [-> _]. clear Hrefl.
  apply bind_inv in Hb as [(e & Hg & _)|(h1 & fs & Hg & Hb)].
  { apply gather_frame in Hg as [Hlen Hg]. exists h'.
    split_and!; [done | done | apply same_heap_refl]. }
  apply gather_frame in Hg as [Hlen Hg]. exists h1.
  split_and!; [done | done |].
  apply bind_inv in Hb as [(e & Hf & _)|(h2 & bk & Hf & Hb)].
  { by eapply fold_frame. }
  apply fold_frame in Hf.
  apply bind_inv in Hb as [(e & [= <- _] & _)|(h3 & full & [= <- _] & Hb)];
    [done|].
  by apply ret_inv in Hb as [-> _].
Qed.

Lemma same_record_filled v v' :
  str_strip "" = "" → same_record v v' → suggestion_filled v v'.
Proof.
  intros Hstrip [->|(d & d' & s & -> & -> & Hk & Hn & Hs)]; [by left|].
  right. exists d, d'. split_and!; try done.
  unfold normal_suggestion in Hn.
  apply rbind_ok_inv in Hn as (st & Hst & [= <-]).
  case_bool_decide as Hb.
  - right. split; [|done]. unfold blank. by rewrite Hst, Hb.
  - left. rewrite Hs. unfold py_or, dict_get in *.
    destruct (dict_lookup "suggestion" d) as [v|]; simpl in *.
    + destruct (truthy v); [done|]. simpl in Hst. congruence.
    + simpl in Hst. congruence.
Qed.

(** C9 (effect on the inputs), as the code has it.  Whatever the outcome of
    a call, the store only grows, and every object it held before is as it
    was, or is the same record with a blank suggestion replaced by the
    placeholder: no other field changes. *)
Theorem inputs_keep_all_but_suggestion pf sl mc ms ma ps cf h h' r :
  build_inline_payload pf sl mc ms ma ps cf h = (h', r) →
  str_strip "" = "" →
  (length h ≤ length h')%nat
  ∧ ∀ l, (l < length h)%nat → suggestion_filled (deref h l) (deref h' l).
Proof.
  intros Hb Hstrip.
  apply build_frame in Hb as (h1 & Hlen & Hg & Hlen' & Hs).
  split; [lia|]. intros l Hl. rewrite <- (Hg l Hl).
  by apply same_record_filled.
Qed.

(** ** Calls that cannot raise *)

Lemma well_typed_inv v :
  well_typed v = true →
  ∃ d, v = VDict d
    ∧ text_like (dict_get "file" d) = true
    ∧ text_like (dict_get "title" d) = true
    ∧ text_like (dict_get "message" d) = true
    ∧ text_like (dict_get "severity" d) = true
    ∧ text_like (dict_get "suggestion" d) = true
    ∧ hashable_like (dict_get "provider" d) = true.
Proof.
  destruct v as [| | | | |d]; simpl; try done.
  rewrite !andb_true_iff. intros [[[[[? ?] ?] ?] ?] ?]. exists d. done.
Qed.

Lemma normal_suggestion_typed d :
  text_like (dict_get "suggestion" d) = true →
  ∃ t, normal_suggestion d = Ok (VStr t).
Proof.
  intros Hs. unfold normal_suggestion. rewrite (text_like_or _ Hs). simpl.
  case_bool_decide; eauto.
Qed.

Lemma screen_typed mr cf v :
  well_typed v = true → ∃ r, screen mr cf v = Ok r.
Proof.
  intros (d & -> & Hf & Ht & Hm & Hsev & _)%well_typed_inv.
  unfold screen. rewrite (key_for_typed d Hf Ht Hm). simpl. destruct (_ || _); [eauto|].
  destruct (_ && _); [eauto|]. rewrite (text_like_or _ Hsev). simpl.
  destruct (_ <? _); eauto.
Qed.

Lemma hashable_typed v :
  hashable_like v = true → truthy v = true → ∃ p, py_hash v = Ok p.
Proof. destruct v as [| | | |[|x l]|[|x l]]; simpl; try done; eauto. Qed.

Lemma same_record_typed v v' :
  same_record v v' → well_typed v = true → well_typed v' = true.
Proof.
  intros [->|(d & d' & s & -> & -> & Hk & Hn & Hs)]; [done|].
  destruct (normal_suggestion_str _ _ Hn) as [t ->].
  simpl. unfold dict_get. rewrite Hs, !Hk by done. simpl.
  rewrite !andb_true_iff. intros [[[[[? ?] ?] ?] ?] ?]. done.
Qed.

Lemma merge_typed bk f k severity h :
  well_typed (deref h f) = true →
  ∃ h' bk', merge bk f k severity h = (h', Ok bk').
Proof.
  intros (d & Hd & _ & _ & _ & _ & Hs & Hp)%well_typed_inv.
  destruct (normal_suggestion_typed _ Hs) as [t Hn].
  pose proof (deref_dict _ _ _ Hd) as Hlook.
  unfold merge, bind, read, lift, ret. rewrite Hd. simpl. rewrite Hn.
  destruct (setdefault k _ bk) as [bk1 e].
  destruct (rank (max_sev e) <? rank severity).
  - unfold set_item. rewrite Hlook.
    rewrite deref_insert_eq by congruence. simpl.
    rewrite dict_get_set_ne by done.
    destruct (truthy (dict_get "provider" d)) eqn:Htr; [|eauto].
    destruct (hashable_typed _ Hp Htr) as [p ->]. eauto.
  - rewrite Hd. simpl.
    destruct (truthy (dict_get "provider" d)) eqn:Htr; [|eauto].
    destruct (hashable_typed _ Hp Htr) as [p ->]. eauto.
Qed.

Lemma visit_typed mr cf bk f h :
  well_typed (deref h f) = true →
  ∃ h' bk', visit mr cf bk f h = (h', Ok bk').
Proof.
  intros Hw. destruct (screen_typed mr cf _ Hw) as [r Hr].
  unfold visit, bind at 1, read. unfold bind at 1, lift. rewrite Hr.
  destruct r as [[k severity]|]; [by apply merge_typed | unfold ret; eauto].
Qed.

Lemma fold_typed mr cf fs bk h :
  Forall (λ f, well_typed (deref h f) = true) fs →
  ∃ h' bk', foldM (visit mr cf) fs bk h = (h', Ok bk').
Proof.
  revert bk h. induction fs as [|f fs IH]; intros bk h Hw; simpl.
  - unfold ret. eauto.
  - apply Forall_cons in Hw as [Hf Hw].
    destruct (visit_typed mr cf bk f h Hf) as (h1 & bk1 & Hv).
    unfold bind. rewrite Hv. apply IH.
    apply visit_frame in Hv as [_ Hv].
    eapply Forall_impl; [exact Hw|]. intros l. simpl.
    by apply same_record_typed.
Qed.

(** The representative of an entry is one of the findings visited. *)
Lemma fold_findings mr cf fs bk h h' bk' k e' :
  foldM (visit mr cf) fs bk h = (h', Ok bk') →
  bk_lookup k bk' = Some e' →
  finding e' ∈ fs ∨ ∃ e, bk_lookup k bk = Some e ∧ finding e = finding e'.
Proof.
  revert bk h. induction fs as [|f fs IH]; intros bk h; simpl.
  - intros Hr Hl. apply ret_inv in Hr as [_ [= ->]]. right. eauto.
  - intros Hb Hl. apply bind_ok_inv in Hb as (h1 & bk1 & Hv & Hf).
    destruct (IH _ _ Hf Hl) as [Hin|(e1 & Hl1 & He1)].
    { left. by apply list_elem_of_further. }
    rewrite <- He1. clear IH Hf Hl He1.
    apply visit_inv in Hv as [(_ & _ & ->)|(k0 & sev & _ & Hm)]; [eauto|].
    destruct (decide (k = k0)) as [->|Hne].
    + destruct (merged_lookup_eq _ _ _ _ _ _ _ Hm)
        as (d & e2 & _ & Hl2 & _ & Hgt & Hle).
      rewrite Hl1 in Hl2. injection Hl2 as <-.
      destruct (Z.lt_ge_cases (rank (max_sev (entry_before bk f k0 sev)))
                              (rank sev)) as [Hc|Hc].
      * destruct (Hgt Hc) as [-> _]. left. apply list_elem_of_here.
      * destruct (Hle Hc) as [-> _]. unfold entry_before.
        destruct (bk_lookup k0 bk) as [e0|]; simpl; [eauto|].
        left. apply list_elem_of_here.
    + rewrite (merged_lookup_ne _ _ _ _ _ _ _ _ Hm Hne) in Hl1. eauto.
Qed.

Lemma render_typed h k e :
  well_typed (deref h (finding e)) = true → ∃ c, render h k e = Ok c.
Proof.
  intros (d & Hd & _ & _ & Hm & _ & Hs & _)%well_typed_inv.
  destruct (normal_suggestion_typed _ Hs) as [t Hn].
  destruct k as [[file ln] msg]. unfold render. rewrite Hd. simpl.
  rewrite Hn. simpl. rewrite (text_like_or _ Hm).
  destruct (_ && _); simpl; eauto.
Qed.

Lemma render_all_typed m h (bk : by_key_t) :
  Forall (λ ke, well_typed (deref h (finding ke.2)) = true) bk →
  ∃ full, render_all m h bk = Ok full.
Proof.
  induction bk as [|[k e] bk IH]; simpl; [eauto|].
  intros [He Hbk]%Forall_cons. destruct (IH Hbk) as [cs Hcs].
  destruct (_ <? m); [eauto|].
  destruct (render_typed h k e He) as [c ->]. simpl. rewrite Hcs. simpl.
  eauto.
Qed.

Lemma tolerated_load sl items :
  tolerated sl items →
  load_struct_findings sl = VList [] ∨ load_struct_findings sl = VList items.
Proof.
  unfold load_struct_findings. case_bool_decide; [by left|].
  intros [Hsl|Hj|v Hj Hv|d Hj Hf|d l Hj Hf]; try rewrite Hj; try by left.
  - destruct v; try by left. by destruct (Hv d).
  - unfold py_or. rewrite Hf. by left.
  - unfold py_or. rewrite Hf. destruct l; [by left | by right].
Qed.

Lemma tag_typed l h :
  well_typed (deref h l) = true →
  ∃ h', tag l h = (h', Ok tt)
    ∧ ∀ l', well_typed (deref h l') = true → well_typed (deref h' l') = true.
Proof.
  intros (d & Hd & Hf & Ht & Hm & Hsev & Hs & Hp)%well_typed_inv.
  pose proof (deref_dict _ _ _ Hd) as Hlook.
  unfold tag, bind, read, lift, set_item. rewrite Hd. simpl. rewrite Hlook.
  eexists. split; [done|]. intros l' Hw.
  destruct (decide (l = l')) as [<-|Hne]; [|by rewrite deref_insert_ne].
  rewrite deref_insert_eq by congruence. simpl.
  rewrite !dict_get_set_ne by done. rewrite dict_get_set_eq.
  rewrite Hf, Ht, Hm, Hsev, Hs. simpl.
  unfold py_or. by destruct (truthy (dict_get "provider" d)).
Qed.

Lemma forM_tag_typed ls h :
  Forall (λ l, well_typed (deref h l) = true) ls →
  ∃ h', forM tag ls h = (h', Ok tt)
    ∧ ∀ l', well_typed (deref h l') = true → well_typed (deref h' l') = true.
Proof.
  revert h. induction ls as [|l ls IH]; intros h; simpl.
  - intros _. exists h. done.
  - intros [Hl Hls]%Forall_cons.
    destruct (tag_typed l h Hl) as (h1 & Ht & Hw1).
    destruct (IH h1) as (h2 & Hf & Hw2).
    { eapply Forall_impl; [exact Hls|]. intros l'. apply Hw1. }
    exists h2. unfold bind. rewrite Ht. split; [done|]. eauto.
Qed.

Lemma gather_typed pf sl h items :
  tolerated sl items →
  Forall (λ v, well_typed v = true) items →
  Forall (λ l, well_typed (deref h l) = true) pf →
  ∃ h1 fs, gather pf sl h = (h1, Ok fs)
    ∧ Forall (λ l, well_typed (deref h1 l) = true) fs.
Proof.
  intros Htol Hitems Hpf.
  assert (∃ its, load_struct_findings sl = VList its
            ∧ Forall (λ v, well_typed v = true) its) as (its & Hload & Hits).
  { destruct (tolerated_load _ _ Htol) as [->| ->]; eauto. }
  assert (Forall (λ l, well_typed (deref (h ++ its) l) = true)
                 (pf ++ seq (length h) (length its))) as Hall.
  { apply Forall_app. split.
    - eapply Forall_impl; [exact Hpf|]. intros l Hl. simpl in *.
      unfold deref in *. destruct (h !! l) as [v|] eqn:Hv; [|done].
      by rewrite (lookup_app_l_Some _ _ _ _ Hv).
    - apply Forall_forall. intros l [Hge Hlt]%list_elem_of_In%in_seq.
      unfold deref. rewrite lookup_app_r by lia.
      destruct (its !! (l - length h)%nat) as [v|] eqn:Hv.
      + simpl. eapply Forall_forall in Hits; [exact Hits|].
        by eapply list_elem_of_lookup_2.
      + apply lookup_ge_None in Hv. lia. }
  apply Forall_app in Hall as Hboth. destruct Hboth as [_ Hnew].
  destruct (forM_tag_typed _ _ Hnew) as (h1 & Htag & Hw).
  exists h1, (pf ++ seq (length h) (length its)).
  unfold gather, bind, lift, alloc_all. rewrite Hload. simpl. rewrite Htag.
  split; [done|]. eapply Forall_impl; [exact Hall|]. intros l. apply Hw.
Qed.

(** ** Further properties of the specification *)

Lemma screen_functional mr cf v k1 s1 k2 s2 :
  screen mr cf v = Ok (Some (k1, s1)) → screen mr cf v = Ok (Some (k2, s2)) →
  k1 = k2 ∧ s1 = s2.
Proof. intros -> [= -> ->]. done. Qed.

Lemma screen_scope mr cf v k severity :
  screen mr cf v = Ok (Some (k, severity)) → cf ≠ ∅ → k.1.1 ∈ cf.
Proof.
  unfold screen. intros Hs Hne.
  apply rbind_ok_inv in Hs as ([[file ln] msg] & _ & Hs).
  destruct (no_key _); [done|].
  rewrite (bool_decide_false _ Hne) in Hs. simpl in Hs.
  case_bool_decide as Hin; simpl in Hs; [|done].
  apply rbind_ok_inv in Hs as (d & _ & Hs).
  apply rbind_ok_inv in Hs as (sev & _ & Hs).
  destruct (_ <? _); [done|]. by injection Hs as <- _.
Qed.

Lemma accepted_keys_elem mr cf h fs k :
  k ∈ accepted_keys mr cf h fs →
  ∃ f severity, f ∈ fs ∧ screen mr cf (deref h f) = Ok (Some (k, severity)).
Proof.
  induction fs as [|f fs IH]; simpl.
  - intros Hin. by apply elem_of_nil in Hin.
  - destruct (screen mr cf (deref h f)) as [[[k0 sev]|]|e] eqn:Hsc.
    + intros [->|Hin]%elem_of_cons.
      * exists f, sev. split; [apply list_elem_of_here | done].
      * destruct (IH Hin) as (f0 & s0 & ? & ?). exists f0, s0.
        split; [by apply list_elem_of_further | done].
    + intros Hin. destruct (IH Hin) as (f0 & s0 & ? & ?). exists f0, s0.
      split; [by apply list_elem_of_further | done].
    + intros Hin. destruct (IH Hin) as (f0 & s0 & ? & ?). exists f0, s0.
      split; [by apply list_elem_of_further | done].
Qed.

(** The representative of an entry after the loop: the entry's own from
    before, when no finding of the list outranks it, or else the first
    finding of the list whose rank is the highest under the key. *)
Lemma fold_representative mr cf fs bk h h' bk' k e' :
  foldM (visit mr cf) fs bk h = (h', Ok bk') →
  bk_lookup k bk' = Some e' →
  (∃ e, bk_lookup k bk = Some e
     ∧ finding e' = finding e ∧ max_sev e' = max_sev e
     ∧ ∀ j f s, fs !! j = Some f →
                screen mr cf (deref h f) = Ok (Some (k, s)) →
                rank s ≤ rank (max_sev e))
  ∨ (∃ i severity,
       fs !! i = Some (finding e')
       ∧ screen mr cf (deref h (finding e')) = Ok (Some (k, severity))
       ∧ max_sev e' = severity
       ∧ (∀ e, bk_lookup k bk = Some e → rank (max_sev e) < rank severity)
       ∧ ∀ j f s, fs !! j = Some f →
                  screen mr cf (deref h f) = Ok (Some (k, s)) →
                  rank s ≤ rank severity
                  ∧ ((j < i)%nat → rank s < rank severity)).
Proof.
  revert bk h. induction fs as [|f fs IH]; intros bk h; simpl.
  - intros Hr Hl. apply ret_inv in Hr as [_ [= ->]]. left.
    exists e'. split_and!; done.
  - intros Hb Hl. apply bind_ok_inv in Hb as (h1 & bk1 & Hv & Hf).
    specialize (IH _ _ Hf Hl).
    assert (∀ x, screen mr cf (deref h1 x) = screen mr cf (deref h x)) as Hsame.
    { intros x. apply screen_same. by apply (visit_frame _ _ _ _ _ _ _ Hv). }
    setoid_rewrite Hsame in IH. clear Hf Hl Hsame.
    (* the finding at the head leaves the entry of [k] alone *)
    match goal with
    | |- ?G =>
        assert (bk_lookup k bk1 = bk_lookup k bk →
                (∀ s, screen mr cf (deref h f) ≠ Ok (Some (k, s))) → G)
          as Hskip
    end.
    { intros Heq Hnot. rewrite Heq in IH.
      destruct IH as [(e & He & Hfi & Hms & Hall)
                     |(i & sev & Hi & Hsc & Hms & Hbk & Hall)].
      - left. exists e. split_and!; try done.
        intros [|j] f0 s Hj Hs; simpl in Hj; [|by eapply Hall].
        injection Hj as <-. by destruct (Hnot s).
      - right. exists (S i), sev. split_and!; try done.
        intros [|j] f0 s Hj Hs; simpl in Hj.
        + injection Hj as <-. by destruct (Hnot s).
        + destruct (Hall j f0 s Hj Hs) as [Hle Hlt]. split; [done|].
          intros Hji. apply Hlt. lia. }
    apply visit_inv in Hv as [(Hsc & _ & ->)|(k0 & sev0 & Hsc & Hm)].
    { apply Hskip; [done|]. intros s. congruence. }
    destruct (decide (k = k0)) as [->|Hne].
    2:{ apply Hskip; [by eapply merged_lookup_ne|].
        intros s Hs. rewrite Hsc in Hs. congruence. }
    clear Hskip.
    destruct (merged_lookup_eq _ _ _ _ _ _ _ Hm)
      as (d & e1 & _ & Hl1 & _ & Hgt & Hle).
    assert (∀ s, screen mr cf (deref h f) = Ok (Some (k0, s)) → s = sev0)
      as Hfun.
    { intros s Hs. rewrite Hsc in Hs. congruence. }
    unfold entry_before in Hgt, Hle.
    destruct (bk_lookup k0 bk) as [e0|] eqn:Hl0; simpl in Hgt, Hle.
    + destruct (Z.lt_ge_cases (rank (max_sev e0)) (rank sev0)) as [Hc|Hc].
      * destruct (Hgt Hc) as [Hf1 Hs1].
        destruct IH as [(e & He & Hfi & Hms & Hall)
                       |(i & sev & Hi & Hsc' & Hms & Hbk & Hall)].
        -- rewrite Hl1 in He. injection He as <-. right.
           exists 0%nat, sev0. rewrite Hfi, Hf1, Hms, Hs1.
           split_and!; try done.
           ++ intros e [= <-]. done.
           ++ intros [|j] f0 s Hj Hs; simpl in Hj.
              ** injection Hj as <-. rewrite (Hfun _ Hs). split; [lia|lia].
              ** split; [|lia]. rewrite <- Hs1. by eapply Hall.
        -- right. exists (S i), sev. specialize (Hbk _ Hl1).
           rewrite Hs1 in Hbk. split_and!; try done.
           ++ intros e [= <-]. lia.
           ++ intros [|j] f0 s Hj Hs; simpl in Hj.
              ** injection Hj as <-. rewrite (Hfun _ Hs). lia.
              ** destruct (Hall j f0 s Hj Hs) as [? Hlt]. split; [done|].
                 intros Hji. apply Hlt. lia.
      * destruct (Hle Hc) as [Hf1 Hs1].
        destruct IH as [(e & He & Hfi & Hms & Hall)
                       |(i & sev & Hi & Hsc' & Hms & Hbk & Hall)].
        -- rewrite Hl1 in He. injection He as <-. left.
           exists e0. rewrite Hfi, Hf1, Hms, Hs1. split_and!; try done.
           intros [|j] f0 s Hj Hs; simpl in Hj.
           ++ injection Hj as <-. rewrite (Hfun _ Hs). lia.
           ++ rewrite <- Hs1. by eapply Hall.
        -- right. exists (S i), sev. specialize (Hbk _ Hl1).
           rewrite Hs1 in Hbk. split_and!; try done.
           ++ intros e [= <-]. done.
           ++ intros [|j] f0 s Hj Hs; simpl in Hj.
              ** injection Hj as <-. rewrite (Hfun _ Hs). lia.
              ** destruct (Hall j f0 s Hj Hs) as [? Hlt]. split; [done|].
                 intros Hji. apply Hlt. lia.
    + destruct (Hle ltac:(lia)) as [Hf1 Hs1].
      destruct IH as [(e & He & Hfi & Hms & Hall)
                     |(i & sev & Hi & Hsc' & Hms & Hbk & Hall)].
      * rewrite Hl1 in He. injection He as <-. right.
        exists 0%nat, sev0. rewrite Hfi, Hf1, Hms, Hs1.
        split_and!; try done.
        intros [|j] f0 s Hj Hs; simpl in Hj.
        -- injection Hj as <-. rewrite (Hfun _ Hs). lia.
        -- split; [|lia]. rewrite <- Hs1. by eapply Hall.
      * right. exists (S i), sev. specialize (Hbk _ Hl1).
        rewrite Hs1 in Hbk. split_and!; try done.
        intros [|j] f0 s Hj Hs; simpl in Hj.
        -- injection Hj as <-. rewrite (Hfun _ Hs). lia.
        -- destruct (Hall j f0 s Hj Hs) as [? Hlt]. split; [done|].
           intros Hji. apply Hlt. lia.
Qed.

(** X1 (first seen at the highest severity wins).  The representative of
    every emitted comment is a finding of the working list accepted under the
    comment's key, no accepted finding of that key outranks it, and those
    before it in the list rank strictly lower. *)
Theorem first_highest_wins pf sl mc ms ma ps cf h h' out :
  build_inline_payload pf sl mc ms ma ps cf h = (h', Ok out) →
  ∃ h1 fs bk sel,
    gather pf sl h = (h1, Ok fs)
    ∧ foldM (visit (min_rank_of ms) cf) fs [] h1 = (h', Ok bk)
    ∧ sel `sublist_of` bk
    ∧ emitted h' sel out
    ∧ Forall (λ ke,
        ∃ i severity,
          fs !! i = Some (finding ke.2)
          ∧ screen (min_rank_of ms) cf (deref h1 (finding ke.2))
            = Ok (Some (ke.1, severity))
          ∧ max_sev ke.2 = severity
          ∧ ∀ j f s, fs !! j = Some f →
              screen (min_rank_of ms) cf (deref h1 f) = Ok (Some (ke.1, s)) →
              rank s ≤ rank severity
              ∧ ((j < i)%nat → rank s < rank severity)) sel.
Proof.
  intros Hb.
  apply build_inv in Hb as (n & m & h1 & fs & bk & full & _ & Hm & Hg & Hf
                            & Hr & Hout).
  rewrite slice_to_take in Hout. subst out.
  apply render_all_emitted in Hr.
  set (j := keep n (length full)).
  assert (take j (surviving (Z.max 1 m) bk) `sublist_of` bk) as Hsub.
  { etrans; [apply sublist_take | apply sublist_filter]. }
  exists h1, fs, bk, (take j (surviving (Z.max 1 m) bk)).
  split_and!; try done.
  - by apply Forall2_take.
  - apply Forall_forall. intros [k e] Hin.
    apply (elem_of_sublist _ _ _ Hin) in Hsub as Hin'.
    assert (bk_lookup k bk = Some e) as Hl.
    { apply bk_lookup_NoDup; [|done].
      rewrite (fold_keys _ _ _ _ _ _ _ Hf).
      apply first_seen_NoDup, NoDup_nil. done. }
    destruct (fold_representative _ _ _ _ _ _ _ _ _ Hf Hl)
      as [(e0 & [=] & _)|(i & sev & Hi & Hsc & Hms & _ & Hall)].
    exists i, sev. done.
Qed.

(** X2 (scope filter).  When [changed_files] is not empty, the path of every
    emitted comment is one of its members. *)
Theorem scope_filter pf sl mc ms ma ps cf h h' out :
  build_inline_payload pf sl mc ms ma ps cf h = (h', Ok out) →
  cf ≠ ∅ →
  Forall (λ c, path c ∈ cf) out.
Proof.
  intros Hb Hne.
  apply build_inv in Hb as (n & m & h1 & fs & bk & full & _ & Hm & Hg & Hf
                            & Hr & Hout).
  rewrite slice_to_take in Hout. subst out.
  apply render_all_emitted in Hr.
  apply Forall_take. apply Forall_forall. intros c Hc.
  apply list_elem_of_lookup in Hc as (i & Hi).
  destruct (Forall2_lookup_r _ _ _ _ _ Hr Hi) as ([k e] & Hk & Hc).
  apply render_path in Hc as (-> & _). simpl.
  assert (k ∈ bk.*1) as Hin.
  { apply list_elem_of_fmap. exists (k, e). split; [done|].
    apply list_elem_of_lookup_2 in Hk.
    by apply list_elem_of_filter in Hk as [_ Hk]. }
  rewrite (fold_keys _ _ _ _ _ _ _ Hf) in Hin.
  apply first_seen_subseteq, accepted_keys_elem in Hin as (f & sev & _ & Hsc).
  by eapply screen_scope.
Qed.

(** X3 (severity floor).  The entry of every emitted comment has a maximum
    severity whose rank is at least the floor rank of [min_sev]. *)
Theorem emitted_above_floor pf sl mc ms ma ps cf h h' out :
  build_inline_payload pf sl mc ms ma ps cf h = (h', Ok out) →
  ∃ h1 fs bk sel,
    gather pf sl h = (h1, Ok fs)
    ∧ foldM (visit (min_rank_of ms) cf) fs [] h1 = (h', Ok bk)
    ∧ sel `sublist_of` bk
    ∧ emitted h' sel out
    ∧ Forall (λ ke, min_rank_of ms ≤ rank (max_sev ke.2)) sel.
Proof.
  intros Hb.
  apply build_inv in Hb as (n & m & h1 & fs & bk & full & _ & Hm & Hg & Hf
                            & Hr & Hout).
  rewrite slice_to_take in Hout. subst out.
  apply render_all_emitted in Hr.
  set (j := keep n (length full)).
  assert (take j (surviving (Z.max 1 m) bk) `sublist_of` bk) as Hsub.
  { etrans; [apply sublist_take | apply sublist_filter]. }
  exists h1, fs, bk, (take j (surviving (Z.max 1 m) bk)).
  split_and!; try done.
  - by apply Forall2_take.
  - apply Forall_forall. intros [k e] Hin.
    apply (elem_of_sublist _ _ _ Hin) in Hsub as Hin'.
    assert (bk_lookup k bk = Some e) as Hl.
    { apply bk_lookup_NoDup; [|done].
      rewrite (fold_keys _ _ _ _ _ _ _ Hf).
      apply first_seen_NoDup, NoDup_nil. done. }
    by apply (fold_ranks _ _ _ _ _ _ _ Hf ltac:(done) _ _ Hl).
Qed.

(** C1 (no exception), as the code has it.  When [max_comments] and
    [min_agree] coerce to integers, [struct_line] is empty, malformed, not a
    dict, without findings, or holds a list of records, and every record,
    given or structured, is a dict whose text fields hold text or nothing
    and whose provider is hashable, the call returns a list of comments. *)
Theorem returns_on_typed_records pf sl mc ms ma ps cf h items n m :
  py_int mc = Ok n → py_int ma = Ok m →
  tolerated sl items →
  Forall (λ v, well_typed v = true) items →
  Forall (λ l, well_typed (deref h l) = true) pf →
  ∃ h' out, build_inline_payload pf sl mc ms ma ps cf h = (h', Ok out).
Proof.
  intros Hn Hm Htol Hitems Hpf.
  destruct (gather_typed pf sl h items Htol Hitems Hpf) as (h1 & fs & Hg & Hw).
  destruct (fold_typed (min_rank_of ms) cf fs [] h1 Hw) as (h' & bk & Hf).
  destruct (render_all_typed (Z.max 1 m) h' bk) as [full Hr].
  { apply Forall_forall. intros [k e] Hin. simpl.
    assert (bk_lookup k bk = Some e) as Hl.
    { apply bk_lookup_NoDup; [|done].
      rewrite (fold_keys _ _ _ _ _ _ _ Hf).
      apply first_seen_NoDup, NoDup_nil. done. }
    destruct (fold_findings _ _ _ _ _ _ _ _ _ Hf Hl) as [Hin'|(e0 & [=] & _)].
    eapply Forall_forall in Hw; [|exact Hin'].
    apply fold_frame in Hf as [_ Hs].
    by eapply same_record_typed. }
  exists h', (slice_to n full).
  unfold build_inline_payload, bind, lift, ret. rewrite Hn, Hm, Hg, Hf, Hr.
  done.
Qed.

(** ** More on the reconciler *)

Lemma screen_key mr cf v k severity :
  screen mr cf v = Ok (Some (k, severity)) → no_key k = false.
Proof.
  unfold screen. intros Hs.
  apply rbind_ok_inv in Hs as ([[file ln] msg] & _ & Hs).
  destruct (no_key (file, ln, msg)) eqn:Hno; [done|].
  destruct (_ && _); [done|].
  apply rbind_ok_inv in Hs as (d & _ & Hs).
  apply rbind_ok_inv in Hs as (sev & _ & Hs).
  destruct (_ <? _); [done|]. by injection Hs as <- _.
Qed.

Lemma build_intro pf sl mc ms ma ps cf h n m h1 fs h' bk full :
  py_int mc = Ok n → py_int ma = Ok m →
  gather pf sl h = (h1, Ok fs) →
  foldM (visit (min_rank_of ms) cf) fs [] h1 = (h', Ok bk) →
  render_all (Z.max 1 m) h' bk = Ok full →
  build_inline_payload pf sl mc ms ma ps cf h = (h', Ok (slice_to n full)).
Proof.
  intros Hn Hm Hg Hf Hr.
  unfold build_inline_payload, bind, lift, ret. by rewrite Hn, Hm, Hg, Hf, Hr.
Qed.

Lemma first_seen_length ks acc :
  (length (first_seen ks acc) ≤ length acc + length ks)%nat.
Proof.
  revert acc. induction ks as [|k ks IH]; intros acc; simpl; [lia|].
  etrans; [apply IH|]. case_bool_decide; rewrite ?length_app; simpl; lia.
Qed.

Lemma accepted_keys_length mr cf h fs :
  (length (accepted_keys mr cf h fs) ≤ length fs)%nat.
Proof.
  induction fs as [|f fs IH]; simpl; [done|].
  destruct (screen mr cf (deref h f)) as [[[k s]|]|e]; simpl; lia.
Qed.

(** Raising the threshold renders a sub-sequence. *)
Lemma render_all_mono m m' h bk full :
  m ≤ m' → render_all m h bk = Ok full →
  ∃ full', render_all m' h bk = Ok full' ∧ full' `sublist_of` full.
Proof.
  intros Hle. revert full. induction bk as [|[k e] bk IH]; intros full; simpl.
  - intros [= <-]. by exists [].
  - destruct (_ <? m) eqn:Hm.
    + apply Z.ltb_lt in Hm. intros Hr.
      rewrite (proj2 (Z.ltb_lt _ m')) by lia. by apply IH.
    + intros Hr. apply rbind_ok_inv in Hr as (c & Hc & Hr).
      apply rbind_ok_inv in Hr as (cs & Hcs & [= <-]).
      destruct (IH _ Hcs) as (full' & Hf' & Hsub).
      destruct (_ <? m').
      * exists full'. split; [done|]. by apply sublist_cons.
      * rewrite Hc, Hf'. simpl. exists (c :: full'). split; [done|].
        by apply sublist_skip.
Qed.

(** X4 (shape of a comment).  Every comment of a call that returns has a
    non-empty path, a line of at least 1 and the side [RIGHT]. *)
Theorem comments_well_formed pf sl mc ms ma ps cf h h' out :
  build_inline_payload pf sl mc ms ma ps cf h = (h', Ok out) →
  Forall (λ c, path c ≠ "" ∧ 0 < line c ∧ side c = "RIGHT") out.
Proof.
  intros Hb.
  apply build_inv in Hb as (n & m & h1 & fs & bk & full & _ & Hm & Hg & Hf
                            & Hr & Hout).
  rewrite slice_to_take in Hout. subst out.
  apply render_all_emitted in Hr.
  apply Forall_take. apply Forall_forall. intros c Hc.
  apply list_elem_of_lookup in Hc as (i & Hi).
  destruct (Forall2_lookup_r _ _ _ _ _ Hr Hi) as ([k e] & Hk & Hc).
  apply render_path in Hc as (-> & -> & ->). simpl.
  assert (k ∈ bk.*1) as Hin.
  { apply list_elem_of_fmap. exists (k, e). split; [done|].
    apply list_elem_of_lookup_2 in Hk.
    by apply list_elem_of_filter in Hk as [_ Hk]. }
  rewrite (fold_keys _ _ _ _ _ _ _ Hf) in Hin.
  apply first_seen_subseteq, accepted_keys_elem in Hin as (f & sev & _ & Hsc).
  apply screen_key in Hsc. destruct k as [[file ln] msg]. simpl in *.
  apply orb_false_iff in Hsc as [Hsc _].
  apply orb_false_iff in Hsc as [Hfile Hline].
  apply bool_decide_eq_false in Hfile. apply Z.leb_gt in Hline. done.
Qed.

(** X5 (the cap is a slice).  When a call under a cap that is not reached
    returns [out'], the same call under any cap [n] has the same effect on
    the store and returns [out'[:n]]: the first [n] comments for [n >= 0],
    all but the last [-n] for a negative [n]. *)
Theorem cap_is_slice pf sl mc mc' ms ma ps cf h h' out' n n' :
  build_inline_payload pf sl mc' ms ma ps cf h = (h', Ok out') →
  py_int mc' = Ok n' → Z.of_nat (length out') < n' →
  py_int mc = Ok n →
  build_inline_payload pf sl mc ms ma ps cf h = (h', Ok (slice_to n out')).
Proof.
  intros Hb Hn' Hlen Hn.
  apply build_inv in Hb as (n0 & m & h1 & fs & bk & full & Hn0 & Hm & Hg & Hf
                            & Hr & Hout).
  rewrite Hn' in Hn0. injection Hn0 as <-.
  assert (out' = full) as ->.
  { subst out'. unfold slice_to in *.
    destruct (0 <=? n') eqn:Hpos; [|apply Z.leb_gt in Hpos; lia].
    rewrite length_take in Hlen. apply take_ge. lia. }
  by eapply build_intro.
Qed.

(** X6 (no more comments than accepted findings).  A call that returns
    gives at most as many comments as findings of the working list pass the
    filters, hence none when none passes. *)
Theorem output_bounded pf sl mc ms ma ps cf h h' out :
  build_inline_payload pf sl mc ms ma ps cf h = (h', Ok out) →
  ∃ h1 fs,
    gather pf sl h = (h1, Ok fs)
    ∧ (length out ≤ length (accepted_keys (min_rank_of ms) cf h1 fs))%nat
    ∧ (length (accepted_keys (min_rank_of ms) cf h1 fs) ≤ length fs)%nat.
Proof.
  intros Hb.
  apply build_inv in Hb as (n & m & h1 & fs & bk & full & _ & Hm & Hg & Hf
                            & Hr & Hout).
  rewrite slice_to_take in Hout. subst out.
  apply render_all_emitted in Hr. apply Forall2_length in Hr.
  exists h1, fs. split_and!; [done | | apply accepted_keys_length].
  rewrite length_take, <- Hr.
  pose proof (length_filter
    (λ ke : key * entry, Z.max 1 m ≤ Z.of_nat (size (providers ke.2))) bk)
    as Hfl.
  fold (surviving (Z.max 1 m) bk) in Hfl.
  pose proof (first_seen_length
    (accepted_keys (min_rank_of ms) cf h1 fs) []) as Hfs.
  pose proof (fold_keys _ _ _ _ _ _ _ Hf) as Hk. simpl in Hk.
  rewrite <- Hk, length_fmap in Hfs. simpl in Hfs. lia.
Qed.

(** X7 (agreement threshold).  When a call whose cap is not reached returns
    [out], the same call under a higher [min_agree] has the same effect on
    the store and returns a sub-sequence of [out]; under any [min_agree] of
    at most 1 it returns [out] itself. *)
Theorem raising_min_agree pf sl mc ms ma ma' ps cf h h' out n m m' :
  build_inline_payload pf sl mc ms ma ps cf h = (h', Ok out) →
  py_int mc = Ok n → Z.of_nat (length out) < n →
  py_int ma = Ok m → py_int ma' = Ok m' → m ≤ m' →
  ∃ out',
    build_inline_payload pf sl mc ms ma' ps cf h = (h', Ok out')
    ∧ out' `sublist_of` out
    ∧ (m' ≤ 1 → out' = out).
Proof.
  intros Hb Hn Hlen Hm Hm' Hle.
  apply build_inv in Hb as (n0 & m0 & h1 & fs & bk & full & Hn0 & Hm0 & Hg
                            & Hf & Hr & Hout).
  rewrite Hn in Hn0. injection Hn0 as <-.
  rewrite Hm in Hm0. injection Hm0 as <-.
  assert (out = full) as ->.
  { subst out. unfold slice_to in *.
    destruct (0 <=? n) eqn:Hpos; [|apply Z.leb_gt in Hpos; lia].
    rewrite length_take in Hlen. apply take_ge. lia. }
  destruct (render_all_mono (Z.max 1 m) (Z.max 1 m') h' bk full ltac:(lia) Hr)
    as (full' & Hr' & Hsub).
  assert (slice_to n full' = full') as Hfull'.
  { apply sublist_length in Hsub. unfold slice_to.
    destruct (0 <=? n) eqn:Hpos; [|apply Z.leb_gt in Hpos; lia].
    apply take_ge. lia. }
  exists full'. split_and!.
  - rewrite <- Hfull'. by eapply build_intro.
  - done.
  - intros H1. rewrite !Z.max_l in * by lia. congruence.
Qed.

(** ** The pattern of provider names *)

Lemma append_nil_inv (s1 s2 : string) : s1 +:+ s2 = "" → s1 = "" ∧ s2 = "".
Proof. destruct s1; [done | discriminate]. Qed.

Lemma append_nil_r (s : string) : s +:+ "" = s.
Proof.
  induction s as [|c s IH]; [done|].
  change (String c (s +:+ "") = String c s). by rewrite IH.
Qed.

Lemma lang_nil_nullable r s : lang r s → s = "" → nullable r = true.
Proof.
  induction 1 as [|p c Hp|r1 r2 s1 s2 _ IH1 _ IH2|r1 r2 s _ IH|r1 r2 s _ IH
                 |r|r s1 s2 _ _ _ _]; simpl; intros Hs; try done.
  - apply append_nil_inv in Hs as [-> ->]. by rewrite IH1, IH2.
  - by rewrite IH.
  - rewrite IH by done. apply orb_true_r.
Qed.

Lemma nullable_lang r : nullable r = true → lang r "".
Proof.
  induction r as [| |p|r1 IH1 r2 IH2|r1 IH1 r2 IH2|r IH]; simpl; try done.
  - intros _. constructor.
  - intros [H1 H2]%andb_true_iff.
    change (lang (RCat r1 r2) ("" +:+ "")). constructor; auto.
  - intros [H1|H2]%orb_true_iff; [apply lang_alt_l | apply lang_alt_r]; auto.
  - intros _. constructor.
Qed.

Lemma lang_cat_inv r1 r2 s :
  lang (RCat r1 r2) s ↔ ∃ s1 s2, s = s1 +:+ s2 ∧ lang r1 s1 ∧ lang r2 s2.
Proof.
  split.
  - inversion 1; subst. eauto.
  - intros (s1 & s2 & -> & H1 & H2). by constructor.
Qed.

Lemma lang_alt_inv r1 r2 s : lang (RAlt r1 r2) s ↔ lang r1 s ∨ lang r2 s.
Proof.
  split.
  - inversion 1; subst; auto.
  - intros [H|H]; [by apply lang_alt_l | by apply lang_alt_r].
Qed.

Lemma deriv_sound c r s : lang (deriv c r) s → lang r (String c s).
Proof.
  revert s. induction r as [| |p|r1 IH1 r2 IH2|r1 IH1 r2 IH2|r IH];
    intros s; simpl.
  - inversion 1.
  - inversion 1.
  - destruct (p c) eqn:Hp; inversion 1; subst. by constructor.
  - intros H.
    assert (lang (RCat (deriv c r1) r2) s → lang (RCat r1 r2) (String c s))
      as Hcat.
    { intros (s1 & s2 & -> & H1 & H2)%lang_cat_inv.
      change (lang (RCat r1 r2) (String c s1 +:+ s2)). constructor; auto. }
    destruct (nullable r1) eqn:Hn; [|auto].
    apply lang_alt_inv in H as [H|H]; [auto|].
    change (lang (RCat r1 r2) ("" +:+ String c s)).
    constructor; [by apply nullable_lang | auto].
  - intros [H|H]%lang_alt_inv; [apply lang_alt_l | apply lang_alt_r]; auto.
  - intros (s1 & s2 & -> & H1 & H2)%lang_cat_inv.
    change (lang (RStar r) (String c s1 +:+ s2)). constructor; auto.
Qed.

Lemma deriv_complete c r t : lang r t → ∀ s, t = String c s → lang (deriv c r) s.
Proof.
  induction 1 as [|p c' Hp|r1 r2 s1 s2 H1 IH1 H2 IH2|r1 r2 s0 _ IH
                 |r1 r2 s0 _ IH|r|r s1 s2 H1 IH1 H2 IH2]; intros s Hs; simpl.
  - done.
  - injection Hs as -> <-. rewrite Hp. constructor.
  - destruct s1 as [|c1 s1].
    + rewrite (lang_nil_nullable _ _ H1 eq_refl). apply lang_alt_r. by apply IH2.
    + injection Hs as -> <-.
      assert (lang (RCat (deriv c r1) r2) (s1 +:+ s2)) as Hcat.
      { constructor; [by apply IH1 | done]. }
      destruct (nullable r1); [by apply lang_alt_l | done].
  - apply lang_alt_l. by apply IH.
  - apply lang_alt_r. by apply IH.
  - done.
  - destruct s1 as [|c1 s1]; [by apply IH2|].
    injection Hs as -> <-. constructor; [by apply IH1 | done].
Qed.

Lemma rmatch_lang r s : rmatch r s = true ↔ lang r s.
Proof.
  revert r. induction s as [|c s IH]; intros r; simpl.
  - split; [apply nullable_lang | intros H; by eapply lang_nil_nullable].
  - rewrite IH. split; [apply deriv_sound | intros H; by eapply deriv_complete].
Qed.

Lemma lang_opt_inv r s : lang (ROpt r) s ↔ s = "" ∨ lang r s.
Proof.
  unfold ROpt. rewrite lang_alt_inv. split.
  - intros [H|H]; [inversion H; by left | by right].
  - intros [->|H]; [left; constructor | by right].
Qed.

Lemma lang_lit_inv l s : lang (RLit l) s ↔ s = l.
Proof.
  revert s. induction l as [|c l IH]; intros s; simpl.
  - split; [by inversion 1 | intros ->; constructor].
  - rewrite lang_cat_inv. split.
    + intros (s1 & s2 & -> & H1 & H2). apply IH in H2 as ->.
      inversion H1 as [|p c' Hc| | | | |]; subst.
      apply Ascii.eqb_eq in Hc as ->. done.
    + intros ->. exists (String c ""), l. split_and!; [done | | by apply IH].
      constructor. apply Ascii.eqb_refl.
Qed.

Lemma lang_star_set_inv p s : lang (RStar (RSet p)) s ↔ string_all p s = true.
Proof.
  split.
  - intros H. remember (RStar (RSet p)) as r eqn:Hr.
    induction H as [| | | | |r0|r0 s1 s2 H1 _ H2 IH2]; try done.
    injection Hr as ->. inversion H1 as [|p' c Hc| | | | |]; subst.
    change (string_all p (String c s2) = true). simpl.
    by rewrite Hc, IH2.
  - induction s as [|c s IH]; simpl; [intros _; constructor|].
    intros [Hc Hs]%andb_true_iff.
    change (lang (RStar (RSet p)) (String c "" +:+ s)).
    constructor; [by constructor | by apply IH].
Qed.

Lemma lang_plus_set_inv p s :
  lang (RPlus (RSet p)) s ↔ s ≠ "" ∧ string_all p s = true.
Proof.
  unfold RPlus. rewrite lang_cat_inv. split.
  - intros (s1 & s2 & -> & H1 & H2). apply lang_star_set_inv in H2.
    inversion H1 as [|p' c Hc| | | | |]; subst. split; [done|].
    change (string_all p (String c s2) = true). simpl. by rewrite Hc, H2.
  - intros [Hne Hall]. destruct s as [|c s]; [done|]. simpl in Hall.
    apply andb_true_iff in Hall as [Hc Hs].
    exists (String c ""), s. split_and!; [done | by constructor |].
    by apply lang_star_set_inv.
Qed.

Lemma occurrences_app c s1 s2 :
  occurrences c (s1 +:+ s2) = (occurrences c s1 + occurrences c s2)%nat.
Proof.
  induction s1 as [|c1 s1 IH]; [done|].
  change (occurrences c (String c1 (s1 +:+ s2))
          = (occurrences c (String c1 s1) + occurrences c s2)%nat).
  simpl. rewrite IH. lia.
Qed.

Lemma occurrences_none p c s :
  string_all p s = true → p c = false → occurrences c s = 0%nat.
Proof.
  intros Hall Hc. induction s as [|c' s IH]; simpl; [done|].
  simpl in Hall. apply andb_true_iff in Hall as [Hc' Hs].
  destruct (Ascii.eqb c' c) eqn:He; [|by rewrite IH].
  apply Ascii.eqb_eq in He as ->. congruence.
Qed.

Lemma valid_shape name :
  validate_provider_name name = true ↔
  ∃ prefix model suffix last,
    (prefix = "opencode" ∨ prefix = "openrouter")
    ∧ model ≠ "" ∧ string_all name_char model = true
    ∧ (suffix = "" ∨ suffix = ":free")
    ∧ (last = "" ∨ last = nl)
    ∧ name = prefix +:+ "/" +:+ model +:+ suffix +:+ last.
Proof.
  unfold validate_provider_name, match_anchored, VALID_RE.
  rewrite rmatch_lang, lang_cat_inv. split.
  - intros (s & last & -> & Hs & Hlast).
    apply lang_opt_inv in Hlast. rewrite lang_lit_inv in Hlast.
    apply lang_cat_inv in Hs as (prefix & s1 & -> & Hp & Hs).
    apply lang_alt_inv in Hp. rewrite !lang_lit_inv in Hp.
    apply lang_cat_inv in Hs as (sl & s2 & -> & Hsl & Hs).
    apply lang_lit_inv in Hsl as ->.
    apply lang_cat_inv in Hs as (model & suffix & -> & Hm & Hsuf).
    apply lang_plus_set_inv in Hm as [Hne Hall].
    apply lang_opt_inv in Hsuf. rewrite lang_lit_inv in Hsuf.
    exists prefix, model, suffix, last. split_and!; try done.
    by rewrite !append_assoc.
  - intros (prefix & model & suffix & last & Hp & Hne & Hall & Hsuf & Hlast
            & ->).
    exists (prefix +:+ "/" +:+ model +:+ suffix), last. split_and!.
    + by rewrite !append_assoc.
    + constructor; [apply lang_alt_inv; by rewrite !lang_lit_inv|].
      constructor; [by apply lang_lit_inv|].
      constructor; [by apply lang_plus_set_inv|].
      apply lang_opt_inv. by rewrite lang_lit_inv.
    + apply lang_opt_inv. by rewrite lang_lit_inv.
Qed.

(** X8 (shape of a valid name).  [validate_provider_name] accepts exactly
    the names made of [opencode] or [openrouter], a slash, one or more
    characters of [[A-Za-z0-9._-]], an optional [:free], and an optional
    newline at the very end (the [$] of the pattern lets one through). *)
Theorem valid_name_shape name :
  validate_provider_name name = true ↔
  ∃ prefix model suffix last,
    (prefix = "opencode" ∨ prefix = "openrouter")
    ∧ model ≠ "" ∧ string_all name_char model = true
    ∧ (suffix = "" ∨ suffix = ":free")
    ∧ (last = "" ∨ last = nl)
    ∧ name = prefix +:+ "/" +:+ model +:+ suffix +:+ last.
Proof. apply valid_shape. Qed.

(** X9 (one slash, no blank).  A valid name has exactly one [/] and no
    space: a model path with a second slash never validates. *)
Theorem valid_name_one_slash name :
  validate_provider_name name = true →
  occurrences "/" name = 1%nat ∧ occurrences " " name = 0%nat.
Proof.
  intros (prefix & model & suffix & last & Hp & _ & Hall & Hsuf & Hlast & ->)
    %valid_shape.
  rewrite !occurrences_app.
  rewrite (occurrences_none name_char "/" model Hall eq_refl).
  rewrite (occurrences_none name_char " " model Hall eq_refl).
  destruct Hp as [-> | ->], Hsuf as [-> | ->], Hlast as [-> | ->]; done.
Qed.

(** ** Filtering of provider names *)

Lemma filter_loop_step a b p raw out :
  filter_loop a b (p :: raw) out
  = filter_loop a b raw
      (if passes a b p && negb (bool_decide (p ∈ out))
       then out ++ [p] else out).
Proof.
  unfold passes. simpl.
  destruct (validate_provider_name p); simpl; [|done].
  assert (negb (bool_decide (b = ∅)) && bool_decide (p ∈ b)
          = bool_decide (p ∈ b)) as ->.
  { destruct (bool_decide (b = ∅)) eqn:Hb; [|done]. simpl.
    apply bool_decide_eq_true in Hb. subst b. symmetry.
    apply bool_decide_eq_false, not_elem_of_empty. }
  destruct (bool_decide (a = ∅)), (bool_decide (p ∈ a)),
    (bool_decide (p ∈ b)), (bool_decide (p ∈ out)); done.
Qed.

Lemma filter_loop_elem a b raw out p :
  p ∈ filter_loop a b raw out ↔ p ∈ out ∨ (p ∈ raw ∧ passes a b p = true).
Proof.
  revert out. induction raw as [|q raw IH]; intros out.
  - simpl. split; [by left | intros [?|[?%elem_of_nil ?]]; done].
  - rewrite filter_loop_step, IH, elem_of_cons.
    destruct (passes a b q) eqn:Hq; simpl.
    + case_bool_decide as Hin; simpl.
      * split; [intros [?|[? ?]]; auto|].
        intros [?|[[-> | ?] ?]]; auto.
      * rewrite elem_of_app, list_elem_of_singleton.
        split; [intros [[? | ->]|[? ?]]; auto|].
        intros [?|[[-> | ?] ?]]; auto.
    + split; [intros [?|[? ?]]; auto|].
      intros [?|[[-> | ?] ?]]; auto. congruence.
Qed.

Lemma filter_loop_extends a b raw out :
  ∃ l, filter_loop a b raw out = out ++ l ∧ l `sublist_of` raw.
Proof.
  revert out. induction raw as [|q raw IH]; intros out.
  - exists []. by rewrite app_nil_r.
  - rewrite filter_loop_step.
    destruct (passes a b q && negb (bool_decide (q ∈ out))).
    + destruct (IH (out ++ [q])) as (l & -> & Hl). exists (q :: l).
      split; [by rewrite <- app_assoc | by apply sublist_skip].
    + destruct (IH out) as (l & -> & Hl). exists l.
      split; [done | by apply sublist_cons].
Qed.

Lemma filter_loop_NoDup a b raw out :
  NoDup out → NoDup (filter_loop a b raw out).
Proof.
  revert out. induction raw as [|q raw IH]; intros out Hnd; [done|].
  rewrite filter_loop_step. apply IH.
  destruct (passes a b q); simpl; [|done].
  case_bool_decide as Hin; simpl; [done|].
  apply NoDup_app. split_and!; [done | | apply NoDup_singleton].
  intros x Hx ->%list_elem_of_singleton. done.
Qed.

Lemma filter_loop_app a b r1 r2 out :
  filter_loop a b (r1 ++ r2) out = filter_loop a b r2 (filter_loop a b r1 out).
Proof.
  revert out. induction r1 as [|q r1 IH]; intros out; [done|].
  change ((q :: r1) ++ r2) with (q :: (r1 ++ r2)).
  by rewrite !filter_loop_step, IH.
Qed.

Lemma filter_loop_fixed a b l out :
  NoDup (out ++ l) → Forall (λ p, passes a b p = true) l →
  filter_loop a b l out = out ++ l.
Proof.
  revert out. induction l as [|q l IH]; intros out Hnd Hall.
  - by rewrite app_nil_r.
  - apply Forall_cons in Hall as [Hq Hall]. rewrite filter_loop_step, Hq.
    assert (q ∉ out) as Hin.
    { apply NoDup_app in Hnd as (_ & Hdis & _). intros Hin.
      apply (Hdis q Hin), list_elem_of_here. }
    rewrite bool_decide_eq_false_2 by done. simpl.
    rewrite IH; [by rewrite <- app_assoc | by rewrite <- app_assoc | done].
Qed.

Lemma passes_spec a b p :
  passes a b p = true ↔
  validate_provider_name p = true ∧ (a = ∅ ∨ p ∈ a) ∧ p ∉ b.
Proof.
  unfold passes.
  rewrite !andb_true_iff, orb_true_iff, negb_true_iff,
    !bool_decide_eq_true, bool_decide_eq_false. tauto.
Qed.

(** X10 (what gets through).  A name is in the result of
    [filter_providers] exactly when it is in [raw], matches the pattern,
    is on the stripped allowlist unless that is empty, and is not on the
    stripped blocklist. *)
Theorem filter_membership raw allowlist blocklist p :
  p ∈ filter_providers raw allowlist blocklist ↔
  p ∈ raw ∧ validate_provider_name p = true
  ∧ (strip_set allowlist = ∅ ∨ p ∈ strip_set allowlist)
  ∧ p ∉ strip_set blocklist.
Proof.
  unfold filter_providers. rewrite filter_loop_elem, passes_spec.
  split; [intros [?%elem_of_nil|?]; [done | tauto] | tauto].
Qed.

(** X11 (order and duplicates).  The result of [filter_providers] has no
    duplicate and keeps the names in the order of [raw]: it is [raw] with
    items left out. *)
Theorem filter_dedup_in_order raw allowlist blocklist :
  NoDup (filter_providers raw allowlist blocklist)
  ∧ filter_providers raw allowlist blocklist `sublist_of` raw.
Proof.
  unfold filter_providers. split; [apply filter_loop_NoDup, NoDup_nil_2|].
  destruct (filter_loop_extends (strip_set allowlist) (strip_set blocklist)
              raw []) as (l & -> & Hl). done.
Qed.

(** X12 (first occurrence decides the place).  Names appended to [raw]
    never reorder or remove what was selected before: the selection of
    [raw] is a prefix of the selection of [raw ++ more]. *)
Theorem filter_prefix_stable raw more allowlist blocklist :
  filter_providers raw allowlist blocklist
    `prefix_of` filter_providers (raw ++ more) allowlist blocklist.
Proof.
  unfold filter_providers. rewrite filter_loop_app.
  destruct (filter_loop_extends (strip_set allowlist) (strip_set blocklist)
              more (filter_loop (strip_set allowlist) (strip_set blocklist)
                      raw [])) as (l & -> & _).
  by exists l.
Qed.

(** X13 (filtering twice).  [filter_providers] applied to its own result,
    with the same lists, changes nothing. *)
Theorem filter_idempotent raw allowlist blocklist :
  filter_providers (filter_providers raw allowlist blocklist)
    allowlist blocklist
  = filter_providers raw allowlist blocklist.
Proof.
  unfold filter_providers.
  set (a := strip_set allowlist). set (b := strip_set blocklist).
  rewrite (filter_loop_fixed a b (filter_loop a b raw []) []); [done | |].
  - apply filter_loop_NoDup, NoDup_nil_2.
  - apply Forall_forall. intros p [?%elem_of_nil|[_ Hp]]%filter_loop_elem; done.
Qed.

(** X14 (the lists are stripped, the names are not).  A valid name that
    [strip] would change (the pattern lets a newline through at the end)
    gets past a blocklist that names it, and is dropped by an allowlist
    that names it. *)
Theorem lists_compared_stripped raw q :
  validate_provider_name q = true → str_strip q ≠ q → q ∈ raw →
  q ∈ filter_providers raw None (Some [q])
  ∧ (str_strip q ≠ "" → q ∉ filter_providers raw (Some [q]) None).
Proof.
  intros Hv Hne Hin. unfold filter_providers.
  rewrite !filter_loop_elem, !passes_spec.
  assert (∀ x, x ∈ strip_set (Some [q]) → x = str_strip q) as Hset.
  { intros x. unfold strip_set. simpl. rewrite elem_of_list_to_set.
    intros [_ Hx%list_elem_of_singleton]%list_elem_of_filter. done. }
  split.
  - right. split_and!; try done; [by left|].
    intros Hq%Hset. by apply Hne.
  - intros Hs [?%elem_of_nil|(_ & _ & [He|Hq] & _)]; [done | |].
    + assert (str_strip q ∈ strip_set (Some [q])) as Hmem.
      { unfold strip_set. simpl. apply elem_of_list_to_set, list_elem_of_filter.
        split; [done | apply list_elem_of_here]. }
      rewrite He in Hmem. by apply not_elem_of_empty in Hmem.
    + apply Hset in Hq. by apply Hne.
Qed.

(** ** Merging defaults and overrides *)

Lemma field_dict d defaults idx key :
  config_merge.field (VDict d) defaults idx key
  = Ok (merged_field d key (default "" (defaults !! idx))).
Proof.
  unfold config_merge.field, merged_field, dict_get_or. simpl.
  destruct (dict_lookup key d) as [v|]; simpl.
  - by destruct v.
  - by destruct (defaults !! idx).
Qed.

Lemma fields_dict d defaults keys idx :
  ∃ out, config_merge.fields (VDict d) defaults idx keys = Ok out
    ∧ length out = length keys
    ∧ ∀ i key, keys !! i = Some key →
        out !! i
        = Some (merged_field d key (default "" (defaults !! (idx + i)%nat))).
Proof.
  revert idx. induction keys as [|key keys IH]; intros idx.
  - exists []. split_and!; [done | done | intros i key Hi; done].
  - destruct (IH (S idx)) as (out & Hout & Hlen & Hget).
    exists (merged_field d key (default "" (defaults !! idx)) :: out).
    split_and!.
    + cbn [config_merge.fields]. rewrite field_dict. simpl. by rewrite Hout.
    + simpl. by rewrite Hlen.
    + intros [|i] key' Hi; simpl in *.
      * injection Hi as <-. by rewrite Nat.add_0_r.
      * rewrite (Hget i key' Hi). by rewrite Nat.add_succ_r.
Qed.



Lemma merged_field_unset d key dflt :
  dict_lookup key d = None → merged_field d key dflt = dflt.
Proof. unfold merged_field. by intros ->. Qed.

Lemma main_merge_dict argv text d :
  (14 ≤ length argv)%nat → argv !! 1%nat = Some text →
  config_merge.load_config text = VDict d →
  ∃ out, config_merge.main argv = Printed (String.concat " " out)
    ∧ length out = 12%nat
    ∧ ∀ i key, config_merge.FIELDS !! i = Some key →
        out !! i
        = Some (merged_field d key (default "" (argv !! (i + 2)%nat))).
Proof.
  intros Hlen Harg Hcfg. unfold config_merge.main.
  destruct (Nat.ltb_spec (length argv) (length config_merge.FIELDS + 2))
    as [Hlt|_]; [simpl in Hlt; lia|].
  rewrite Harg, Hcfg.
  destruct (fields_dict d (drop 2 argv) config_merge.FIELDS 0)
    as (out & -> & Hl & Hget).
  exists out. split_and!; [done | done |].
  intros i key Hi. rewrite (Hget i key Hi), lookup_drop. simpl.
  by rewrite (Nat.add_comm i 2).
Qed.


(** X16 (defaults pass through).  When the overrides are the empty text or
    a text that does not parse, the line printed is the first twelve
    defaults as given; arguments past them are ignored and the branch that
    would substitute an empty default is never taken. *)
Theorem merge_defaults_pass argv text :
  (14 ≤ length argv)%nat → argv !! 1%nat = Some text →
  text = "" ∨ json_loads text = None →
  config_merge.main argv = Printed (String.concat " " (take 12 (drop 2 argv))).
Proof.
  intros Hlen Harg Hbad.
  assert (config_merge.load_config text = VDict []) as Hcfg.
  { unfold config_merge.load_config. case_bool_decide; [done|].
    destruct Hbad as [? | ->]; done. }
  destruct (main_merge_dict argv text [] Hlen Harg Hcfg) as (out & -> & Hl & Hg).
  do 2 f_equal. apply list_eq_same_length with 12%nat;
    [rewrite length_take, length_drop; lia | done |].
  intros i x y Hi Hx Hy.
  destruct (lookup_lt_is_Some_2 config_merge.FIELDS i) as [key Hkey];
    [simpl; lia|].
  rewrite (Hg i key Hkey), merged_field_unset in Hx by done.
  rewrite lookup_take_lt, lookup_drop, (Nat.add_comm 2 i) in Hy by done.
  rewrite Hy in Hx. simpl in Hx. congruence.
Qed.

(** X17 (one field, one rule).  With overrides that parse to an object, the
    [i]-th field printed is the override under the [i]-th name of [FIELDS]
    if the object has that key (no text for [null], [str] of the value
    otherwise) and the [i]-th default if not; no other key of the object
    has any effect. *)
Theorem merge_field_rule argv text d :
  (14 ≤ length argv)%nat → argv !! 1%nat = Some text → text ≠ "" →
  json_loads text = Some (VDict d) →
  ∃ out, config_merge.main argv = Printed (String.concat " " out)
    ∧ length out = 12%nat
    ∧ ∀ i key dflt, config_merge.FIELDS !! i = Some key →
        argv !! (i + 2)%nat = Some dflt →
        out !! i = Some (merged_field d key dflt).
Proof.
  intros Hlen Harg Hne Hjs.
  assert (config_merge.load_config text = VDict d) as Hcfg.
  { unfold config_merge.load_config. rewrite bool_decide_eq_false_2 by done.
    by rewrite Hjs. }
  destruct (main_merge_dict argv text d Hlen Harg Hcfg) as (out & -> & Hl & Hg).
  exists out. split_and!; [done | done |].
  intros i key dflt Hkey Hd. by rewrite (Hg i key Hkey), Hd.
Qed.

(** ** Loading the settings *)

Lemma dict_set_fresh k v (d : pydict) :
  k ∉ d.*1 → dict_set k v d = d ++ [(k, v)].
Proof.
  induction d as [|[k' v'] d IH]; simpl; [done|].
  intros Hnin. apply not_elem_of_cons in Hnin as [Hne Hnin].
  rewrite decide_False by done. by rewrite IH.
Qed.

Lemma dict_set_typed k v (d : pydict) :
  export_typed (k, v) → Forall export_typed d →
  Forall export_typed (dict_set k v d).
Proof.
  intros Hv. induction 1 as [|[k' v'] d Hkv Hd IH]; simpl.
  - by repeat constructor.
  - destruct (decide (k' = k)); constructor; auto.
Qed.

Lemma sets_within fs env_key st st' :
  exports_within fs st → env_key ∉ fs → sets env_key st st' →
  exports_within (fs ++ [env_key]) st'.
Proof.
  intros [Hsub Hty] Hnin Hs. unfold exports_within.
  destruct Hs as [-> | (v & Hv & ->)].
  - split; [|done]. by apply sublist_inserts_r.
  - split; [|by apply dict_set_typed].
    rewrite dict_set_fresh.
    + rewrite fmap_app. simpl. apply sublist_app; [done|]. reflexivity.
    + intros Hin. apply Hnin. by eapply elem_of_sublist.
Qed.

Lemma sets_frame env_key env_key' st st' :
  sets env_key' st st' → env_key ≠ env_key' →
  dict_lookup env_key (config_loader.exports st')
  = dict_lookup env_key (config_loader.exports st).
Proof.
  intros [->|(v & _ & ->)] Hne; [done|]. by apply dict_lookup_set_ne.
Qed.

Lemma set_if_int_sets data key env_key st :
  env_key ∈ int_fields →
  sets env_key st
    (config_loader.set_if data key env_key config_loader.to_int st).
Proof.
  intros Hin. unfold config_loader.set_if.
  destruct (dict_lookup key data) as [val|]; [|by left].
  assert (sets env_key st
            match config_loader.apply_cast config_loader.to_int val with
            | Ok val' => config_loader.export env_key val' st
            | Raise _ =>
                config_loader.warn
                  (config_loader.warning key val config_loader.to_int) st
            end) as Hs.
  { simpl. destruct (py_int val) as [z|e]; simpl; [|by left].
    right. exists (VInt z). split; [|done].
    unfold export_typed. simpl. rewrite bool_decide_eq_true_2 by done. eauto. }
  destruct val; first [done | by left].
Qed.

Lemma set_if_str_sets data key env_key st :
  env_key ∉ int_fields →
  sets env_key st
    (config_loader.set_if data key env_key config_loader.to_str st).
Proof.
  intros Hin. unfold config_loader.set_if.
  destruct (dict_lookup key data) as [val|]; [|by left].
  assert (sets env_key st
            (config_loader.export env_key (VStr (fmt val)) st)) as Hs.
  { right. exists (VStr (fmt val)). split; [|done].
    unfold export_typed. simpl. rewrite bool_decide_eq_false_2 by done. eauto. }
  destruct val; first [done | by left].
Qed.

Lemma set_list_sets data key env_key st :
  env_key ∉ int_fields →
  sets env_key st (config_loader.set_list data key env_key st).
Proof.
  intros Hin. unfold config_loader.set_list.
  assert (∀ s, sets env_key st (config_loader.export env_key (VStr s) st))
    as Hs.
  { intros s. right. exists (VStr s). split; [|done].
    unfold export_typed. simpl. rewrite bool_decide_eq_false_2 by done. eauto. }
  destruct (dict_lookup key data) as [[]|]; first [by left | apply Hs].
Qed.

Lemma set_providers_sets data st :
  sets "REVIEW_PROVIDERS" st (config_loader.set_providers data st).
Proof.
  unfold config_loader.set_providers.
  assert (∀ s, sets "REVIEW_PROVIDERS" st
                 (config_loader.export "REVIEW_PROVIDERS" (VStr s) st)) as Hs.
  { intros s. right. exists (VStr s). split; [|done].
    unfold export_typed. simpl. eauto. }
  destruct (dict_get "providers" data); try (by left); try apply Hs.
  case_bool_decide; [by left | apply Hs].
Qed.

Lemma not_int_field env_key :
  bool_decide (env_key ∈ int_fields) = false → env_key ∉ int_fields.
Proof. apply bool_decide_eq_false. Qed.

Lemma is_int_field env_key :
  bool_decide (env_key ∈ int_fields) = true → env_key ∈ int_fields.
Proof. apply bool_decide_eq_true. Qed.

Lemma not_in_fields (env_key : string) (fs : list string) :
  bool_decide (env_key ∈ fs) = false → env_key ∉ fs.
Proof. apply bool_decide_eq_false. Qed.

Lemma collect_within data :
  exports_within config_merge.FIELDS (config_loader.collect data).
Proof.
  unfold config_loader.collect.
  eapply (sets_within (take 11 config_merge.FIELDS) "SKIP_LABELS");
    [|by apply not_in_fields | by apply set_list_sets, not_int_field].
  eapply (sets_within (take 10 config_merge.FIELDS) "PROVIDER_BLOCKLIST");
    [|by apply not_in_fields | by apply set_list_sets, not_int_field].
  eapply (sets_within (take 9 config_merge.FIELDS) "PROVIDER_ALLOWLIST");
    [|by apply not_in_fields | by apply set_list_sets, not_int_field].
  eapply (sets_within (take 8 config_merge.FIELDS) "MAX_CHANGED_FILES");
    [|by apply not_in_fields | by apply set_if_int_sets, is_int_field].
  eapply (sets_within (take 7 config_merge.FIELDS) "MIN_CHANGED_LINES");
    [|by apply not_in_fields | by apply set_if_int_sets, is_int_field].
  eapply (sets_within (take 6 config_merge.FIELDS) "RUN_TIMEOUT_SECONDS");
    [|by apply not_in_fields | by apply set_if_int_sets, is_int_field].
  eapply (sets_within (take 5 config_merge.FIELDS) "DIFF_MAX_BYTES");
    [|by apply not_in_fields | by apply set_if_int_sets, is_int_field].
  eapply (sets_within (take 4 config_merge.FIELDS) "INLINE_MIN_AGREEMENT");
    [|by apply not_in_fields | by apply set_if_int_sets, is_int_field].
  eapply (sets_within (take 3 config_merge.FIELDS) "INLINE_MIN_SEVERITY");
    [|by apply not_in_fields | by apply set_if_str_sets, not_int_field].
  eapply (sets_within (take 2 config_merge.FIELDS) "INLINE_MAX_COMMENTS");
    [|by apply not_in_fields | by apply set_if_int_sets, is_int_field].
  eapply (sets_within (take 1 config_merge.FIELDS) "SYNTHESIS_MODEL");
    [|by apply not_in_fields | by apply set_if_str_sets, not_int_field].
  eapply (sets_within [] "REVIEW_PROVIDERS");
    [|by apply not_in_fields | apply set_providers_sets].
  split; [reflexivity | constructor].
Qed.

Lemma main_loader_inv load_yaml load_json argv ex err :
  config_loader.main load_yaml load_json argv = (Some ex, err) →
  ∃ path d, argv !! 1%nat = Some path
    ∧ document load_yaml load_json path = VDict d
    ∧ ex = config_loader.exports (config_loader.collect d)
    ∧ err = config_loader.stderr (config_loader.collect d).
Proof.
  unfold config_loader.main, document. intros Hm.
  destruct (argv !! 1%nat) as [path|]; [|done].
  exists path.
  destruct (load_yaml path) as [| | | | |d]; simpl in *;
    try done; [|injection Hm as <- <-; by exists d].
  destruct (load_json path) as [| | | | |d]; try done.
  injection Hm as <- <-. by exists d.
Qed.

Lemma main_document load_yaml load_json argv path :
  argv !! 1%nat = Some path →
  config_loader.main load_yaml load_json argv
  = match document load_yaml load_json path with
    | VDict d =>
        (Some (config_loader.exports (config_loader.collect d)),
         config_loader.stderr (config_loader.collect d))
    | _ => (None, [])
    end.
Proof.
  intros Hp. unfold config_loader.main, document. rewrite Hp.
  destruct (load_yaml path); try done.
Qed.

(** X18 (what the loader exports).  The object [config_loader] prints has
    only names of [FIELDS] as keys, each once and in the order of
    [FIELDS]; the six numeric fields hold integers and every other field a
    string. *)
Theorem loader_exports_shape load_yaml load_json argv ex err :
  config_loader.main load_yaml load_json argv = (Some ex, err) →
  ex.*1 `sublist_of` config_merge.FIELDS ∧ Forall export_typed ex.
Proof.
  intros (path & d & _ & _ & -> & _)%main_loader_inv. apply collect_within.
Qed.

Lemma set_if_int_stderr data key env_key st :
  config_loader.stderr
    (config_loader.set_if data key env_key config_loader.to_int st)
  = config_loader.stderr st ++ cast_warning data key.
Proof.
  unfold config_loader.set_if, cast_warning, dict_get.
  destruct (dict_lookup key data) as [val|]; simpl; [|by rewrite app_nil_r].
  destruct val; simpl; try (by rewrite app_nil_r); try done.
  destruct (int_of_str s); simpl; [by rewrite app_nil_r | done].
Qed.

Lemma set_if_str_stderr data key env_key st :
  config_loader.stderr
    (config_loader.set_if data key env_key config_loader.to_str st)
  = config_loader.stderr st.
Proof.
  unfold config_loader.set_if.
  by destruct (dict_lookup key data) as [[]|].
Qed.

Lemma set_list_stderr data key env_key st :
  config_loader.stderr (config_loader.set_list data key env_key st)
  = config_loader.stderr st.
Proof.
  unfold config_loader.set_list.
  by destruct (dict_lookup key data) as [[]|].
Qed.

Lemma set_providers_stderr data st :
  config_loader.stderr (config_loader.set_providers data st)
  = config_loader.stderr st.
Proof.
  unfold config_loader.set_providers.
  destruct (dict_get "providers" data); try done. by case_bool_decide.
Qed.

Lemma set_if_frame data key env_key' c st env_key :
  env_key ≠ env_key' →
  dict_lookup env_key
    (config_loader.exports (config_loader.set_if data key env_key' c st))
  = dict_lookup env_key (config_loader.exports st).
Proof.
  intros Hne. unfold config_loader.set_if.
  destruct (dict_lookup key data) as [val|]; [|done].
  assert (dict_lookup env_key
            (config_loader.exports
               match config_loader.apply_cast c val with
               | Ok val' => config_loader.export env_key' val' st
               | Raise _ =>
                   config_loader.warn (config_loader.warning key val c) st
               end)
          = dict_lookup env_key (config_loader.exports st)) as Hs.
  { destruct (config_loader.apply_cast c val); simpl; [|done].
    by apply dict_lookup_set_ne. }
  by destruct val.
Qed.

Lemma set_list_frame data key env_key' st env_key :
  env_key ≠ env_key' →
  dict_lookup env_key
    (config_loader.exports (config_loader.set_list data key env_key' st))
  = dict_lookup env_key (config_loader.exports st).
Proof.
  intros Hne. unfold config_loader.set_list.
  destruct (dict_lookup key data) as [[]|]; simpl; try done;
    by apply dict_lookup_set_ne.
Qed.

Lemma set_providers_frame data st env_key :
  env_key ≠ "REVIEW_PROVIDERS" →
  dict_lookup env_key
    (config_loader.exports (config_loader.set_providers data st))
  = dict_lookup env_key (config_loader.exports st).
Proof.
  intros Hne. unfold config_loader.set_providers.
  destruct (dict_get "providers" data); simpl; try done;
    [|by apply dict_lookup_set_ne].
  case_bool_decide; simpl; [done | by apply dict_lookup_set_ne].
Qed.

Lemma set_if_int_lookup data key env_key st :
  dict_lookup env_key
    (config_loader.exports
       (config_loader.set_if data key env_key config_loader.to_int st))
  = match dict_get key data with
    | VNone => dict_lookup env_key (config_loader.exports st)
    | val =>
        match py_int val with
        | Ok z => Some (VInt z)
        | Raise _ => dict_lookup env_key (config_loader.exports st)
        end
    end.
Proof.
  unfold config_loader.set_if, dict_get.
  destruct (dict_lookup key data) as [val|]; simpl; [|done].
  destruct val; simpl; try done; try apply dict_lookup_set_eq.
  destruct (int_of_str s); simpl; [apply dict_lookup_set_eq | done].
Qed.

(** The exported value of an [int] setting. *)
Lemma collect_int_rule data :
  Forall (λ ke : string * string,
    dict_lookup ke.2 (config_loader.exports (config_loader.collect data))
    = match dict_get ke.1 data with
      | VNone => None
      | val => match py_int val with Ok z => Some (VInt z) | Raise _ => None end
      end) int_pairs.
Proof.
  unfold int_pairs, int_settings, int_fields, config_loader.collect.
  repeat constructor; simpl;
    rewrite ?set_list_frame, ?set_if_frame by done;
    rewrite set_if_int_lookup;
    rewrite ?set_if_frame, ?set_providers_frame by done;
    done.
Qed.

Lemma collect_stderr data :
  config_loader.stderr (config_loader.collect data)
  = mjoin (cast_warning data <$> int_settings).
Proof.
  unfold config_loader.collect, int_settings.
  rewrite !set_list_stderr.
  repeat first [rewrite set_if_int_stderr | rewrite set_if_str_stderr].
  rewrite set_providers_stderr. simpl.
  by rewrite <- !app_assoc, app_nil_r.
Qed.

Lemma set_if_ext d1 d2 key env_key c st :
  dict_get key d1 = dict_get key d2 →
  config_loader.set_if d1 key env_key c st
  = config_loader.set_if d2 key env_key c st.
Proof.
  unfold config_loader.set_if, dict_get.
  destruct (dict_lookup key d1) as [v1|], (dict_lookup key d2) as [v2|];
    simpl; intros Heq; subst; done.
Qed.

Lemma set_list_ext d1 d2 key env_key st :
  dict_get key d1 = dict_get key d2 →
  config_loader.set_list d1 key env_key st
  = config_loader.set_list d2 key env_key st.
Proof.
  unfold config_loader.set_list, dict_get.
  destruct (dict_lookup key d1) as [v1|], (dict_lookup key d2) as [v2|];
    simpl; intros Heq; subst; done.
Qed.

Lemma collect_ext d1 d2 :
  (∀ key, dict_get key d1 = dict_get key d2) →
  config_loader.collect d1 = config_loader.collect d2.
Proof.
  intros Heq. unfold config_loader.collect, config_loader.set_providers.
  rewrite (Heq "providers").
  repeat first [rewrite (set_list_ext d1 d2) by apply Heq
               |rewrite (set_if_ext d1 d2) by apply Heq].
  done.
Qed.

(** X19 (warnings).  What the loader writes to standard error is one
    warning for each numeric setting, taken in the order of the calls, that
    is present, not null and refused by [int]; the string and list settings
    never produce one, and a run that prints nothing warns of nothing. *)
Theorem loader_warnings load_yaml load_json argv out err :
  config_loader.main load_yaml load_json argv = (out, err) →
  match out with
  | None => err = []
  | Some _ =>
      ∃ path d, argv !! 1%nat = Some path
        ∧ document load_yaml load_json path = VDict d
        ∧ err = mjoin (cast_warning d <$> int_settings)
  end.
Proof.
  destruct out as [ex|].
  - intros (path & d & Hp & Hd & _ & ->)%main_loader_inv.
    exists path, d. by rewrite collect_stderr.
  - unfold config_loader.main.
    destruct (argv !! 1%nat) as [path|]; [|by intros [= <-]].
    destruct (load_yaml path); try (by intros [= <-]).
    destruct (load_json path); by intros [= <-].
Qed.

(** X20 (a numeric setting).  For each of the six numeric settings the
    printed object has the field exactly when the document holds a value
    for it that is not null and that [int] accepts, and then holds the
    integer; a value [int] refuses leaves the field out and does not stop
    the other settings. *)
Theorem loader_int_rule load_yaml load_json argv ex err :
  config_loader.main load_yaml load_json argv = (Some ex, err) →
  ∃ path d, argv !! 1%nat = Some path
    ∧ document load_yaml load_json path = VDict d
    ∧ ∀ key env_key, (key, env_key) ∈ int_pairs →
        dict_lookup env_key ex
        = match dict_get key d with
          | VNone => None
          | val =>
              match py_int val with Ok z => Some (VInt z) | Raise _ => None end
          end.
Proof.
  intros (path & d & Hp & Hd & -> & _)%main_loader_inv.
  exists path, d. split_and!; [done | done |].
  intros key env_key Hin.
  exact (proj1 (Forall_forall _ _) (collect_int_rule d) (key, env_key) Hin).
Qed.

(** X21 (null is absent).  The loader reads the document only through the
    value under each key, and takes a null value for a missing one: two
    documents whose [get] agree on every key give the same output and the
    same warnings. *)
Theorem loader_null_is_absent load_yaml load_json load_yaml' load_json'
    argv path d1 d2 :
  argv !! 1%nat = Some path →
  document load_yaml load_json path = VDict d1 →
  document load_yaml' load_json' path = VDict d2 →
  (∀ key, dict_get key d1 = dict_get key d2) →
  config_loader.main load_yaml load_json argv
  = config_loader.main load_yaml' load_json' argv.
Proof.
  intros Hp H1 H2 Heq.
  rewrite (main_document load_yaml load_json argv path Hp), H1.
  rewrite (main_document load_yaml' load_json' argv path Hp), H2.
  by rewrite (collect_ext d1 d2 Heq).
Qed.

(** X22 (from the document to the line).  When [config_merge] is given the
    object the loader printed, it always prints a line, and the field of a
    numeric setting is [str(int(v))] for a document value [v] that [int]
    accepts and the default in every other case: a missing, null or
    unreadable number falls back to the default. *)
Theorem loader_then_merge load_yaml load_json largv ex err prog text defaults :
  config_loader.main load_yaml load_json largv = (Some ex, err) →
  text ≠ "" → json_loads text = Some (VDict ex) →
  (12 ≤ length defaults)%nat →
  ∃ path d out, largv !! 1%nat = Some path
    ∧ document load_yaml load_json path = VDict d
    ∧ config_merge.main (prog :: text :: defaults)
      = Printed (String.concat " " out)
    ∧ ∀ i key env_key dflt, (key, env_key) ∈ int_pairs →
        config_merge.FIELDS !! i = Some env_key →
        defaults !! i = Some dflt →
        out !! i = Some (int_field d key dflt).
Proof.
  intros (path & d & Hp & Hd & -> & _)%main_loader_inv Hne Hjs Hlen.
  assert (config_merge.load_config text
          = VDict (config_loader.exports (config_loader.collect d))) as Hcfg.
  { unfold config_merge.load_config. rewrite bool_decide_eq_false_2 by done.
    by rewrite Hjs. }
  destruct (main_merge_dict (prog :: text :: defaults) text _
              ltac:(simpl; lia) eq_refl Hcfg) as (out & Hm & _ & Hg).
  exists path, d, out. split_and!; [done | done | done |].
  intros i key env_key dflt Hin Hkey Hd'.
  rewrite (Hg i env_key Hkey). rewrite Nat.add_comm. simpl. rewrite Hd'. simpl.
  f_equal. unfold merged_field, int_field.
  pose proof (proj1 (Forall_forall _ _) (collect_int_rule d) (key, env_key)
                Hin) as Hrule.
  simpl in Hrule. rewrite Hrule.
  destruct (dict_get key d); simpl; try done.
  by destruct (int_of_str s).
Qed.

Lemma collect_providers data :
  dict_lookup "REVIEW_PROVIDERS"
    (config_loader.exports (config_loader.collect data))
  = match dict_get "providers" data with
    | VList providers =>
        Some (VStr (config_loader.join_commas
                      (filter (λ p, truthy p) providers)))
    | VStr providers =>
        if bool_decide (str_strip providers = "") then None
        else Some (VStr providers)
    | _ => None
    end.
Proof.
  unfold config_loader.collect.
  rewrite !set_list_frame, !set_if_frame by done.
  unfold config_loader.set_providers.
  destruct (dict_get "providers" data); simpl; try done.
  by case_bool_decide.
Qed.

Lemma filter_falsy (providers : list pyval) :
  Forall (λ p, truthy p = false) providers →
  filter (λ p, truthy p) providers = [].
Proof.
  induction 1 as [|p providers Hp _ IH]; [done|].
  rewrite filter_cons_False; [done|]. by apply Is_true_false_2.
Qed.

(** X27 (an empty list of providers).  From the document to the line, the
    first field treats an empty setting in two ways: a [providers] list
    with no truthy entry is exported as the empty text and erases the
    default, while a blank [providers] string is not exported and leaves
    the default in place. *)
Theorem empty_providers_erase_default load_yaml load_json largv ex err prog
    text dflt defaults :
  config_loader.main load_yaml load_json largv = (Some ex, err) →
  text ≠ "" → json_loads text = Some (VDict ex) →
  (11 ≤ length defaults)%nat →
  ∃ path d out, largv !! 1%nat = Some path
    ∧ document load_yaml load_json path = VDict d
    ∧ config_merge.main (prog :: text :: dflt :: defaults)
      = Printed (String.concat " " out)
    ∧ (∀ providers, dict_get "providers" d = VList providers →
         Forall (λ p, truthy p = false) providers → out !! 0%nat = Some "")
    ∧ (∀ providers, dict_get "providers" d = VStr providers →
         str_strip providers = "" → out !! 0%nat = Some dflt).
Proof.
  intros (path & d & Hp & Hd & -> & _)%main_loader_inv Hne Hjs Hlen.
  assert (config_merge.load_config text
          = VDict (config_loader.exports (config_loader.collect d))) as Hcfg.
  { unfold config_merge.load_config. rewrite bool_decide_eq_false_2 by done.
    by rewrite Hjs. }
  destruct (main_merge_dict (prog :: text :: dflt :: defaults) text _
              ltac:(simpl; lia) eq_refl Hcfg) as (out & Hm & _ & Hg).
  exists path, d, out. split_and!; [done | done | done | |].
  - intros providers Hget Hall.
    rewrite (Hg 0%nat "REVIEW_PROVIDERS" eq_refl). simpl.
    unfold merged_field. rewrite collect_providers, Hget.
    by rewrite filter_falsy.
  - intros providers Hget Hblank.
    rewrite (Hg 0%nat "REVIEW_PROVIDERS" eq_refl). simpl.
    unfold merged_field. rewrite collect_providers, Hget.
    by rewrite bool_decide_eq_true_2.
Qed.

(** ** Building the prompt *)

Section Prompt.

Variable isfile : string → bool.
Variable read_text : string → option string.
Variable splitlines : string → list string.

Lemma foldl_changed_file files : ∀ lines,
  ∃ items,
    foldl prompt_builder.changed_file lines files = lines ++ items
    ∧ length items = length (filter (λ v, is_object v) files)
    ∧ Forall (λ l, ∃ rest, l = "- " +:+ rest) items.
Proof.
  induction files as [|f files IH]; intros lines.
  - exists []. by rewrite app_nil_r.
  - cbn [foldl].
    destruct (IH (prompt_builder.changed_file lines f))
      as (items & -> & Hlen & Hall).
    destruct (is_object f) eqn:Hf.
    + destruct f as [| | | | |d]; try done.
      eexists (_ :: items). split_and!.
      * unfold prompt_builder.changed_file. rewrite <- app_assoc. reflexivity.
      * rewrite filter_cons_True by by rewrite Hf. simpl. by rewrite Hlen.
      * constructor; [|done]. eexists. reflexivity.
    + exists items. split_and!; [by destruct f | | done].
      rewrite filter_cons_False; [done|]. by apply Is_true_false_2.
Qed.

Lemma foldl_entries (entries : list string) : ∀ lines,
  foldl (λ lines e, lines ++ ["- " +:+ e]) lines entries
  = lines ++ (String.append "- " <$> entries).
Proof.
  induction entries as [|e entries IH]; intros lines; simpl.
  - by rewrite app_nil_r.
  - by rewrite IH, <- app_assoc.
Qed.

Lemma append_changed_files_inv lines path :
  ∃ extra,
    prompt_builder.append_changed_files read_text lines path = lines ++ extra
    ∧ match prompt_builder.load_json read_text path with
      | VList (f :: files) =>
          ∃ items,
            extra = "" :: "## Changed Files" :: items
            ∧ length items = length (filter (λ v, is_object v) (f :: files))
            ∧ Forall (λ l, ∃ rest, l = "- " +:+ rest) items
      | _ => extra = []
      end.
Proof.
  unfold prompt_builder.append_changed_files.
  destruct (prompt_builder.load_json read_text path) as [| | | |[|f files]|];
    try (exists []; by rewrite app_nil_r).
  destruct (foldl_changed_file (f :: files) (lines ++ [""; "## Changed Files"]))
    as (items & -> & Hlen & Hall).
  exists ("" :: "## Changed Files" :: items). split.
  - by rewrite <- app_assoc.
  - by exists items.
Qed.

Lemma append_missing_tests_inv lines path :
  ∃ entries,
    Forall (λ e, e ≠ "") entries
    ∧ prompt_builder.append_missing_tests isfile read_text splitlines lines path
      = lines ++ match entries with
                 | [] => []
                 | _ => "" :: "## Possible missing tests"
                        :: (String.append "- " <$> entries)
                 end.
Proof.
  unfold prompt_builder.append_missing_tests.
  destruct (bool_decide (path = "") || negb (isfile path));
    [exists []; by rewrite app_nil_r|].
  destruct (read_text path) as [text|]; [|exists []; by rewrite app_nil_r].
  exists (str_strip <$> filter (λ ln, str_strip ln ≠ "") (splitlines text)).
  split.
  - apply Forall_fmap, Forall_forall. intros ln Hin.
    by apply list_elem_of_filter in Hin as [Hne _].
  - destruct (str_strip <$> _) as [|e entries]; [by rewrite app_nil_r|].
    by rewrite foldl_entries, <- app_assoc.
Qed.



(** X23 (number of arguments).  [prompt_builder] leaves quietly with status
    0 when fewer than eight arguments follow the script name, and writes the
    prompt to its first argument when at least ten do; with eight or nine
    it passes its own guard and dies on the [ValueError] of the unpacking,
    writing nothing. *)
Theorem prompt_arity argv :
  match prompt_builder.main isfile read_text splitlines argv with
  | prompt_builder.Quit code => code = 0 ∧ (length argv < 9)%nat
  | prompt_builder.Failed e =>
      e = ValueError ∧ (9 ≤ length argv < 11)%nat
  | prompt_builder.Wrote path _ =>
      (11 ≤ length argv)%nat ∧ argv !! 1%nat = Some path
  end.
Proof.
  unfold prompt_builder.main.
  do 11 (destruct argv as [|? argv]; [simpl; split; (done || lia)|]).
  simpl. split; [lia | done].
Qed.

(** X24 (the changed files).  [append_changed_files] only appends; it adds
    nothing unless the file holds a non-empty JSON list, and then adds the
    heading followed by one [- ...] line for each entry that is an object:
    other entries are skipped, and the heading stays even when every entry
    is. *)
Theorem changed_files_lines lines path :
  ∃ extra,
    prompt_builder.append_changed_files read_text lines path = lines ++ extra
    ∧ match prompt_builder.load_json read_text path with
      | VList (f :: files) =>
          ∃ items,
            extra = "" :: "## Changed Files" :: items
            ∧ length items = length (filter (λ v, is_object v) (f :: files))
            ∧ Forall (λ l, ∃ rest, l = "- " +:+ rest) items
      | _ => extra = []
      end.
Proof. apply append_changed_files_inv. Qed.

(** X25 (possible missing tests).  [append_missing_tests] only appends:
    nothing, or the heading followed by one [- e] line for each entry; no
    entry is empty, and there is no heading without an entry. *)
Theorem missing_tests_lines lines path :
  ∃ entries,
    Forall (λ e, e ≠ "") entries
    ∧ prompt_builder.append_missing_tests isfile read_text splitlines lines path
      = lines ++ match entries with
                 | [] => []
                 | _ => "" :: "## Possible missing tests"
                        :: (String.append "- " <$> entries)
                 end.
Proof. apply append_missing_tests_inv. Qed.


End Prompt.

End Properties.

(** * The source's tests, witnesses and counterexamples *)

Section Examples.

Existing Instance ascii_lib.

(** The ASCII instance on a few texts. *)
Example ascii_strip_examples :
  ascii_strip "  a.py " = "a.py" ∧ ascii_strip "   " = ""
  ∧ ascii_strip "" = "" ∧ ascii_strip "Bug  A" = "Bug  A".
Proof. vm_compute. done. Qed.

Example ascii_lower_examples :
  ascii_lower "Bug A" = "bug a" ∧ ascii_lower "MAJOR" = "major"
  ∧ ascii_lower "" = "".
Proof. vm_compute. done. Qed.

Example dec_int_examples :
  dec_int " 10 " = Some 10 ∧ dec_int "-5" = Some (-5)
  ∧ dec_int "+7" = Some 7 ∧ dec_int "1_000" = Some 1000
  ∧ dec_int "" = None ∧ dec_int "ten" = None ∧ dec_int "1__0" = None
  ∧ dec_int "_1" = None ∧ dec_int "1_" = None ∧ dec_int "- 5" = None
  ∧ dec_int "1.5" = None.
Proof. vm_compute. done. Qed.

(** [test_consensus_min_agree] *)
Example test_consensus_min_agree :
  run [ record "a.py" 10 "major" "Bug A" "msg" "fix" "p1";
        record "a.py" 10 "major" "Bug A" "msg" "fix2" "p2";
        record "a.py" 20 "major" "Solo" "msg" "fix3" "p3" ]
      [0; 1; 2]%nat no_findings_text 5 "minor" 2 {["a.py"]}
  = ([ record "a.py" 10 "major" "Bug A" "msg" "fix" "p1";
       record "a.py" 10 "major" "Bug A" "msg" "fix2" "p2";
       record "a.py" 20 "major" "Solo" "msg" "fix3" "p3" ],
     Ok [ {| path := "a.py"; line := 10; side := "RIGHT";
             body := "**major**: Bug A" +:+ nl +:+ "msg" +:+ nl
                     +:+ "```suggestion" +:+ nl +:+ "fix" +:+ nl
                     +:+ "```" |} ]).
Proof. vm_compute. reflexivity. Qed.

(** [test_placeholder_suggestion] *)
Example test_placeholder_suggestion :
  (run [ record "b.py" 5 "major" "Missing" "msg" "" "p1";
         record "b.py" 5 "major" "Missing" "msg" "" "p2" ]
       [0; 1]%nat "" 5 "minor" 2 {["b.py"]}).2
  = Ok [ {| path := "b.py"; line := 5; side := "RIGHT";
            body := "**major**: Missing" +:+ nl +:+ "msg" +:+ nl
                    +:+ "```suggestion" +:+ nl +:+ placeholder +:+ nl
                    +:+ "```" |} ].
Proof. vm_compute. reflexivity. Qed.

(** [test_empty_inputs_no_crash] *)
Example test_empty_inputs_no_crash :
  run [] [] "" 5 "minor" 2 ∅ = ([], Ok []).
Proof. vm_compute. reflexivity. Qed.

(** [test_invalid_json_struct_line] *)
Example test_invalid_json_struct_line :
  (run [ record "c.py" 1 "critical" "T1" "m" "s" "p1";
         record "c.py" 1 "critical" "T1" "m" "s" "p2" ]
       [0; 1]%nat "{invalid json" 5 "minor" 2 {["c.py"]}).2
  = Ok [ {| path := "c.py"; line := 1; side := "RIGHT";
            body := "**critical**: T1" +:+ nl +:+ "m" +:+ nl
                    +:+ "```suggestion" +:+ nl +:+ "s" +:+ nl
                    +:+ "```" |} ].
Proof. vm_compute. reflexivity. Qed.

(** The call of the examples, stage by stage. *)
Example reports_call_eq : reports_call = (reports_after, Ok reports_comments).
Proof. vm_compute. reflexivity. Qed.

Example reports_gather_eq :
  gather [0; 1; 2; 3; 4]%nat one_finding_text reports
  = (reports_gathered, Ok [0; 1; 2; 3; 4; 5]%nat).
Proof. vm_compute. reflexivity. Qed.

Example reports_loop_eq :
  foldM (visit (min_rank_of "minor") {["a.py"]}) [0; 1; 2; 3; 4; 5]%nat []
        reports_gathered
  = (reports_after, Ok reports_by_key).
Proof. vm_compute. reflexivity. Qed.

(** A [findings] value that is a number, or a list holding a number, is
    not caught by lines 14-21 and raises at lines 33-34. *)
Example findings_not_a_list_of_dicts :
  run [] [] number_findings_text 5 "minor" 1 ∅ = ([], Raise TypeError)
  ∧ run [] [] scalar_record_text 5 "minor" 1 ∅
    = ([VInt 7], Raise AttributeError)
  ∧ run [] [] bare_list_text 5 "minor" 1 ∅ = ([], Ok []).
Proof. vm_compute. done. Qed.

(** C1, counterexample: a record that is no dict, and a dict whose title is
    a number, each make the call raise. *)
Lemma raises_on_untyped_record :
  build_inline_payload [0%nat] "" (VInt 5) "minor" (VInt 1) [] ∅ [VInt 7]
  = ([VInt 7], Raise AttributeError)
  ∧ build_inline_payload [0%nat] "" (VInt 5) "minor" (VInt 1) [] ∅
      [numeric_title]
    = ([numeric_title], Raise AttributeError).
Proof. vm_compute. done. Qed.

(** C1, witness: the reports and the structured finding of the examples. *)
Lemma returns_on_typed_records_witness :
  py_int (VInt 5) = Ok 5 ∧ py_int (VInt 2) = Ok 2
  ∧ tolerated one_finding_text [parsed_finding]
  ∧ Forall (λ v, well_typed v = true) [parsed_finding]
  ∧ Forall (λ l, well_typed (deref reports l) = true) [0; 1; 2; 3; 4]%nat
  ∧ ∃ h' out,
      build_inline_payload [0; 1; 2; 3; 4]%nat one_finding_text (VInt 5)
        "minor" (VInt 2) [] {["a.py"]} reports = (h', Ok out).
Proof.
  assert (tolerated one_finding_text [parsed_finding]) as Htol.
  { eapply tolerated_findings; reflexivity. }
  assert (Forall (λ v, well_typed v = true) [parsed_finding]) as Hit.
  { repeat constructor. }
  assert (Forall (λ l, well_typed (deref reports l) = true)
                 [0; 1; 2; 3; 4]%nat) as Hpf.
  { repeat constructor. }
  split_and!; try done.
  exact (returns_on_typed_records [0; 1; 2; 3; 4]%nat one_finding_text
           (VInt 5) "minor" (VInt 2) [] {["a.py"]} reports
           [parsed_finding] 5 2 eq_refl eq_refl Htol Hit Hpf).
Defined.

(** C2, witness. *)
Lemma agreement_floor_witness :
  reports_call = (reports_after, Ok reports_comments)
  ∧ ∃ m h1 fs bk sel,
      py_int (VInt 2) = Ok m
      ∧ gather [0; 1; 2; 3; 4]%nat one_finding_text reports = (h1, Ok fs)
      ∧ foldM (visit (min_rank_of "minor") {["a.py"]}) fs [] h1
        = (reports_after, Ok bk)
      ∧ sel `sublist_of` bk
      ∧ emitted reports_after sel reports_comments
      ∧ Forall (λ ke,
          Z.max 1 m ≤ Z.of_nat (size (providers ke.2))
          ∧ ∀ p, p ∈ providers ke.2 ↔
                 ∃ f, f ∈ fs
                      ∧ backs (min_rank_of "minor") {["a.py"]} h1 f ke.1 p)
          sel.
Proof.
  assert (reports_call = (reports_after, Ok reports_comments)) as Hcall.
  { vm_compute. reflexivity. }
  split; [exact Hcall|].
  exact (agreement_floor [0; 1; 2; 3; 4]%nat one_finding_text (VInt 5)
           "minor" (VInt 2) [] {["a.py"]} reports reports_after
           reports_comments Hcall).
Defined.

(** C3, witness. *)
Lemma emitted_keys_distinct_witness :
  reports_call = (reports_after, Ok reports_comments)
  ∧ ∃ h1 fs bk sel,
      gather [0; 1; 2; 3; 4]%nat one_finding_text reports = (h1, Ok fs)
      ∧ foldM (visit (min_rank_of "minor") {["a.py"]}) fs [] h1
        = (reports_after, Ok bk)
      ∧ bk.*1 ⊆ accepted_keys (min_rank_of "minor") {["a.py"]} h1 fs
      ∧ NoDup bk.*1
      ∧ sel `sublist_of` bk
      ∧ NoDup sel.*1
      ∧ emitted reports_after sel reports_comments
      ∧ Forall2 (λ ke c, path c = ke.1.1.1 ∧ line c = ke.1.1.2) sel
                reports_comments.
Proof.
  assert (reports_call = (reports_after, Ok reports_comments)) as Hcall.
  { vm_compute. reflexivity. }
  split; [exact Hcall|].
  exact (emitted_keys_distinct [0; 1; 2; 3; 4]%nat one_finding_text (VInt 5)
           "minor" (VInt 2) [] {["a.py"]} reports reports_after
           reports_comments Hcall).
Defined.


(** C5, witness: two entries survive, the cap of one keeps the first. *)
Lemma cap_respected_witness :
  capped_call = (take 5 reports_after, Ok reports_comments)
  ∧ py_int (VStr " 1 ") = Ok 1 ∧ 0 < 1
  ∧ Z.of_nat (length reports_comments) ≤ 1.
Proof.
  assert (capped_call = (take 5 reports_after, Ok reports_comments)) as Hcall.
  { vm_compute. reflexivity. }
  assert (0 < 1) as Hpos by lia.
  split_and!; [exact Hcall | reflexivity | exact Hpos |].
  exact (cap_respected [0; 1; 2; 3; 4]%nat "" (VStr " 1 ") "minor" (VInt 1)
           [] ∅ reports (take 5 reports_after) reports_comments 1 Hcall
           eq_refl Hpos).
Defined.

(** C6, witness. *)
Lemma insertion_order_witness :
  reports_call = (reports_after, Ok reports_comments)
  ∧ ∃ n m h1 fs bk,
      py_int (VInt 5) = Ok n ∧ py_int (VInt 2) = Ok m
      ∧ gather [0; 1; 2; 3; 4]%nat one_finding_text reports = (h1, Ok fs)
      ∧ (∃ items, load_struct_findings one_finding_text = VList items
           ∧ fs = [0; 1; 2; 3; 4]%nat ++ seq (length reports) (length items))
      ∧ foldM (visit (min_rank_of "minor") {["a.py"]}) fs [] h1
        = (reports_after, Ok bk)
      ∧ bk.*1 = first_seen
                  (accepted_keys (min_rank_of "minor") {["a.py"]} h1 fs) []
      ∧ emitted reports_after
          (take (length reports_comments) (surviving (Z.max 1 m) bk))
          reports_comments
      ∧ length reports_comments
        = keep n (length (surviving (Z.max 1 m) bk)).
Proof.
  assert (reports_call = (reports_after, Ok reports_comments)) as Hcall.
  { vm_compute. reflexivity. }
  split; [exact Hcall|].
  exact (insertion_order [0; 1; 2; 3; 4]%nat one_finding_text (VInt 5)
           "minor" (VInt 2) [] {["a.py"]} reports reports_after
           reports_comments Hcall).
Defined.



(** C8, witness: the representative of the emitted comment is the second
    report, whose suggestion was blank. *)
Lemma placeholder_in_fence_witness :
  reports_call = (reports_after, Ok reports_comments)
  ∧ ∃ h1 fs bk sel,
      gather [0; 1; 2; 3; 4]%nat one_finding_text reports = (h1, Ok fs)
      ∧ foldM (visit (min_rank_of "minor") {["a.py"]}) fs [] h1
        = (reports_after, Ok bk)
      ∧ sel `sublist_of` bk
      ∧ emitted reports_after sel reports_comments
      ∧ Forall2 (λ ke c,
          ∀ d, deref h1 (finding ke.2) = VDict d
               ∨ deref reports_after (finding ke.2) = VDict d →
               blank (dict_get "suggestion" d) →
               fenced placeholder c) sel reports_comments.
Proof.
  assert (reports_call = (reports_after, Ok reports_comments)) as Hcall.
  { vm_compute. reflexivity. }
  split; [exact Hcall|].
  exact (placeholder_in_fence [0; 1; 2; 3; 4]%nat one_finding_text (VInt 5)
           "minor" (VInt 2) [] {["a.py"]} reports reports_after
           reports_comments Hcall).
Defined.

(** C9, counterexample: the call writes the placeholder into the second
    record of [provider_findings]. *)
Lemma suggestion_written_into_input :
  reports_call = (reports_after, Ok reports_comments)
  ∧ 1%nat ∈ [0; 1; 2; 3; 4]%nat
  ∧ deref reports 1%nat = record " a.py " 10 "MAJOR" "bug a" "msg" "  " "p2"
  ∧ deref reports_after 1%nat
    = record " a.py " 10 "MAJOR" "bug a" "msg" placeholder "p2"
  ∧ deref reports_after 1%nat ≠ deref reports 1%nat.
Proof.
  split_and!; [by vm_compute | | done | done | by vm_compute].
  apply list_elem_of_further, list_elem_of_here.
Qed.

(** C9, witness. *)
Lemma inputs_keep_all_but_suggestion_witness :
  reports_call = (reports_after, Ok reports_comments)
  ∧ str_strip "" = ""
  ∧ (length reports ≤ length reports_after)%nat
  ∧ ∀ l, (l < length reports)%nat →
         suggestion_filled (deref reports l) (deref reports_after l).
Proof.
  assert (reports_call = (reports_after, Ok reports_comments)) as Hcall.
  { vm_compute. reflexivity. }
  split_and!; [exact Hcall | reflexivity | |];
    apply (inputs_keep_all_but_suggestion [0; 1; 2; 3; 4]%nat
             one_finding_text (VInt 5) "minor" (VInt 2) [] {["a.py"]}
             reports reports_after (Ok reports_comments) Hcall eq_refl).
Defined.

(** C10, witness: [blocker] names no severity. *)
Lemma severity_floor_witness :
  severity_order (str_lower "blocker") = None
  ∧ str_lower "minor" = "minor"
  ∧ rank (str_lower "note") = 0
  ∧ 1 ≤ min_rank_of "blocker" ≤ 3
  ∧ (∀ pf sl mc ma ps cf h,
       build_inline_payload pf sl mc "blocker" ma ps cf h
       = build_inline_payload pf sl mc "minor" ma ps cf h).
Proof.
  destruct (severity_floor "blocker") as (Hb & Hsame & _ & _).
  exact (conj eq_refl (conj eq_refl (conj eq_refl
           (conj Hb (Hsame eq_refl eq_refl))))).
Defined.

(** X1, witness: the second report is the first of rank 2 under its key. *)
Lemma first_highest_wins_witness :
  reports_call = (reports_after, Ok reports_comments)
  ∧ ∃ h1 fs bk sel,
      gather [0; 1; 2; 3; 4]%nat one_finding_text reports = (h1, Ok fs)
      ∧ foldM (visit (min_rank_of "minor") {["a.py"]}) fs [] h1
        = (reports_after, Ok bk)
      ∧ sel `sublist_of` bk
      ∧ emitted reports_after sel reports_comments
      ∧ Forall (λ ke,
          ∃ i severity,
            fs !! i = Some (finding ke.2)
            ∧ screen (min_rank_of "minor") {["a.py"]} (deref h1 (finding ke.2))
              = Ok (Some (ke.1, severity))
            ∧ max_sev ke.2 = severity
            ∧ ∀ j f s, fs !! j = Some f →
                screen (min_rank_of "minor") {["a.py"]} (deref h1 f)
                = Ok (Some (ke.1, s)) →
                rank s ≤ rank severity
                ∧ ((j < i)%nat → rank s < rank severity)) sel.
Proof.
  assert (reports_call = (reports_after, Ok reports_comments)) as Hcall.
  { vm_compute. reflexivity. }
  split; [exact Hcall|].
  exact (first_highest_wins [0; 1; 2; 3; 4]%nat one_finding_text (VInt 5)
           "minor" (VInt 2) [] {["a.py"]} reports reports_after
           reports_comments Hcall).
Defined.

(** X2, witness. *)
Lemma scope_filter_witness :
  reports_call = (reports_after, Ok reports_comments)
  ∧ ({["a.py"]} : gset string) ≠ ∅
  ∧ Forall (λ c, path c ∈ ({["a.py"]} : gset string)) reports_comments.
Proof.
  assert (reports_call = (reports_after, Ok reports_comments)) as Hcall.
  { vm_compute. reflexivity. }
  assert (({["a.py"]} : gset string) ≠ ∅) as Hne.
  { apply non_empty_singleton_L. }
  split_and!; [exact Hcall | exact Hne |].
  exact (scope_filter [0; 1; 2; 3; 4]%nat one_finding_text (VInt 5)
           "minor" (VInt 2) [] {["a.py"]} reports reports_after
           reports_comments Hcall Hne).
Defined.

(** X3, witness. *)
Lemma emitted_above_floor_witness :
  reports_call = (reports_after, Ok reports_comments)
  ∧ ∃ h1 fs bk sel,
      gather [0; 1; 2; 3; 4]%nat one_finding_text reports = (h1, Ok fs)
      ∧ foldM (visit (min_rank_of "minor") {["a.py"]}) fs [] h1
        = (reports_after, Ok bk)
      ∧ sel `sublist_of` bk
      ∧ emitted reports_after sel reports_comments
      ∧ Forall (λ ke, min_rank_of "minor" ≤ rank (max_sev ke.2)) sel.
Proof.
  assert (reports_call = (reports_after, Ok reports_comments)) as Hcall.
  { vm_compute. reflexivity. }
  split; [exact Hcall|].
  exact (emitted_above_floor [0; 1; 2; 3; 4]%nat one_finding_text (VInt 5)
           "minor" (VInt 2) [] {["a.py"]} reports reports_after
           reports_comments Hcall).
Defined.

(** ** The tests of [tests/provider_validation_test.py] *)

(** [test_validate_provider_name]: four of its five assertions hold; the
    second does not, the model path having a slash of its own. *)
Example test_validate_provider_name :
  validate_provider_name "opencode/big-pickle" = true
  ∧ validate_provider_name "openrouter/mistralai/devstral-2512:free" = false
  ∧ validate_provider_name "openrouter/../etc/passwd" = false
  ∧ validate_provider_name "badprefix/model" = false
  ∧ validate_provider_name "openrouter/model with space" = false.
Proof. by vm_compute. Qed.

Example test_filter_allow_block :
  filter_providers
    ["opencode/big-pickle"; "openrouter/mistralai/devstral-2512:free";
     "bad/model"]
    (Some ["opencode/big-pickle"])
    (Some ["openrouter/mistralai/devstral-2512:free"])
  = ["opencode/big-pickle"].
Proof. by vm_compute. Qed.

Example validate_edges :
  validate_provider_name "opencode/x:free" = true
  ∧ validate_provider_name newline_name = true
  ∧ validate_provider_name (newline_name +:+ nl) = false
  ∧ validate_provider_name "opencode/" = false
  ∧ validate_provider_name "opencode/x:free:free" = false
  ∧ validate_provider_name "openrouter/.." = true.
Proof. by vm_compute. Qed.

(** ** Runs of the two settings scripts *)

Example merge_examples :
  config_merge.main (lib := settings_lib)
    ("merge" :: settings_text :: default_args)
  = Printed ("opencode/big-pickle opencode/big-pickle 5 major 1 4096 600 0 0"
             +:+ " - - wip,draft")
  ∧ config_merge.main (lib := settings_lib)
      ("merge" :: null_override_text :: default_args)
    = Printed "opencode/big-pickle  7 major 1 120000 600 0 0 - - -"
  ∧ config_merge.main ("merge" :: bare_list_text :: default_args)
    = Uncaught AttributeError
  ∧ config_merge.main ("merge" :: "" :: take 11 default_args)
    = Exited 1 "Error: insufficient arguments to config_merge".
Proof. by vm_compute. Qed.

Example loader_examples :
  config_loader.main one_yaml no_file ["loader"; "review.yml"]
  = (Some settings_exports, [settings_warning])
  ∧ config_loader.main one_yaml no_file ["loader"; "missing.yml"] = (None, [])
  ∧ config_loader.main one_yaml no_file ["loader"] = (None, []).
Proof. by vm_compute. Qed.

(** ** Witnesses of the further properties *)

Lemma comments_well_formed_witness :
  reports_call = (reports_after, Ok reports_comments)
  ∧ Forall (λ c, path c ≠ "" ∧ 0 < line c ∧ side c = "RIGHT") reports_comments.
Proof.
  assert (reports_call = (reports_after, Ok reports_comments)) as Hcall.
  { vm_compute. reflexivity. }
  split; [exact Hcall|].
  exact (comments_well_formed [0; 1; 2; 3; 4]%nat one_finding_text (VInt 5)
           "minor" (VInt 2) [] {["a.py"]} reports reports_after
           reports_comments Hcall).
Defined.

Lemma cap_is_slice_witness :
  open_call = (open_after, Ok open_comments)
  ∧ capped_call = (open_after, Ok (slice_to 1 open_comments)).
Proof.
  assert (open_call = (open_after, Ok open_comments)) as Hcall.
  { vm_compute. reflexivity. }
  split; [exact Hcall|].
  refine (cap_is_slice [0; 1; 2; 3; 4]%nat "" (VStr " 1 ") (VInt 5) "minor"
            (VInt 1) [] ∅ reports open_after open_comments 1 5 Hcall
            eq_refl _ _).
  - vm_compute. reflexivity.
  - vm_compute. reflexivity.
Defined.

Lemma output_bounded_witness :
  reports_call = (reports_after, Ok reports_comments)
  ∧ ∃ h1 fs,
      gather [0; 1; 2; 3; 4]%nat one_finding_text reports = (h1, Ok fs)
      ∧ (length reports_comments
         ≤ length (accepted_keys (min_rank_of "minor") {["a.py"]} h1 fs))%nat
      ∧ (length (accepted_keys (min_rank_of "minor") {["a.py"]} h1 fs)
         ≤ length fs)%nat.
Proof.
  assert (reports_call = (reports_after, Ok reports_comments)) as Hcall.
  { vm_compute. reflexivity. }
  split; [exact Hcall|].
  exact (output_bounded [0; 1; 2; 3; 4]%nat one_finding_text (VInt 5)
           "minor" (VInt 2) [] {["a.py"]} reports reports_after
           reports_comments Hcall).
Defined.

Lemma raising_min_agree_witness :
  open_call = (open_after, Ok open_comments)
  ∧ ∃ out',
      agreed_call = (open_after, Ok out')
      ∧ out' `sublist_of` open_comments
      ∧ (2 ≤ 1 → out' = open_comments).
Proof.
  assert (open_call = (open_after, Ok open_comments)) as Hcall.
  { vm_compute. reflexivity. }
  split; [exact Hcall|].
  refine (raising_min_agree [0; 1; 2; 3; 4]%nat "" (VInt 5) "minor" (VInt 1)
            (VInt 2) [] ∅ reports open_after open_comments 5 1 2 Hcall
            eq_refl _ eq_refl eq_refl _).
  - vm_compute. reflexivity.
  - lia.
Defined.

Lemma valid_name_one_slash_witness :
  validate_provider_name "opencode/big-pickle" = true
  ∧ occurrences "/" "opencode/big-pickle" = 1%nat
  ∧ occurrences " " "opencode/big-pickle" = 0%nat.
Proof.
  assert (validate_provider_name "opencode/big-pickle" = true) as Hv.
  { vm_compute. reflexivity. }
  split; [exact Hv|].
  exact (valid_name_one_slash "opencode/big-pickle" Hv).
Defined.

Lemma lists_compared_stripped_witness :
  validate_provider_name newline_name = true
  ∧ newline_name ∈ filter_providers [newline_name] None (Some [newline_name])
  ∧ (str_strip newline_name ≠ "" →
     newline_name ∉ filter_providers [newline_name] (Some [newline_name]) None).
Proof.
  assert (validate_provider_name newline_name = true) as Hv.
  { vm_compute. reflexivity. }
  split; [exact Hv|].
  refine (lists_compared_stripped [newline_name] newline_name Hv _ _).
  - vm_compute. discriminate.
  - apply list_elem_of_here.
Defined.

Lemma merge_defaults_pass_witness :
  config_merge.main ("merge" :: "{oops" :: default_args ++ ["extra"])
  = Printed (String.concat " "
               (take 12 (drop 2 ("merge" :: "{oops" :: default_args
                                 ++ ["extra"])))).
Proof.
  refine (merge_defaults_pass ("merge" :: "{oops" :: default_args ++ ["extra"])
            "{oops" _ eq_refl _).
  - simpl. lia.
  - right. vm_compute. reflexivity.
Defined.

Lemma merge_field_rule_witness :
  ∃ out,
    config_merge.main (lib := settings_lib)
      ("merge" :: null_override_text :: default_args)
    = Printed (String.concat " " out)
    ∧ length out = 12%nat
    ∧ ∀ i key dflt, config_merge.FIELDS !! i = Some key →
        ("merge" :: null_override_text :: default_args) !! (i + 2)%nat
        = Some dflt →
        out !! i = Some (merged_field (lib := settings_lib) null_override key
                           dflt).
Proof.
  refine (merge_field_rule (lib := settings_lib)
            ("merge" :: null_override_text :: default_args)
            null_override_text null_override _ eq_refl _ _).
  - simpl. lia.
  - vm_compute. discriminate.
  - vm_compute. reflexivity.
Defined.

Lemma loader_exports_shape_witness :
  config_loader.main one_yaml no_file ["loader"; "review.yml"]
  = (Some settings_exports, [settings_warning])
  ∧ settings_exports.*1 `sublist_of` config_merge.FIELDS
  ∧ Forall export_typed settings_exports.
Proof.
  assert (config_loader.main one_yaml no_file ["loader"; "review.yml"]
          = (Some settings_exports, [settings_warning])) as Hrun.
  { vm_compute. reflexivity. }
  split; [exact Hrun|].
  exact (loader_exports_shape one_yaml no_file ["loader"; "review.yml"]
           settings_exports [settings_warning] Hrun).
Defined.

Lemma loader_warnings_witness :
  config_loader.main one_yaml no_file ["loader"; "review.yml"]
  = (Some settings_exports, [settings_warning])
  ∧ ∃ path d, ["loader"; "review.yml"] !! 1%nat = Some path
      ∧ document one_yaml no_file path = VDict d
      ∧ [settings_warning] = mjoin (cast_warning d <$> int_settings).
Proof.
  assert (config_loader.main one_yaml no_file ["loader"; "review.yml"]
          = (Some settings_exports, [settings_warning])) as Hrun.
  { vm_compute. reflexivity. }
  split; [exact Hrun|].
  exact (loader_warnings one_yaml no_file ["loader"; "review.yml"]
           (Some settings_exports) [settings_warning] Hrun).
Defined.

Lemma loader_int_rule_witness :
  config_loader.main one_yaml no_file ["loader"; "review.yml"]
  = (Some settings_exports, [settings_warning])
  ∧ ∃ path d, ["loader"; "review.yml"] !! 1%nat = Some path
      ∧ document one_yaml no_file path = VDict d
      ∧ ∀ key env_key, (key, env_key) ∈ int_pairs →
          dict_lookup env_key settings_exports
          = match dict_get key d with
            | VNone => None
            | val =>
                match py_int val with
                | Ok z => Some (VInt z)
                | Raise _ => None
                end
            end.
Proof.
  assert (config_loader.main one_yaml no_file ["loader"; "review.yml"]
          = (Some settings_exports, [settings_warning])) as Hrun.
  { vm_compute. reflexivity. }
  split; [exact Hrun|].
  exact (loader_int_rule one_yaml no_file ["loader"; "review.yml"]
           settings_exports [settings_warning] Hrun).
Defined.

Lemma loader_null_is_absent_witness :
  config_loader.main one_yaml no_file ["loader"; "review.yml"]
  = config_loader.main no_file one_json ["loader"; "review.yml"].
Proof.
  refine (loader_null_is_absent one_yaml no_file no_file one_json
            ["loader"; "review.yml"] "review.yml" settings
            (filter (λ kv, kv.1 ≠ "synthesis_model") settings)
            eq_refl eq_refl eq_refl _).
  intros key. unfold dict_get, settings. simpl.
  repeat case_decide; subst; done.
Defined.

Lemma loader_then_merge_witness :
  config_loader.main (lib := settings_lib) one_yaml no_file
    ["loader"; "review.yml"]
  = (Some settings_exports, [settings_warning])
  ∧ ∃ path d out, ["loader"; "review.yml"] !! 1%nat = Some path
      ∧ document one_yaml no_file path = VDict d
      ∧ config_merge.main (lib := settings_lib)
          ("merge" :: settings_text :: default_args)
        = Printed (String.concat " " out)
      ∧ ∀ i key env_key dflt, (key, env_key) ∈ int_pairs →
          config_merge.FIELDS !! i = Some env_key →
          default_args !! i = Some dflt →
          out !! i = Some (int_field (lib := settings_lib) d key dflt).
Proof.
  assert (config_loader.main (lib := settings_lib) one_yaml no_file
            ["loader"; "review.yml"]
          = (Some settings_exports, [settings_warning])) as Hrun.
  { vm_compute. reflexivity. }
  split; [exact Hrun|].
  refine (loader_then_merge (lib := settings_lib) one_yaml no_file
            ["loader"; "review.yml"] settings_exports [settings_warning]
            "merge" settings_text default_args Hrun _ _ _).
  - vm_compute. discriminate.
  - vm_compute. reflexivity.
  - simpl. lia.
Defined.

(** ** The tests of [tests/prompt_builder_test.py] and runs of the script *)

Example test_append_changed_files :
  prompt_builder.append_changed_files (lib := prompt_lib) disk []
    "tmp_files.json"
  = [""; "## Changed Files"; "- a.txt (+2/-1)"; "- b.txt (+0/-0)"].
Proof. by vm_compute. Qed.

Example test_append_missing_tests :
  prompt_builder.append_missing_tests on_disk disk newline_lines []
    "missing.txt"
  = [""; "## Possible missing tests"; "- foo"; "- bar"].
Proof. by vm_compute. Qed.

Example test_append_diff :
  prompt_builder.append_diff on_disk disk [] "diff.patch"
  = [""; "## Diff"; "diff --git a/b" +:+ nl].
Proof. by vm_compute. Qed.

(** Ten entries in [argv] pass the guard and fail in the unpacking. *)
Example prompt_runs :
  prompt_builder.main (lib := prompt_lib) on_disk disk newline_lines
    prompt_args
  = prompt_builder.Wrote "prompt.txt" prompt_text
  ∧ prompt_builder.main on_disk disk newline_lines (take 10 prompt_args)
    = prompt_builder.Failed ValueError
  ∧ prompt_builder.main on_disk disk newline_lines (take 8 prompt_args)
    = prompt_builder.Quit 0.
Proof. by vm_compute. Qed.


Lemma empty_providers_erase_default_witness :
  config_loader.main (lib := settings_lib) blank_yaml no_file
    ["loader"; "review.yml"]
  = (Some no_providers_exports, [])
  ∧ ∃ path d out, ["loader"; "review.yml"] !! 1%nat = Some path
      ∧ document blank_yaml no_file path = VDict d
      ∧ config_merge.main (lib := settings_lib)
          ("merge" :: no_providers_text :: default_args)
        = Printed (String.concat " " out)
      ∧ (∀ providers, dict_get "providers" d = VList providers →
           Forall (λ p, truthy p = false) providers → out !! 0%nat = Some "")
      ∧ (∀ providers, dict_get "providers" d = VStr providers →
           str_strip providers = "" →
           out !! 0%nat = Some "opencode/big-pickle").
Proof.
  assert (config_loader.main (lib := settings_lib) blank_yaml no_file
            ["loader"; "review.yml"]
          = (Some no_providers_exports, [])) as Hrun.
  { vm_compute. reflexivity. }
  split; [exact Hrun|].
  refine (empty_providers_erase_default (lib := settings_lib) blank_yaml
            no_file ["loader"; "review.yml"] no_providers_exports []
            "merge" no_providers_text "opencode/big-pickle"
            (drop 1 default_args) Hrun _ _ _).
  - vm_compute. discriminate.
  - vm_compute. reflexivity.
  - simpl. lia.
Defined.

(** The line for a document whose providers are all blank starts with an
    empty field. *)
Example blank_providers_line :
  config_merge.main (lib := settings_lib)
    ("merge" :: no_providers_text :: default_args)
  = Printed " opencode/big-pickle 5 major 1 120000 600 0 0 - - -".
Proof. by vm_compute. Qed.

End Examples.
